(** * Validation pipeline of the AX-1 / Geneve 10 reproduction

    A shallow embedding of the numeric-reconstruction parser
    ([scripts/parse_latex_tables.py], [scripts/extract_complete_geneve10_data.py])
    and of the validation scripts ([scripts/validate_geneve10_transient.py],
    [scripts/validate_simulation.py], [scripts/validation_analysis.py]).

    Python floats are modelled as extended rationals: a finite value is an
    exact rational, and the three special values (+inf, -inf, NaN) follow the
    IEEE rules for comparison and arithmetic.  Rounding, overflow and the sign
    of zero are not part of the model. *)

From Stdlib Require Import List String Ascii Bool Arith ZArith QArith Qround Qabs.
From Stdlib Require Import Lia Lqa Sorting Permutation.
Import ListNotations.

Set Implicit Arguments.

(* ================================================================== *)
(** ** Extended rationals standing for Python / numpy floats *)
(* ================================================================== *)

Module FloatModel.

Inductive fval : Type :=
| Fin (q : Q)
| PInf
| NInf
| NaN.

Definition Qlt_bool (a b : Q) : bool := negb (Qle_bool b a).

Definition isnan (a : fval) : bool :=
  match a with NaN => true | _ => false end.

Definition isfinite (a : fval) : bool :=
  match a with Fin _ => true | _ => false end.

(** [a < b]; every comparison with NaN is false. *)
Definition fltb (a b : fval) : bool :=
  match a, b with
  | NaN, _ | _, NaN => false
  | Fin x, Fin y => Qlt_bool x y
  | NInf, NInf => false
  | NInf, _ => true
  | _, NInf => false
  | PInf, _ => false
  | Fin _, PInf => true
  end.

(** [a <= b]. *)
Definition fleb (a b : fval) : bool :=
  match a, b with
  | NaN, _ | _, NaN => false
  | Fin x, Fin y => Qle_bool x y
  | NInf, _ => true
  | _, PInf => true
  | _, NInf => false
  | PInf, _ => false
  end.

(** [a > b] and [a >= b]. *)
Definition fgtb (a b : fval) : bool := fltb b a.
Definition fgeb (a b : fval) : bool := fleb b a.

(** [a == b]. *)
Definition feqb (a b : fval) : bool :=
  match a, b with
  | Fin x, Fin y => Qeq_bool x y
  | PInf, PInf => true
  | NInf, NInf => true
  | _, _ => false
  end.

Definition fneb (a b : fval) : bool := negb (feqb a b).

Definition fneg (a : fval) : fval :=
  match a with
  | Fin x => Fin (- x)
  | PInf => NInf
  | NInf => PInf
  | NaN => NaN
  end.

Definition fabs (a : fval) : fval :=
  match a with
  | Fin x => Fin (Qabs x)
  | PInf | NInf => PInf
  | NaN => NaN
  end.

Definition fadd (a b : fval) : fval :=
  match a, b with
  | NaN, _ | _, NaN => NaN
  | Fin x, Fin y => Fin (x + y)
  | PInf, NInf | NInf, PInf => NaN
  | PInf, _ | _, PInf => PInf
  | NInf, _ | _, NInf => NInf
  end.

Definition fsub (a b : fval) : fval := fadd a (fneg b).

(** Sign of a value as a comparison with zero; NaN has none. *)
Definition fsign (a : fval) : option comparison :=
  match a with
  | Fin x => Some (x ?= 0)
  | PInf => Some Gt
  | NInf => Some Lt
  | NaN => None
  end.

Definition signed_inf (c1 c2 : comparison) : fval :=
  match c1, c2 with
  | Eq, _ | _, Eq => NaN
  | Gt, Gt | Lt, Lt => PInf
  | _, _ => NInf
  end.

Definition fmul (a b : fval) : fval :=
  match a, b with
  | Fin x, Fin y => Fin (x * y)
  | _, _ =>
      match fsign a, fsign b with
      | Some c1, Some c2 => signed_inf c1 c2
      | _, _ => NaN
      end
  end.

(** numpy division: a zero divisor gives an infinity (or NaN for 0/0)
    instead of an exception; the zero is taken as +0. *)
Definition fdiv (a b : fval) : fval :=
  match a, b with
  | NaN, _ | _, NaN => NaN
  | Fin x, Fin y =>
      if Qeq_bool y 0 then signed_inf (x ?= 0) Gt else Fin (x / y)
  | Fin _, _ => Fin 0
  | _, Fin y =>
      match fsign a with
      | Some c1 => signed_inf c1 (if Qeq_bool y 0 then Gt else y ?= 0)
      | None => NaN
      end
  | _, _ => NaN
  end.

(** [np.max] of two values: NaN propagates. *)
Definition fmax (a b : fval) : fval :=
  match a, b with
  | NaN, _ | _, NaN => NaN
  | _, _ => if fltb a b then b else a
  end.

Definition fsum (l : list fval) : fval := fold_left fadd l (Fin 0).

Definition of_nat (n : nat) : fval := Fin (inject_Z (Z.of_nat n)).

(** [np.mean]: NaN on an empty array. *)
Definition fmean (l : list fval) : fval :=
  match l with
  | [] => NaN
  | _ => fdiv (fsum l) (of_nat (List.length l))
  end.

(** [np.max] of a non-empty array (NaN propagates); [None] stands for the
    ValueError numpy raises on an empty one. *)
Definition np_max (l : list fval) : option fval :=
  match l with
  | [] => None
  | a :: l' => Some (fold_left fmax l' a)
  end.

(** Equality of floats as mathematical values. *)
Definition feq (a b : fval) : Prop :=
  match a, b with
  | Fin x, Fin y => x == y
  | PInf, PInf | NInf, NInf | NaN, NaN => True
  | _, _ => False
  end.

End FloatModel.

(* ================================================================== *)
(** ** Python string operations used by the parsers *)
(* ================================================================== *)

(** Strings are byte strings; [\d], [\s], [str.isdigit] and [str.strip] are
    taken on their ASCII range (the non-ASCII digits and blanks of Unicode do
    not occur in the table sources). *)

Module PyStr.

Import FloatModel.
Local Open Scope string_scope.

Definition is_space (c : ascii) : bool :=
  let n := nat_of_ascii c in
  ((9 <=? n) && (n <=? 13) || (28 <=? n) && (n <=? 32))%nat.

Definition is_digit (c : ascii) : bool :=
  let n := nat_of_ascii c in ((48 <=? n) && (n <=? 57))%nat.

Definition is_sign (c : ascii) : bool :=
  (Ascii.eqb c "+" || Ascii.eqb c "-")%char.

Definition len (s : string) : nat := String.length s.

Fixpoint lstrip (s : string) : string :=
  match s with
  | EmptyString => EmptyString
  | String c s' => if is_space c then lstrip s' else s
  end.

Fixpoint rstrip (s : string) : string :=
  match s with
  | EmptyString => EmptyString
  | String c s' =>
      match rstrip s' with
      | EmptyString => if is_space c then EmptyString else String c EmptyString
      | r => String c r
      end
  end.

(** [s.strip()] *)
Definition strip (s : string) : string := rstrip (lstrip s).

(** [s.startswith(p)] *)
Fixpoint startswith (p s : string) : bool :=
  match p, s with
  | EmptyString, _ => true
  | String a p', String b s' => Ascii.eqb a b && startswith p' s'
  | _, _ => false
  end.

(** [sub in s] *)
Fixpoint contains (sub s : string) : bool :=
  startswith sub s ||
  match s with
  | EmptyString => false
  | String _ s' => contains sub s'
  end.

(** [s.isdigit()]: non-empty and made of digits. *)
Fixpoint all_digits (s : string) : bool :=
  match s with
  | EmptyString => true
  | String c s' => is_digit c && all_digits s'
  end.

Definition isdigit (s : string) : bool :=
  match s with
  | EmptyString => false
  | _ => all_digits s
  end.

Definition upper_char (c : ascii) : ascii :=
  let n := nat_of_ascii c in
  if ((97 <=? n) && (n <=? 122))%nat then ascii_of_nat (n - 32) else c.

Fixpoint upper (s : string) : string :=
  match s with
  | EmptyString => EmptyString
  | String c s' => String (upper_char c) (upper s')
  end.

Definition lower_char (c : ascii) : ascii :=
  let n := nat_of_ascii c in
  if ((65 <=? n) && (n <=? 90))%nat then ascii_of_nat (n + 32) else c.

Fixpoint lower (s : string) : string :=
  match s with
  | EmptyString => EmptyString
  | String c s' => String (lower_char c) (lower s')
  end.

(** Left-to-right scan shared by [str.replace] and [re.sub]: [m] looks for a
    match at the head of the remaining text and answers with the
    replacement and the number of characters matched; [skip] counts the
    characters of the last match still to be passed over. *)
Fixpoint sub_scan (m : string -> option (string * nat)) (skip : nat)
         (s : string) {struct s} : string :=
  match s with
  | EmptyString => EmptyString
  | String c s' =>
      match skip with
      | S k => sub_scan m k s'
      | O =>
          match m s with
          | Some (rep, S k) => rep ++ sub_scan m k s'
          | _ => String c (sub_scan m 0 s')
          end
      end
  end.

(** [s.replace(old, new)] for a non-empty [old]. *)
Definition replace (old new s : string) : string :=
  sub_scan (fun t => if startswith old t then Some (new, len old) else None) 0 s.

(** Longest prefix whose characters satisfy [p], and the rest. *)
Fixpoint span (p : ascii -> bool) (s : string) : string * string :=
  match s with
  | EmptyString => (EmptyString, EmptyString)
  | String c s' =>
      if p c then let (a, b) := span p s' in (String c a, b)
      else (EmptyString, s)
  end.

(** [[+-]?] at the head of [s]. *)
Definition opt_sign (s : string) : string * string :=
  match s with
  | String c s' => if is_sign c then (String c EmptyString, s') else (EmptyString, s)
  | EmptyString => (EmptyString, EmptyString)
  end.

(** [re.match(r'^\d{2}$', s)] *)
Definition is_two_digits (s : string) : bool :=
  match s with
  | String a (String b rest) =>
      is_digit a && is_digit b &&
      (String.eqb rest "" || String.eqb rest (String (ascii_of_nat 10) ""))
  | _ => false
  end.

(** [re.match(r'^[+-]?\d{2}$', s)] *)
Definition is_signed_two_digits (s : string) : bool :=
  is_two_digits (snd (opt_sign s)).

(** [re.match(r'^\d+\.\d+E', s)] *)
Definition is_complete_mantissa (s : string) : bool :=
  let (ip, r1) := span is_digit s in
  match ip, r1 with
  | String _ _, String "." r2 =>
      let (fp, r3) := span is_digit r2 in
      match fp, r3 with
      | String _ _, String "E" _ => true
      | _, _ => false
      end
  | _, _ => false
  end.

(** [s.split(sep)] for a one-character separator. *)
Fixpoint split_on (sep : ascii) (s : string) : list string :=
  match s with
  | EmptyString => [EmptyString]
  | String c s' =>
      if Ascii.eqb c sep then EmptyString :: split_on sep s'
      else
        match split_on sep s' with
        | h :: t => String c h :: t
        | [] => [String c EmptyString]
        end
  end.

(** [any(k in s for k in keys)] *)
Definition contains_any (keys : list string) (s : string) : bool :=
  existsb (fun k => contains k s) keys.

(** [lines[start:end]] for indices that are not negative. *)
Definition slice (A : Type) (lines : list A) (start stop : nat) : list A :=
  firstn (stop - start) (skipn start lines).

(** *** Decimal literals: [float(s)] *)

Fixpoint digits_value (acc : Z) (s : string) : Z :=
  match s with
  | EmptyString => acc
  | String c s' => digits_value (10 * acc + (Z.of_nat (nat_of_ascii c) - 48)) s'
  end.

(** [m * 10^e] as a reduced fraction. *)
Definition scale10 (m e : Z) : Q :=
  if (0 <=? e)%Z then inject_Z (m * 10 ^ e)
  else Qred (Qmake m (Z.to_pos (10 ^ (- e)))).

(** [[eE][+-]?\d+] followed by the end of the text, or nothing at all. *)
Definition parse_exponent (s : string) : option Z :=
  match s with
  | EmptyString => Some 0%Z
  | String c r =>
      if (Ascii.eqb c "e" || Ascii.eqb c "E")%char then
        let (sg, r1) := opt_sign r in
        let (ds, r2) := span is_digit r1 in
        match ds, r2 with
        | String _ _, EmptyString =>
            let v := digits_value 0 ds in
            Some (if String.eqb sg "-" then (- v)%Z else v)
        | _, _ => None
        end
      else None
  end.

Definition parse_unsigned (s : string) : option Q :=
  let (ip, r1) := span is_digit s in
  let (fp, r2) :=
    match r1 with
    | String "." r => span is_digit r
    | _ => (EmptyString, r1)
    end in
  match (len ip + len fp)%nat with
  | O => None
  | _ =>
      match parse_exponent r2 with
      | Some e => Some (scale10 (digits_value 0 (ip ++ fp)) (e - Z.of_nat (len fp)))
      | None => None
      end
  end.

(** [float(s)]: [None] stands for ValueError.  Digit-group underscores are
    not accepted by this model. *)
Definition float (s : string) : option fval :=
  let (sg, body) := opt_sign (strip s) in
  let neg := String.eqb sg "-" in
  let lo := lower body in
  if String.eqb lo "inf" || String.eqb lo "infinity"
  then Some (if neg then NInf else PInf)
  else if String.eqb lo "nan" then Some NaN
  else
    match parse_unsigned body with
    | Some q => Some (Fin (if neg then Qred (- q) else q))
    | None => None
    end.

End PyStr.

(* ================================================================== *)
(** ** scripts/parse_latex_tables.py *)
(* ================================================================== *)

Module ParseLatex.

Import FloatModel PyStr.
Local Open Scope string_scope.

(** U+2022 (the bullet OCR puts in place of a decimal point), in UTF-8. *)
Definition bullet : string :=
  String (ascii_of_nat 226) (String (ascii_of_nat 128) (String (ascii_of_nat 162) "")).

Definition one (c : ascii) : string := String c "".

(** [(\d)\s+E\s*([+-]?\d)], rewritten to [\1E\2]. *)
Definition re_digit_sp_E (s : string) : option (string * nat) :=
  match s with
  | String d r =>
      if is_digit d then
        let (ws1, r1) := span is_space r in
        match ws1, r1 with
        | String _ _, String "E" r2 =>
            let (ws2, r3) := span is_space r2 in
            let (sg, r4) := opt_sign r3 in
            match r4 with
            | String d2 _ =>
                if is_digit d2
                then Some (one d ++ "E" ++ sg ++ one d2,
                           (1 + len ws1 + 1 + len ws2 + len sg + 1)%nat)
                else None
            | EmptyString => None
            end
        | _, _ => None
        end
      else None
  | EmptyString => None
  end.

(** [E\s+([+-]?\d)], rewritten to [E\1]. *)
Definition re_E_sp_num (s : string) : option (string * nat) :=
  match s with
  | String "E" r =>
      let (ws, r1) := span is_space r in
      let (sg, r2) := opt_sign r1 in
      match ws, r2 with
      | String _ _, String d _ =>
          if is_digit d
          then Some ("E" ++ sg ++ one d, (1 + len ws + len sg + 1)%nat)
          else None
      | _, _ => None
      end
  | _ => None
  end.

(** [E([+-]?\s+\d)], rewritten to ['E' + group.replace(' ', '')]. *)
Definition re_E_sign_sp (s : string) : option (string * nat) :=
  match s with
  | String "E" r =>
      let (sg, r1) := opt_sign r in
      let (ws, r2) := span is_space r1 in
      match ws, r2 with
      | String _ _, String d _ =>
          if is_digit d
          then Some ("E" ++ replace " " "" (sg ++ ws ++ one d),
                     (1 + len sg + len ws + 1)%nat)
          else None
      | _, _ => None
      end
  | _ => None
  end.

(** [E\s*(\d)], rewritten to [E+\1]. *)
Definition re_E_unsigned (s : string) : option (string * nat) :=
  match s with
  | String "E" r =>
      let (ws, r1) := span is_space r in
      match r1 with
      | String d _ =>
          if is_digit d then Some ("E+" ++ one d, (1 + len ws + 1)%nat) else None
      | EmptyString => None
      end
  | _ => None
  end.

Definition re_sub (m : string -> option (string * nat)) (s : string) : string :=
  sub_scan m 0 s.

Definition clean_latex_number (s : string) : string :=
  let s := strip s in
  if String.eqb s "-0." then "0.0"
  else
    let s := replace bullet "." s in
    let s := replace "E Ol" "E+01" s in
    let s := replace "E OO" "E+00" s in
    let s := replace "E OI" "E+01" s in
    let s := re_sub re_digit_sp_E s in
    let s := re_sub re_E_sp_num s in
    let s := re_sub re_E_sign_sp s in
    let s := re_sub re_E_unsigned s in
    s.

(** *** The fragment loop of [parse_time_series_table] *)

Definition get (parts : list string) (i : nat) : string := nth i parts "".

(** [i+1 < len(parts) and re.match(r'^\d{2}$', parts[i+1].strip())] *)
Definition next_is_exponent (parts : list string) (i : nat) : bool :=
  (i + 1 <? List.length parts)%nat && is_two_digits (strip (get parts (i + 1))).

(** One turn of the [while] body at offset [i]: the number appended to
    [reconstructed], if any, and the offset after the closing [i += 1]. *)
Definition time_step (parts : list string) (i : nat) : option string * nat :=
  let part := strip (get parts i) in
  if (len part <=? 2)%nat && isdigit part then
    if (i + 1 <? List.length parts)%nat && startswith "." (get parts (i + 1)) then
      let combined := part ++ get parts (i + 1) in
      let i := (i + 1)%nat in
      if next_is_exponent parts i
      then (Some (clean_latex_number (combined ++ get parts (i + 1))), (i + 1 + 1)%nat)
      else (Some (clean_latex_number combined), (i + 1)%nat)
    else (None, (i + 1)%nat)
  else if startswith "." part || contains "E" (upper part) then
    let combined := part in
    let '(combined, i) :=
      if next_is_exponent parts i
      then (combined ++ get parts (i + 1), (i + 1)%nat)
      else (combined, i) in
    let combined := if startswith "." combined then "2" ++ combined else combined in
    (Some (clean_latex_number combined), (i + 1)%nat)
  else if is_complete_mantissa part then
    let combined := part in
    if (i + 1 <? List.length parts)%nat
       && is_signed_two_digits (strip (get parts (i + 1)))
    then (Some (clean_latex_number (combined ++ get parts (i + 1))), (i + 1 + 1)%nat)
    else (Some (clean_latex_number combined), (i + 1)%nat)
  else (Some (clean_latex_number part), (i + 1)%nat).

(** [while i < len(parts)]; the loop state is the offset and the list
    built so far.  Every turn advances the offset, so [len(parts)] turns
    are enough. *)
Fixpoint time_loop (fuel : nat) (parts : list string) (i : nat)
         (reconstructed : list string) : nat * list string :=
  match fuel with
  | O => (i, reconstructed)
  | S fuel' =>
      if (i <? List.length parts)%nat then
        let (out, i') := time_step parts i in
        time_loop fuel' parts i'
          (match out with Some v => reconstructed ++ [v] | None => reconstructed end)
      else (i, reconstructed)
  end.

Definition reconstruct_time (parts : list string) : nat * list string :=
  time_loop (List.length parts) parts 0 [].

(** [[float(v) for v in l]]; [None] when some [float] raises ValueError. *)
Fixpoint floats (l : list string) : option (list fval) :=
  match l with
  | [] => Some []
  | v :: l' =>
      match float v, floats l' with
      | Some x, Some xs => Some (x :: xs)
      | _, _ => None
      end
  end.

(** The row a list of fragments contributes to [data], if any. *)
Definition time_series_row (parts : list string) : option (list fval) :=
  let reconstructed := snd (reconstruct_time parts) in
  if (6 <=? List.length reconstructed)%nat
  then floats (firstn 6 reconstructed)
  else None.

(** *** The fragment loop of [parse_spatial_table] *)

(** One turn of the [while] body: the text handed to [float] and the next
    offset. *)
Definition spatial_step (parts : list string) (i : nat) : string * nat :=
  let val := clean_latex_number (get parts i) in
  if next_is_exponent parts i
  then (val ++ strip (get parts (i + 1)), (i + 1 + 1)%nat)
  else (val, (i + 1)%nat).

(** [while i < len(parts) and len(values) < 6]; [None] is the ValueError
    of a [float] that fails, which drops the whole line. *)
Fixpoint spatial_loop (fuel : nat) (parts : list string) (i : nat)
         (values : list fval) : option (nat * list fval) :=
  match fuel with
  | O => Some (i, values)
  | S fuel' =>
      if (i <? List.length parts)%nat && (List.length values <? 6)%nat then
        let (txt, i') := spatial_step parts i in
        match float txt with
        | Some v => spatial_loop fuel' parts i' (values ++ [v])
        | None => None
        end
      else Some (i, values)
  end.

Definition reconstruct_spatial (parts : list string) : option (nat * list fval) :=
  spatial_loop (List.length parts) parts 0 [].

Definition spatial_row (parts : list string) : option (list fval) :=
  if (6 <=? List.length parts)%nat then
    match reconstruct_spatial parts with
    | Some (_, values) =>
        if (List.length values =? 6)%nat then Some values else None
    | None => None
    end
  else None.

(** *** Lines and tables *)

(** [[p.strip() for p in line.split('&')]], without the empty parts. *)
Definition split_cells (line : string) : list string :=
  filter (fun p => negb (String.eqb p "")) (map strip (split_on "&" line)).

(** The lines [parse_time_series_table] passes over: layout and headings. *)
Definition time_skip_words : list string :=
  ["\hline"; "\end{"; "\begin{"; "TIME"; "GENEVE"; "DUMP"; "HALVE"; "LIGHT";
   "SENSE"; "\multicolumn"; "\multirow"; "TOTAL"; "CHECK"; "ERROR"].

(** The body of the [for line in ...] loop of [parse_time_series_table]:
    the row the line adds to [data], if any. *)
Definition parse_time_series_line (line : string) : option (list fval) :=
  let line := strip line in
  if String.eqb line "" || contains_any time_skip_words line then None
  else
    let line := strip (replace "\hline" "" (replace "\\" "" line)) in
    time_series_row (split_cells line).

Fixpoint collect_rows (f : string -> option (list fval)) (lines : list string)
  : list (list fval) :=
  match lines with
  | [] => []
  | line :: rest =>
      match f line with
      | Some values => values :: collect_rows f rest
      | None => collect_rows f rest
      end
  end.

Definition parse_time_series_table (latex_lines : list string) (start_line end_line : nat)
  : list (list fval) :=
  collect_rows parse_time_series_line (slice latex_lines start_line end_line).

Definition spatial_skip_words : list string :=
  ["\hline"; "\end{"; "\begin{"; "DENSITY"; "RADIUS"; "VELOCITY"; "PRESSURE";
   "ENERGY"; "TEMPERATURE"; "GENEVE"; "TOTAL"; "KINETIC"; "CHECK";
   "\multicolumn"; "\multirow"; "\caption"].

Definition parse_spatial_line (line : string) : option (list fval) :=
  let line := strip line in
  if String.eqb line "" || contains_any spatial_skip_words line then None
  else
    let line := strip (replace "$" "" (replace "\hline" "" (replace "\\" "" line))) in
    let line := replace "\mathrm{E}" "E" line in
    spatial_row (split_cells line).

Definition parse_spatial_table (latex_lines : list string) (start_line end_line : nat)
  : list (list fval) :=
  collect_rows parse_spatial_line (slice latex_lines start_line end_line).

End ParseLatex.

(* ================================================================== *)
(** ** Duplicate removal at the end of [extract_all_geneve10_tables] *)
(* ================================================================== *)

(** A time-series row is the list of six numbers [parse_time_series_table]
    emitted.  Rows hold finite numbers here: Python's [sorted] has no
    defined result on NaN keys. *)

Module ExtractTables.

Import FloatModel.
Local Open Scope Q_scope.

Definition row := list Q.

(** [row[0]] *)
Definition key (r : row) : Q := nth 0 r 0.

(** Nearest integer, ties to the even one (Python's [round]). *)
Definition round_half_even (q : Q) : Z :=
  let f := Qfloor q in
  match ((q - inject_Z f) ?= (1 # 2))%Q with
  | Lt => f
  | Gt => (f + 1)%Z
  | Eq => if Z.even f then f else (f + 1)%Z
  end.

(** [round(x, 6)] *)
Definition round6 (q : Q) : Q :=
  Qred (Qmake (round_half_even (q * 1000000)) 1000000).

(** [time in seen_times] *)
Definition seen (t : Q) (seen_times : list Q) : bool :=
  existsb (Qeq_bool t) seen_times.

(** The [for row in all_time_data] loop, with [seen_times] threaded
    through: the rows kept, in input order. *)
Fixpoint unique_from (seen_times : list Q) (rows : list row) : list row :=
  match rows with
  | [] => []
  | r :: rest =>
      let time := round6 (key r) in
      if seen time seen_times then unique_from seen_times rest
      else r :: unique_from (time :: seen_times) rest
  end.

Definition unique_time_data (rows : list row) : list row := unique_from [] rows.

(** [sorted(rows, key=lambda x: x[0])]: a stable sort. *)
Fixpoint insert_by_key (r : row) (l : list row) : list row :=
  match l with
  | [] => [r]
  | y :: l' =>
      if Qle_bool (key r) (key y) then r :: l else y :: insert_by_key r l'
  end.

Fixpoint sorted_by_key (l : list row) : list row :=
  match l with
  | [] => []
  | r :: l' => insert_by_key r (sorted_by_key l')
  end.

(** Lines 255-264: the value [all_time_data] is rebound to. *)
Definition dedup_time_data (all_time_data : list row) : list row :=
  match all_time_data with
  | [] => []
  | _ => sorted_by_key (unique_time_data all_time_data)
  end.

End ExtractTables.

(* ================================================================== *)
(** ** scripts/extract_complete_geneve10_data.py *)
(* ================================================================== *)

Module ExtractComplete.

Import FloatModel PyStr.
Local Open Scope string_scope.

(** [E\s+(\d)] and [E\s*(\d)], both rewritten to [E+\1]. *)
Definition re_E_sp1_digit (s : string) : option (string * nat) :=
  match s with
  | String "E" r =>
      let (ws, r1) := span is_space r in
      match ws, r1 with
      | String _ _, String d _ =>
          if is_digit d
          then Some ("E+" ++ String d "", (1 + len ws + 1)%nat) else None
      | _, _ => None
      end
  | _ => None
  end.

Definition re_E_sp0_digit (s : string) : option (string * nat) :=
  match s with
  | String "E" r =>
      let (ws, r1) := span is_space r in
      match r1 with
      | String d _ =>
          if is_digit d
          then Some ("E+" ++ String d "", (1 + len ws + 1)%nat) else None
      | EmptyString => None
      end
  | _ => None
  end.

(** [E([0-9])], rewritten to [E+\1]. *)
Definition re_E_digit (s : string) : option (string * nat) :=
  match s with
  | String "E" (String d _) =>
      if is_digit d then Some ("E+" ++ String d "", 2%nat) else None
  | _ => None
  end.

(** [' '.join(s.split())]: blank runs become one space, and the blanks at
    both ends go. *)
Fixpoint squeeze (pending : bool) (s : string) : string :=
  match s with
  | EmptyString => EmptyString
  | String c s' =>
      if is_space c then squeeze true s'
      else if pending then String " " (String c (squeeze false s'))
      else String c (squeeze false s')
  end.

Definition join_split (s : string) : string := squeeze false (lstrip s).

Definition clean_latex_number (s : string) : string :=
  let s := strip s in
  let s := replace " & " "" s in
  let s := replace "&" "" s in
  let s := sub_scan re_E_sp1_digit 0 s in
  let s := sub_scan re_E_sp0_digit 0 s in
  let s := sub_scan re_E_digit 0 s in
  join_split s.

(** Lines 144-157 of [extract_spatial_profile]: the velocity of a zone
    from its cell; [None] is the ValueError that skips the line. *)
Definition velocity_value (cell : string) : option fval :=
  let velocity_str := clean_latex_number cell in
  let velocity_str :=
    if contains "-O" velocity_str || contains "O." velocity_str
    then "0.0" else velocity_str in
  let velocity_str := if String.eqb velocity_str "0" then "0.0" else velocity_str in
  float velocity_str.

End ExtractComplete.

(** Sequencing of steps that may raise: [None] is the exception. *)
Notation "'do' x <- e1 ; e2" :=
  (match e1 with Some x => e2 | None => None end)
  (at level 10, x pattern, e1 at level 99, e2 at level 200).

(* ================================================================== *)
(** ** scripts/validate_geneve10_transient.py *)
(* ================================================================== *)

Module Transient.

Import FloatModel.

(** The five columns the check reads, by their CSV header. *)
Record ts_row : Type := {
  time_microsec : fval;
  QP_1e12_erg : fval;
  power_relative : fval;
  alpha_1_microsec : fval;
  W_dimensionless : fval
}.

(** A field of the simulator CSV as [pd.read_csv] hands it over: absent,
    or the text of the entry. *)
Inductive cell : Type :=
| Missing
| Text (s : string).

Record raw_row : Type := {
  raw_time : cell;
  raw_QP : cell;
  raw_power : cell;
  raw_alpha : cell;
  raw_W : cell
}.

(** One line of the [summary] frame. *)
Record summary_row : Type := {
  s_time : fval;
  sim_QP : fval; ref_QP : fval; QP_err_pct : fval;
  sim_power : fval; ref_power : fval; power_err_pct : fval;
  sim_alpha : fval; ref_alpha : fval; alpha_err_pct : fval;
  sim_W : fval; ref_W : fval; W_err_pct : fval
}.

Section Load.

(** The numeric grammar of pandas: the value of a text that denotes a
    number, [None] for any other text. *)
Variable parse_number : string -> option fval.

(** [pd.to_numeric(..., errors="coerce")] on one entry. *)
Definition to_numeric (c : cell) : fval :=
  match c with
  | Missing => NaN
  | Text s =>
      match parse_number s with
      | Some v => v
      | None => NaN
      end
  end.

Definition coerce_row (r : raw_row) : ts_row :=
  {| time_microsec := to_numeric (raw_time r);
     QP_1e12_erg := to_numeric (raw_QP r);
     power_relative := to_numeric (raw_power r);
     alpha_1_microsec := to_numeric (raw_alpha r);
     W_dimensionless := to_numeric (raw_W r) |}.

(** A row [dropna(subset=[...])] keeps: none of the five is NaN. *)
Definition complete (r : ts_row) : bool :=
  negb (isnan (time_microsec r)) && negb (isnan (QP_1e12_erg r))
  && negb (isnan (power_relative r)) && negb (isnan (alpha_1_microsec r))
  && negb (isnan (W_dimensionless r)).

Definition dropna (sim : list ts_row) : list ts_row := filter complete sim.

(** Lines 52-56: the simulation frame the loop works on. *)
Definition load_sim (raw : list raw_row) : list ts_row :=
  dropna (map coerce_row raw).

End Load.

(** [Series.idxmin()]: position of the first least value, NaN skipped;
    [None] is the ValueError on a series with no value to compare. *)
Fixpoint idxmin (l : list fval) : option nat :=
  match l with
  | [] => None
  | d :: l' =>
      match idxmin l' with
      | None => if isnan d then None else Some 0%nat
      | Some j =>
          if isnan d then Some (S j)
          else if fleb d (nth j l' NaN) then Some 0%nat else Some (S j)
      end
  end.

Definition _closest_row (sim : list ts_row) (target_time : fval) : option ts_row :=
  do idx <- idxmin (map (fun r => fabs (fsub (time_microsec r) target_time)) sim);
  nth_error sim idx.

(** Python's [/] on floats: ZeroDivisionError on a zero divisor. *)
Definition py_div (a b : fval) : option fval :=
  if feqb b (Fin 0) then None else Some (fdiv a b).

Definition _percentage_error (sim_val ref_val : fval) : option fval :=
  if feqb ref_val (Fin 0) then Some PInf
  else py_div (fabs (fsub sim_val ref_val)) (fabs ref_val).

Definition pct (e : fval) : fval := fmul e (Fin 100).

Section Check.

Variables (time_limit qp_tol power_tol alpha_tol w_tol : fval).

(** The four errors of a reference row against its simulation row. *)
Definition row_errors (sim_row ref_row : ts_row)
  : option (fval * fval * fval * fval) :=
  do qp_err <- _percentage_error (QP_1e12_erg sim_row) (QP_1e12_erg ref_row);
  do power_err <- _percentage_error (power_relative sim_row) (power_relative ref_row);
  do alpha_err <- _percentage_error (alpha_1_microsec sim_row) (alpha_1_microsec ref_row);
  do w_err <- _percentage_error (W_dimensionless sim_row) (W_dimensionless ref_row);
  Some (qp_err, power_err, alpha_err, w_err).

(** The test that sets [passed = False]. *)
Definition out_of_tolerance (e : fval * fval * fval * fval) : bool :=
  let '(qp_err, power_err, alpha_err, w_err) := e in
  fgtb qp_err qp_tol || fgtb power_err power_tol
  || fgtb alpha_err alpha_tol || fgtb w_err w_tol.

Definition summary_of (sim_row ref_row : ts_row) (e : fval * fval * fval * fval)
  : summary_row :=
  let '(qp_err, power_err, alpha_err, w_err) := e in
  {| s_time := time_microsec ref_row;
     sim_QP := QP_1e12_erg sim_row;
     ref_QP := QP_1e12_erg ref_row;
     QP_err_pct := pct qp_err;
     sim_power := power_relative sim_row;
     ref_power := power_relative ref_row;
     power_err_pct := pct power_err;
     sim_alpha := alpha_1_microsec sim_row;
     ref_alpha := alpha_1_microsec ref_row;
     alpha_err_pct := pct alpha_err;
     sim_W := W_dimensionless sim_row;
     ref_W := W_dimensionless ref_row;
     W_err_pct := pct w_err |}.

(** The body of [for _, ref_row in ref.iterrows()] on one row: the line
    added to [rows] and the new value of [passed]. *)
Definition check_row (sim : list ts_row) (ref_row : ts_row) (passed : bool)
  : option (summary_row * bool) :=
  do sim_row <- _closest_row sim (time_microsec ref_row);
  do e <- row_errors sim_row ref_row;
  Some (summary_of sim_row ref_row e,
        if out_of_tolerance e then false else passed).

Fixpoint check_rows (sim ref : list ts_row) (rows : list summary_row)
         (passed : bool) : option (bool * list summary_row) :=
  match ref with
  | [] => Some (passed, rows)
  | ref_row :: rest =>
      do (line, passed') <- check_row sim ref_row passed;
      check_rows sim rest (rows ++ [line]) passed'
  end.

(** [run_check] on the two frames as read from disk. *)
Definition run_check (parse_number : string -> option fval)
           (sim_csv : list raw_row) (ref_csv : list ts_row)
  : option (bool * list summary_row) :=
  let ref := filter (fun r => fleb (time_microsec r) time_limit) ref_csv in
  let sim := load_sim parse_number sim_csv in
  check_rows sim ref [] true.

End Check.

End Transient.

(* ================================================================== *)
(** ** scripts/validate_simulation.py *)
(* ================================================================== *)

Module ValidateSim.

Import FloatModel.

(** [ref[mask]]: the entries whose mask bit is set. *)
Fixpoint select (A : Type) (mask : list bool) (l : list A) : list A :=
  match mask, l with
  | b :: mask', a :: l' => if b then a :: select mask' l' else select mask' l'
  | _, _ => []
  end.

Definition square (a : fval) : fval := fmul a a.

Record metrics : Type := {
  max_abs_error : fval;
  max_rel_error : fval;
  rms_error : fval;
  mean_rel_error : fval;
  points_compared : nat
}.

Section Metrics.

(** [np.sqrt] *)
Variable np_sqrt : fval -> fval.

(** [np.isfinite(ref) & np.isfinite(sim) & (ref != 0)], element by
    element, for arrays of one length. *)
Definition finite_nonzero_mask (ref sim : list fval) : list bool :=
  map (fun '(r, s) => isfinite r && isfinite s && fneb r (Fin 0)) (combine ref sim).

(** [calculate_metrics]; [None] when the two arrays differ in length. *)
Definition calculate_metrics (ref sim : list fval) : option metrics :=
  if negb (List.length ref =? List.length sim)%nat then None
  else
    let mask := finite_nonzero_mask ref sim in
    let ref_clean := select mask ref in
    let sim_clean := select mask sim in
    if (List.length ref_clean =? 0)%nat then
      Some {| max_abs_error := NaN; max_rel_error := NaN; rms_error := NaN;
              mean_rel_error := NaN; points_compared := 0 |}
    else
      let abs_error := map (fun '(s, r) => fabs (fsub s r)) (combine sim_clean ref_clean) in
      let rel_error := map (fun '(a, r) => fdiv a (fabs r)) (combine abs_error ref_clean) in
      do max_abs <- np_max abs_error;
      do max_rel <- np_max rel_error;
      Some {| max_abs_error := max_abs;
              max_rel_error := fmul max_rel (Fin 100);
              rms_error := np_sqrt (fmean (map square abs_error));
              mean_rel_error := fmul (fmean rel_error) (Fin 100);
              points_compared := List.length ref_clean |}.

End Metrics.

(** *** [validate_time_evolution] *)

Record te_row : Type := {
  time_microsec : fval;
  QP_1e12_erg : fval;
  power_relative : fval;
  alpha_1_microsec : fval
}.

Record result_row : Type := {
  time : fval;
  qp_ref : fval; qp_sim : fval; qp_error : fval;
  power_ref : fval; power_sim : fval; power_error : fval;
  alpha_ref : fval; alpha_sim : fval; alpha_error : fval
}.

(** numpy's sort order: NaN after every number. *)
Definition np_lt (a b : fval) : bool :=
  match a, b with
  | NaN, _ => false
  | _, NaN => true
  | _, _ => fltb a b
  end.

(** [argsort()[:1]]: the position that sorts first; [None] on an empty
    series.  numpy's default sort does not say which of several equal
    values comes first: the earliest is taken. *)
Fixpoint argsort_first (l : list fval) : option nat :=
  match l with
  | [] => None
  | d :: l' =>
      match argsort_first l' with
      | None => Some 0%nat
      | Some j => if np_lt (nth j l' NaN) d then Some (S j) else Some 0%nat
      end
  end.

(** The time window of the match, 0.1 microseconds. *)
Definition time_window : fval := Fin (1 # 10).

Definition rel_pct (sim_v ref_v : fval) : fval :=
  fmul (fdiv (fabs (fsub sim_v ref_v)) ref_v) (Fin 100).

(** The body of [for _, ref_row in ref_data.iterrows()]: the entry added
    to [results], or [None] where the body ends in [continue]. *)
Definition match_row (sim_data : list te_row) (ref_row : te_row) : option result_row :=
  let t_ref := time_microsec ref_row in
  do i <- argsort_first (map (fun r => fabs (fsub (time_microsec r) t_ref)) sim_data);
  do sim_match <- nth_error sim_data i;
  let t_sim := time_microsec sim_match in
  if fgtb (fabs (fsub t_sim t_ref)) time_window then None
  else
    let qp_r := QP_1e12_erg ref_row in
    let qp_s := QP_1e12_erg sim_match in
    let power_r := power_relative ref_row in
    let power_s := power_relative sim_match in
    let alpha_r := alpha_1_microsec ref_row in
    let alpha_s := alpha_1_microsec sim_match in
    Some {| time := t_ref;
            qp_ref := qp_r; qp_sim := qp_s; qp_error := rel_pct qp_s qp_r;
            power_ref := power_r; power_sim := power_s;
            power_error := if fgtb power_r (Fin 0) then rel_pct power_s power_r else Fin 0;
            alpha_ref := alpha_r; alpha_sim := alpha_s;
            alpha_error := rel_pct alpha_s alpha_r |}.

Fixpoint match_rows (sim_data ref_data : list te_row) : list result_row :=
  match ref_data with
  | [] => []
  | ref_row :: rest =>
      match match_row sim_data ref_row with
      | Some r => r :: match_rows sim_data rest
      | None => match_rows sim_data rest
      end
  end.

(** [Series.max()] and [Series.mean()]: NaN entries are skipped, and the
    result is NaN when nothing is left. *)
Definition dropna (l : list fval) : list fval := filter (fun v => negb (isnan v)) l.

Definition series_max (l : list fval) : fval :=
  match dropna l with
  | [] => NaN
  | a :: l' => fold_left fmax l' a
  end.

Definition series_mean (l : list fval) : fval := fmean (dropna l).

Inductive status : Type := EXCELLENT | GOOD | ACCEPTABLE | NEEDS_WORK.

Definition assess (max_err threshold : fval) : status :=
  if fleb max_err threshold then EXCELLENT
  else if fleb max_err (fmul threshold (Fin 2)) then GOOD
  else if fleb max_err (fmul threshold (Fin 5)) then ACCEPTABLE
  else NEEDS_WORK.

(** The two branches that set [all_pass = False]. *)
Definition fails (s : status) : bool :=
  match s with
  | ACCEPTABLE | NEEDS_WORK => true
  | EXCELLENT | GOOD => false
  end.

(** A quantity of the summary: its name, its column of [df_results] and
    its threshold, in per cent. *)
Definition quantity : Type := (string * (result_row -> fval) * fval)%type.

Definition quantities : list quantity :=
  [ ("QP (Energy)"%string, qp_error, Fin 2);
    ("Power"%string, power_error, Fin 5);
    ("Alpha"%string, alpha_error, Fin 1) ].

(** One printed line of the summary table. *)
Record summary_line : Type := {
  name : string;
  mean_err : fval;
  max_err : fval;
  assessment : status
}.

(** [for name, col, threshold in quantities]: the lines printed and the
    final [all_pass]. *)
Fixpoint summarize (qs : list quantity) (df_results : list result_row)
         (all_pass : bool) : list summary_line * bool :=
  match qs with
  | [] => ([], all_pass)
  | (nm, col, threshold) :: rest =>
      let column := map col df_results in
      let mx := series_max column in
      let st := assess mx threshold in
      let (lines, final) :=
        summarize rest df_results (if fails st then false else all_pass) in
      ({| name := nm; mean_err := series_mean column; max_err := mx;
          assessment := st |} :: lines, final)
  end.

(** [validate_time_evolution] on the two frames: [None] when no time
    point matches, else the printed summary, [df_results] and [all_pass]. *)
Definition validate_time_evolution_with (qs : list quantity)
           (ref_data sim_data : list te_row)
  : option (list summary_line * list result_row * bool) :=
  match match_rows sim_data ref_data with
  | [] => None
  | df_results =>
      let (lines, all_pass) := summarize qs df_results true in
      Some (lines, df_results, all_pass)
  end.

Definition validate_time_evolution := validate_time_evolution_with quantities.

End ValidateSim.

(* ================================================================== *)
(** ** scripts/validation_analysis.py *)
(* ================================================================== *)

Module ValidationAnalysis.

Import FloatModel.
Local Open Scope Q_scope.

(** A data frame seen from [interpolate_to_common_grid]: the column named
    by [x_col], the other numeric columns, by name, and the names of the
    columns that are not numeric.  The entries are finite numbers, and
    every column is as long as [index]. *)
Record frame : Type := {
  index : list Q;
  columns : list (string * list Q);
  other_columns : list string
}.

(** An interpolated frame: [x_col] and the interpolated columns. *)
Record interp_frame : Type := {
  x_common : list Q;
  interpolated : list (string * list fval)
}.

Definition Qmin (a b : Q) : Q := if Qle_bool a b then a else b.
Definition Qmax (a b : Q) : Q := if Qle_bool a b then b else a.

(** [Series.min()] and [Series.max()] of a non-empty column. *)
Definition col_min (a : Q) (l : list Q) : Q := fold_left Qmin l a.
Definition col_max (a : Q) (l : list Q) : Q := fold_left Qmax l a.

Definition Qnat (n : nat) : Q := inject_Z (Z.of_nat n).

(** [np.linspace(start, stop, num)] *)
Definition linspace (start stop : Q) (num : nat) : list Q :=
  match num with
  | O => []
  | 1%nat => [start]
  | _ =>
      let step := (stop - start) / Qnat (num - 1) in
      map (fun i => if (i =? num - 1)%nat then stop else Qnat i * step + start)
          (seq 0 num)
  end.

(** *** [scipy.interpolate.interp1d(x, y, kind='linear',
        fill_value='extrapolate')] *)

(** The samples in ascending order of [x] (a stable sort). *)
Fixpoint insert_sample (p : Q * Q) (l : list (Q * Q)) : list (Q * Q) :=
  match l with
  | [] => [p]
  | y :: l' => if Qle_bool (fst p) (fst y) then p :: l else y :: insert_sample p l'
  end.

Fixpoint sort_samples (l : list (Q * Q)) : list (Q * Q) :=
  match l with
  | [] => []
  | p :: l' => insert_sample p (sort_samples l')
  end.

(** [np.searchsorted(x, v)] on an ascending [x]: how many entries are
    below [v]. *)
Definition searchsorted (xs : list Q) (v : Q) : nat :=
  List.length (filter (fun x => FloatModel.Qlt_bool x v) xs).

(** [idx.clip(1, n - 1)] *)
Definition clip_index (idx n : nat) : nat := Nat.min (Nat.max idx 1) (n - 1).

(** The value of the interpolant at [x_new], for samples already sorted:
    the line through the two samples around [x_new], or through the two
    outermost ones at that end when [x_new] is outside the range. *)
Definition call_linear (samples : list (Q * Q)) (x_new : Q) : fval :=
  let n := List.length samples in
  let hi := clip_index (searchsorted (map fst samples) x_new) n in
  let lo := match hi with O => (n - 1)%nat | S k => k end in
  let '(x_lo, y_lo) := nth lo samples (0, 0) in
  let '(x_hi, y_hi) := nth hi samples (0, 0) in
  let slope := fdiv (Fin (y_hi - y_lo)) (Fin (x_hi - x_lo)) in
  fadd (fmul slope (Fin (x_new - x_lo))) (Fin y_lo).

(** The interpolant; [None] is the ValueError on empty arrays or on
    arrays of different lengths. *)
Definition interp1d (x y : list Q) : option (Q -> fval) :=
  if (List.length x =? 0)%nat || negb (List.length x =? List.length y)%nat
  then None
  else Some (call_linear (sort_samples (combine x y))).

(** [min(len(ref_data), len(sim_data), 100)] *)
Definition n_points (ref_data sim_data : frame) : nat :=
  Nat.min (Nat.min (List.length (index ref_data)) (List.length (index sim_data))) 100.

(** The shared grid; empty when a frame has no row ([linspace] with
    [num = 0]). *)
Definition common_grid (ref_data sim_data : frame) : list Q :=
  match index ref_data, index sim_data with
  | r :: rs, s :: ss =>
      let x_min := Qmax (col_min r rs) (col_min s ss) in
      let x_max := Qmin (col_max r rs) (col_max s ss) in
      linspace x_min x_max (n_points ref_data sim_data)
  | _, _ => []
  end.

(** [col in ref_data.columns], for a [col] other than [x_col]. *)
Definition has_column (nm : string) (f : frame) : bool :=
  existsb (fun c => String.eqb (fst c) nm) (columns f)
  || existsb (String.eqb nm) (other_columns f).

(** The [for col in ...columns] loops: every column of [cols] that passes
    [keep] is interpolated onto [grid]. *)
Fixpoint interp_columns (keep : string -> bool) (x : list Q)
         (cols : list (string * list Q)) (grid : list Q)
  : option (list (string * list fval)) :=
  match cols with
  | [] => Some []
  | (nm, y) :: rest =>
      if keep nm then
        do f <- interp1d x y;
        do more <- interp_columns keep x rest grid;
        Some ((nm, map f grid) :: more)
      else interp_columns keep x rest grid
  end.

Definition interpolate_to_common_grid (ref_data sim_data : frame)
  : option (interp_frame * interp_frame) :=
  let grid := common_grid ref_data sim_data in
  do ref_cols <- interp_columns (fun _ => true) (index ref_data) (columns ref_data) grid;
  do sim_cols <- interp_columns (fun nm => has_column nm ref_data)
                   (index sim_data) (columns sim_data) grid;
  Some ({| x_common := grid; interpolated := ref_cols |},
        {| x_common := grid; interpolated := sim_cols |}).

(** *** [calculate_errors] *)

Record error_metrics : Type := {
  mean_relative_error : fval;
  max_relative_error : fval;
  rms_error : fval;
  max_absolute_error : fval;
  mean_reference : fval;
  mean_simulation : fval
}.

(** The floor below which a reference value counts as zero, 1e-10. *)
Definition floor : fval := Fin (1 # 10000000000).

(** [np.abs(ref_vals) > 1e-10] *)
Definition above_floor (r : fval) : bool := fgtb (fabs r) floor.

Definition lookup (A : Type) (nm : string) (cols : list (string * A)) : option A :=
  match find (fun c => String.eqb (fst c) nm) cols with
  | Some c => Some (snd c)
  | None => None
  end.

Section Errors.

(** [np.sqrt] *)
Variable np_sqrt : fval -> fval.

(** [x[mask]]; [None] is the IndexError of a mask of another length. *)
Definition masked (mask : list bool) (x : list fval) : option (list fval) :=
  if (List.length mask =? List.length x)%nat
  then Some (ValidateSim.select mask x) else None.

(** The metrics of one column; [None] when numpy raises. *)
Definition column_errors (ref_vals sim_vals : list fval) : option error_metrics :=
  let mask := map above_floor ref_vals in
  if (0 <? List.length (filter (fun b => b) mask))%nat then
    do sim_m <- masked mask sim_vals;
    do ref_m <- masked mask ref_vals;
    let diff := map (fun '(s, r) => fsub s r) (combine sim_m ref_m) in
    let rel_error := map (fun '(d, r) => fabs (fdiv d r)) (combine diff ref_m) in
    do max_rel <- np_max rel_error;
    do max_abs <- np_max (map fabs diff);
    Some {| mean_relative_error := fmean rel_error;
            max_relative_error := max_rel;
            rms_error := np_sqrt (fmean (map ValidateSim.square diff));
            max_absolute_error := max_abs;
            mean_reference := fmean ref_m;
            mean_simulation := fmean sim_m |}
  else
    Some {| mean_relative_error := NaN;
            max_relative_error := NaN;
            rms_error := NaN;
            max_absolute_error := NaN;
            mean_reference := Fin 0;
            mean_simulation := Fin 0 |}.

(** [calculate_errors]: the dictionary of metrics, in the order of
    [columns]; a name absent from a frame is passed over. *)
Fixpoint calculate_errors (ref_data sim_data : list (string * list fval))
         (cols : list string) : option (list (string * error_metrics)) :=
  match cols with
  | [] => Some []
  | col :: rest =>
      match lookup col ref_data, lookup col sim_data with
      | Some ref_vals, Some sim_vals =>
          do m <- column_errors ref_vals sim_vals;
          do more <- calculate_errors ref_data sim_data rest;
          Some ((col, m) :: more)
      | _, _ => calculate_errors ref_data sim_data rest
      end
  end.

End Errors.

End ValidationAnalysis.

(* ================================================================== *)
(** ** scripts/validate_results.py *)
(* ================================================================== *)

Module ValidateResults.

Import FloatModel ValidationAnalysis.

(** [metrics['max_relative_error'] < 0.01] *)
Definition within_one_percent (m : error_metrics) : bool :=
  fltb (max_relative_error m) (Fin (1 # 100)).

(** The check mark printed for each quantity ([true] for the tick). *)
Definition statuses (errors : list (string * error_metrics)) : list (string * bool) :=
  map (fun e => (fst e, within_one_percent (snd e))) errors.

(** [passing] and [total] of [main], on the merged dictionary. *)
Definition passing (all_errors : list (string * error_metrics)) : nat :=
  List.length (filter (fun e => within_one_percent (snd e)) all_errors).

Definition total (all_errors : list (string * error_metrics)) : nat :=
  List.length all_errors.

(** [passing == total]: the run ends with VALIDATION PASSED and exit
    status 0. *)
Definition validation_passed (all_errors : list (string * error_metrics)) : bool :=
  (passing all_errors =? total all_errors)%nat.

End ValidateResults.

(* ================================================================== *)
(** ** Table blocks of [extract_all_geneve10_tables] *)
(* ================================================================== *)

Module TableBlocks.

Import FloatModel PyStr ParseLatex.
Local Open Scope string_scope.

(** [''.join(l)] *)
Definition join (l : list string) : string := String.concat "" l.

(** An entry of [table_blocks]: [(table_start, i + 1)].  [table_start] is
    [None] until a table has been opened. *)
Definition block : Type := (option nat * nat)%type.

(** [lines[start:...]] begins at the first line when [start] is [None]. *)
Definition first_line (start : option nat) : nat :=
  match start with
  | Some s => s
  | None => 0%nat
  end.

(** The state of the scan of lines 204-218. *)
Record scan_state : Type := {
  table_blocks : list block;
  in_table : bool;
  table_start : option nat
}.

(** ['GENEVE 10' in context or 'GENEVE10' in context], for the context
    [lines[max(0, i-10):i+5]]. *)
Definition geneve10_context (lines : list string) (i : nat) : bool :=
  let context := join (slice lines (i - 10) (i + 5)) in
  contains "GENEVE 10" context || contains "GENEVE10" context.

(** The body of [for i, line in enumerate(lines)]. *)
Definition scan_line (lines : list string) (st : scan_state) (i : nat) (line : string)
  : scan_state :=
  if contains "\begin{tabular}" line && negb (in_table st) then
    if geneve10_context lines i
    then {| table_blocks := table_blocks st; in_table := true; table_start := Some i |}
    else st
  else if contains "\end{tabular}" line && in_table st then
    {| table_blocks := (table_blocks st ++ [(table_start st, (i + 1)%nat)])%list;
       in_table := false;
       table_start := table_start st |}
  else st.

Fixpoint scan_lines (lines : list string) (i : nat) (rest : list string)
         (st : scan_state) : scan_state :=
  match rest with
  | [] => st
  | line :: rest' => scan_lines lines (S i) rest' (scan_line lines st i line)
  end.

Definition find_table_blocks (lines : list string) : list block :=
  table_blocks
    (scan_lines lines 0 lines
       {| table_blocks := []; in_table := false; table_start := None |}).

Inductive table_kind : Type := TimeSeries | SpatialProfile | Unrecognised.

(** The test on [table_text = ''.join(lines[start:min(end+10, len(lines))])]. *)
Definition table_kind_of (lines : list string) (b : block) : table_kind :=
  let '(start, end_) := b in
  let table_text :=
    join (slice lines (first_line start) (Nat.min (end_ + 10) (List.length lines))) in
  if contains "TIME" table_text && contains "QP" table_text
     && contains "POWER" table_text
  then TimeSeries
  else if contains "DENSITY" table_text && contains "RADIUS" table_text
          && contains "VELOCITY" table_text
  then SpatialProfile
  else Unrecognised.

(** [spatial_data[time_key] = spatial_data_vals]; the key
    [f"lines_{start}_{end}"] is the block itself. *)
Fixpoint store (key : block) (v : list (list fval))
         (d : list (block * list (list fval))) : list (block * list (list fval)) :=
  match d with
  | [] => [(key, v)]
  | (k, w) :: d' =>
      if (match fst k, fst key with
          | Some a, Some b => (a =? b)%nat
          | None, None => true
          | _, _ => false
          end) && (snd k =? snd key)%nat
      then (k, v) :: d'
      else (k, w) :: store key v d'
  end.

(** [for start, end in table_blocks]: the rows gathered in
    [all_time_data] and the dictionary [spatial_data]. *)
Fixpoint parse_blocks (lines : list string) (blocks : list block)
         (all_time_data : list (list fval))
         (spatial_data : list (block * list (list fval)))
  : list (list fval) * list (block * list (list fval)) :=
  match blocks with
  | [] => (all_time_data, spatial_data)
  | (start, end_) :: rest =>
      match table_kind_of lines (start, end_) with
      | TimeSeries =>
          match parse_time_series_table lines (first_line start) end_ with
          | [] => parse_blocks lines rest all_time_data spatial_data
          | time_data =>
              parse_blocks lines rest (all_time_data ++ time_data)%list spatial_data
          end
      | SpatialProfile =>
          match parse_spatial_table lines (first_line start) end_ with
          | [] => parse_blocks lines rest all_time_data spatial_data
          | spatial_data_vals =>
              parse_blocks lines rest all_time_data
                (store (start, end_) spatial_data_vals spatial_data)
          end
      | Unrecognised => parse_blocks lines rest all_time_data spatial_data
      end
  end.

(** Lines 204-253: [all_time_data], before the duplicate times are
    removed, and [spatial_data]. *)
Definition collect_tables (lines : list string)
  : list (list fval) * list (block * list (list fval)) :=
  parse_blocks lines (find_table_blocks lines) [] [].

End TableBlocks.

(* ================================================================== *)
(** ** The line loops of [extract_time_evolution] and
       [extract_spatial_profile] *)
(* ================================================================== *)

(** The section of the document the two functions cut out with a regular
    expression is taken as given; the model starts at
    [for line in section.split('\n')]. *)

Module ExtractLines.

Import FloatModel PyStr ExtractComplete.
Local Open Scope string_scope.

Definition newline : ascii := ascii_of_nat 10.

(** [line.replace('|', '').replace('\\\\', '').replace('\\hline', '')],
    then [[p.strip() for p in line.split('&') if p.strip()]]. *)
Definition split_parts (line : string) : list string :=
  ParseLatex.split_cells (replace "\hline" "" (replace "\\" "" (replace "|" "" line))).

Definition get (parts : list string) (i : nat) : string := nth i parts "".

(** *** [extract_time_evolution] *)

Record time_record : Type := {
  time_microsec : fval;
  QP_1e12_erg : fval;
  power_relative : fval;
  alpha_1_microsec : fval;
  delt_microsec : fval;
  W_dimensionless : fval
}.

Definition is_time_line (line : string) : bool :=
  contains "&" line && negb (contains "\hline" line)
  && negb (contains "DUMP" line) && negb (contains "HALVE" line).

(** The body of the [try]: [None] is the ValueError that skips the line. *)
Definition time_record_of (parts : list string) : option time_record :=
  let n := List.length parts in
  let time_str :=
    clean_latex_number
      (if (len (get parts 0) <? 3)%nat then get parts 0 ++ get parts 1 else get parts 0) in
  let qp_str :=
    clean_latex_number
      (if contains "03" (get parts 2) then get parts 1 ++ get parts 2 else get parts 1) in
  let power_str := clean_latex_number (if (3 <? n)%nat then get parts 3 else get parts 2) in
  let alpha_str := clean_latex_number (if (4 <? n)%nat then get parts 4 else get parts 3) in
  let delt_str :=
    clean_latex_number
      (if (6 <? n)%nat then get parts 5 ++ get parts 6 else get parts 4) in
  let w_str := clean_latex_number (if (7 <? n)%nat then get parts 7 else get parts 5) in
  do time_val <- float time_str;
  do qp_val <- float qp_str;
  do power_val <- float power_str;
  do alpha_val <- float alpha_str;
  do delt_val <- float delt_str;
  do w_val <- float w_str;
  Some {| time_microsec := time_val; QP_1e12_erg := qp_val;
          power_relative := power_val; alpha_1_microsec := alpha_val;
          delt_microsec := delt_val; W_dimensionless := w_val |}.

Fixpoint time_records (lines : list string) : list time_record :=
  match lines with
  | [] => []
  | line :: rest =>
      if is_time_line line then
        let parts := split_parts line in
        if (6 <=? List.length parts)%nat then
          match time_record_of parts with
          | Some r => r :: time_records rest
          | None => time_records rest
          end
        else time_records rest
      else time_records rest
  end.

(** [time_data] for the section [time_section]. *)
Definition extract_time_evolution (time_section : string) : list time_record :=
  time_records (split_on newline time_section).

(** *** [extract_spatial_profile] *)

Record zone_record : Type := {
  zone_index : nat;
  density_g_cm3 : fval;
  radius_cm : fval;
  velocity_cm_microsec : fval;
  pressure_megabars : fval;
  internal_energy_1e12_erg_g : fval;
  temperature_keV : fval
}.

Definition is_zone_line (line : string) : bool :=
  contains "&" line && negb (contains "\hline" line) && negb (contains "DENSITY" line).

Definition zone_record_of (zone_idx : nat) (parts : list string) : option zone_record :=
  let density_str := clean_latex_number (get parts 0) in
  let radius_str := clean_latex_number (get parts 1) in
  let pressure_str := clean_latex_number (get parts 3) in
  let energy_str := clean_latex_number (get parts 4) in
  let temp_str := clean_latex_number (get parts 5) in
  do density_val <- float density_str;
  do radius_val <- float radius_str;
  do velocity_val <- velocity_value (get parts 2);
  do pressure_val <- float pressure_str;
  do energy_val <- float energy_str;
  do temp_val <- float temp_str;
  Some {| zone_index := zone_idx; density_g_cm3 := density_val;
          radius_cm := radius_val; velocity_cm_microsec := velocity_val;
          pressure_megabars := pressure_val;
          internal_energy_1e12_erg_g := energy_val; temperature_keV := temp_val |}.

(** The loop, with [zone_idx] threaded through. *)
Fixpoint zone_records (zone_idx : nat) (lines : list string) : list zone_record :=
  match lines with
  | [] => []
  | line :: rest =>
      if is_zone_line line then
        let parts := split_parts line in
        if (6 <=? List.length parts)%nat then
          match zone_record_of zone_idx parts with
          | Some z => z :: zone_records (S zone_idx) rest
          | None => zone_records zone_idx rest
          end
        else zone_records zone_idx rest
      else zone_records zone_idx rest
  end.

(** [spatial_data] for the section [spatial_section]. *)
Definition extract_spatial_profile (spatial_section : string) : list zone_record :=
  zone_records 2 (split_on newline spatial_section).

End ExtractLines.

(* ================================================================== *)
(** ** [validate_spatial_profile] and [main] of
       scripts/validate_simulation.py *)
(* ================================================================== *)

(** The model starts at the frame [merged], the inner join of the two
    files on [zone_index]: its key column, of integers, and its other
    columns by name, each as long as the key column. *)

Module SpatialValidation.

Import FloatModel ValidateSim.
Local Open Scope string_scope.

Record merged_frame : Type := {
  zone_index : list Z;
  columns : list (string * list fval)
}.

(** [merged[nm]]; [None] when [nm not in merged.columns]. *)
Definition column (nm : string) (merged : merged_frame) : option (list fval) :=
  ValidationAnalysis.lookup nm (columns merged).

(** A quantity: its name, its column in the two files and its threshold,
    in per cent. *)
Definition quantity : Type := (string * string * fval)%type.

Definition quantities : list quantity :=
  [ ("Density", "density_g_cm3", Fin 1);
    ("Radius", "radius_cm", Fin (1 # 2));
    ("Velocity", "velocity_cm_microsec", Fin 5);
    ("Pressure", "pressure_megabars", Fin 5);
    ("Energy", "internal_energy_1e12_erg_g", Fin 2);
    ("Temperature", "temperature_keV", Fin 2) ].

(** [merged[ref_col] != 0] *)
Definition nonzero_mask (ref_vals : list fval) : list bool :=
  map (fun r => fneb r (Fin 0)) ref_vals.

(** [mask.sum()] *)
Definition mask_sum (mask : list bool) : nat := List.length (filter (fun b => b) mask).

(** [np.abs(sim[mask] - ref[mask]) / np.abs(ref[mask]) * 100] *)
Definition rel_errors (ref_vals sim_vals : list fval) : list fval :=
  let mask := nonzero_mask ref_vals in
  map (fun '(s, r) => fmul (fdiv (fabs (fsub s r)) (fabs r)) (Fin 100))
      (combine (select mask sim_vals) (select mask ref_vals)).

(** What the loop does for one quantity: it prints MISSING, or passes
    over the quantity without a line, or prints the two errors and the
    assessment. *)
Inductive report : Type :=
| MISSING
| NothingToCompare
| Assessed (mean_err max_err : fval) (st : status).

Definition report_of (merged : merged_frame) (q : quantity) : report :=
  let '(_, col, threshold) := q in
  match column (col ++ "_ref") merged, column (col ++ "_sim") merged with
  | Some ref_vals, Some sim_vals =>
      if (mask_sum (nonzero_mask ref_vals) =? 0)%nat then NothingToCompare
      else
        let errors := rel_errors ref_vals sim_vals in
        Assessed (series_mean errors) (series_max errors)
                 (assess (series_max errors) threshold)
  | _, _ => MISSING
  end.

(** The two branches that set [all_pass = False]. *)
Definition report_fails (r : report) : bool :=
  match r with
  | Assessed _ _ st => fails st
  | _ => false
  end.

(** [for name, col, threshold in quantities] *)
Fixpoint assess_quantities (qs : list quantity) (merged : merged_frame)
         (all_pass : bool) : list (string * report) * bool :=
  match qs with
  | [] => ([], all_pass)
  | q :: rest =>
      let r := report_of merged q in
      let (lines, final) :=
        assess_quantities rest merged (if report_fails r then false else all_pass) in
      ((fst (fst q), r) :: lines, final)
  end.

(** The core-blanket boundary check; [None] is the KeyError of a column
    that is not there, or the IndexError of [.iloc[0]] on no row. *)
Definition boundary_check (merged : merged_frame) : option unit :=
  do density_ref <- column "density_g_cm3_ref" merged;
  match select (map (fun d => fgtb d (Fin 10)) density_ref) (zone_index merged) with
  | [] => Some tt
  | boundary_zone :: _ =>
      if (boundary_zone =? 0)%Z then Some tt
      else
        match select (map (fun z => (z =? boundary_zone - 1)%Z) (zone_index merged))
                     (zone_index merged) with
        | [] => None
        | _ :: _ =>
            do _ <- column "radius_cm_ref" merged;
            Some tt
        end
  end.

(** [validate_spatial_profile] on the merged frame: the outer [None] is
    an exception, the inner one the value [None] the function returns
    when no zone matches. *)
Definition validate_spatial_profile (merged : merged_frame)
  : option (option (list (string * report) * merged_frame * bool)) :=
  if (List.length (zone_index merged) =? 0)%nat then Some None
  else
    let (lines, all_pass) := assess_quantities quantities merged true in
    do _ <- boundary_check merged;
    Some (Some (lines, merged, all_pass)).

(** *** [main] *)

Inductive verdict : Type := PASSED | PARTIAL | INCOMPLETE | FAILED.

(** [x is not None] *)
Definition is_not_None (A : Type) (x : option A) : bool :=
  match x with
  | Some _ => true
  | None => false
  end.

(** [results, passed = ret]; [None] is the TypeError of unpacking the
    value [None]. *)
Definition unpack (A : Type) (ret : option (A * bool)) : option (option A * bool) :=
  match ret with
  | Some (results, passed) => Some (Some results, passed)
  | None => None
  end.

(** The columns [generate_validation_plots] reads from the spatial
    results. *)
Definition plotted_columns : list string :=
  ["radius_cm_ref"; "density_g_cm3_ref"; "radius_cm_sim"; "density_g_cm3_sim";
   "temperature_keV_ref"; "temperature_keV_sim"].

(** [generate_validation_plots]: [None] is the KeyError of a plotted
    column that is not there.  The columns read from [time_results] are
    among those [validate_time_evolution] always builds; the drawing
    itself is not modelled. *)
Definition generate_validation_plots (time_results : option (list result_row))
           (spatial_results : option merged_frame) : option unit :=
  match spatial_results with
  | Some merged =>
      if forallb (fun nm => is_not_None (column nm merged)) plotted_columns
      then Some tt else None
  | None => Some tt
  end.

(** [main] on what the two validations return: the final verdict printed,
    or [None] when an exception ends the run. *)
Definition main_with
           (time_ret : option (list summary_line * list result_row * bool))
           (spatial_ret : option (option (list (string * report) * merged_frame * bool)))
  : option verdict :=
  do (time_results, time_pass) <-
     unpack (match time_ret with
             | Some (_, df_results, all_pass) => Some (df_results, all_pass)
             | None => None
             end);
  do ret <- spatial_ret;
  do (spatial_results, spatial_pass) <-
     unpack (match ret with
             | Some (_, merged, all_pass) => Some (merged, all_pass)
             | None => None
             end);
  do _ <- (if is_not_None time_results || is_not_None spatial_results
           then generate_validation_plots time_results spatial_results
           else Some tt);
  if is_not_None time_results && is_not_None spatial_results then
    if time_pass && spatial_pass then Some PASSED
    else if time_pass || spatial_pass then Some PARTIAL
    else Some INCOMPLETE
  else Some FAILED.

Definition main (ref_data sim_data : list te_row) (merged : merged_frame)
  : option verdict :=
  main_with (validate_time_evolution ref_data sim_data)
            (validate_spatial_profile merged).

End SpatialValidation.

(* ================================================================== *)
(** ** [convert_units], and the comparison steps of [main] in
       scripts/validate_results.py *)
(* ================================================================== *)

Module ResultsMain.

Import FloatModel ValidationAnalysis ValidateResults.
Local Open Scope string_scope.

(** A data frame as a list of named columns, the names all different. *)
Definition data_frame : Type := list (string * list fval).

(** [col in df.columns] *)
Definition has (col : string) (df : data_frame) : bool :=
  existsb (fun c => String.eqb (fst c) col) df.

(** [df[col] = df[col] * factor] *)
Definition scale_column (col : string) (factor : fval) (df : data_frame) : data_frame :=
  map (fun c => if String.eqb (fst c) col
                then (fst c, map (fun v => fmul v factor) (snd c)) else c) df.

(** [convert_units]: [conversions] holds the items of the dictionary. *)
Fixpoint convert_units (df : data_frame) (conversions : list (string * fval)) : data_frame :=
  match conversions with
  | [] => df
  | (col, factor) :: rest =>
      convert_units (if has col df then scale_column col factor df else df) rest
  end.

(** The columns of an interpolated frame: [x_col], then the interpolated
    ones. *)
Definition frame_columns (x_col : string) (f : interp_frame) : data_frame :=
  (x_col, map Fin (x_common f)) :: interpolated f.

Definition time_columns : list string :=
  ["QP_1e12_erg"; "power_relative"; "alpha_1_microsec"].

Definition spatial_columns : list string :=
  ["density_g_cm3"; "temperature_keV"; "pressure_megabars"; "internal_energy_1e12_erg_g"].

(** [[c for c in columns if c in ref_interp.columns and c in sim_interp.columns]] *)
Definition available (columns : list string) (ref_interp sim_interp : data_frame)
  : list string :=
  filter (fun c => has c ref_interp && has c sim_interp) columns.

Section Compare.

(** [np.sqrt] *)
Variable np_sqrt : fval -> fval.

(** Steps 3 and 5 of [main]: the two frames are put on the common grid,
    and the errors of the available columns computed; [None] when a step
    raises. *)
Definition compare (x_col : string) (columns : list string) (ref_data sim_data : frame)
  : option (list (string * error_metrics)) :=
  do (ref_interp, sim_interp) <- interpolate_to_common_grid ref_data sim_data;
  let r := frame_columns x_col ref_interp in
  let s := frame_columns x_col sim_interp in
  calculate_errors np_sqrt r s (available columns r s).

End Compare.

(** [{**time_errors, **spatial_errors}] *)
Definition merge (A : Type) (a b : list (string * A)) : list (string * A) :=
  map (fun e => match lookup (fst e) b with
                | Some v => (fst e, v)
                | None => e
                end) a
  ++ filter (fun e => match lookup (fst e) a with
                      | Some _ => false
                      | None => true
                      end) b.

(** The status [main] returns after its summary. *)
Definition exit_status (time_errors spatial_errors : list (string * error_metrics)) : nat :=
  if validation_passed (merge time_errors spatial_errors) then 0%nat else 1%nat.

End ResultsMain.

(* ================================================================== *)
(** * Terms and sample inputs of the properties *)
(* ================================================================== *)

(** ** Fragments used in the statements on reconstruction *)

Module ReconstructTerms.

Import FloatModel PyStr ParseLatex.
Local Open Scope string_scope.

(** The fragments of the time 240 microseconds, split over three cells. *)
Definition split_240 : list string := ["2"; ".400000E"; "02"].

(** A whole time-series line that starts with these three cells. *)
Definition line_240 : list string :=
  split_240 ++ ["5.194141E"; "03"; "1.000000E"; "00"; "1.308400E-02";
                "2.000000E"; "00"; "0."].

(** The same line as it stands in a table of the document. *)
Definition text_240 : string :=
  "2 & .400000E & 02 & 5.194141E & 03 & 1.000000E & 00 & 1.308400E-02 & 2.000000E & 00 & 0. \\".

(** A misread exponent, in one cell and split over two. *)
Definition joined_Ol : string := "1.510078E Ol".
Definition split_Ol : list string := ["1.510078E"; "Ol"].

(** A whole line of six numbers whose first one is split in this way. *)
Definition line_split_Ol : list string :=
  split_Ol ++ ["9.531319E-01"; "-0."; "0."; "4.609830E-03"; "3.500994E-04"].

(** Two lines of a spatial table: the misread exponent in a cell of its
    own, and in the cell of its mantissa. *)
Definition text_split_Ol : string :=
  "1.510078E & Ol & 9.531319E-01 & -0. & 0. & 4.609830E-03 & 3.500994E-04 \\".
Definition text_joined_Ol : string :=
  "1.510078E Ol & 9.531319E-01 & -0. & 0. & 4.609830E-03 & 3.500994E-04 \\".

(** The fragment "-0." followed by a cell of two digits, and a line of a
    spatial table whose velocity "-0." is followed by such a cell. *)
Definition minus_zero_then_digits : list string := ["-0."; "05"].
Definition text_minus_zero_then_digits : string :=
  "7.920000E 00 & 9.353166E-01 & -0. & 12 & 0. & 4.609830E-03 & 3.500994E-04 \\".

End ReconstructTerms.

(** ** Terms of the statements on the transient regression check *)

Module TransientTerms.

Import FloatModel Transient.

(** The reference rows that pass the time filter. *)
Definition in_window (time_limit : fval) (ref_csv : list ts_row) : list ts_row :=
  filter (fun r => fleb (time_microsec r) time_limit) ref_csv.

(** The comparison of one reference row: the simulation row it is paired
    with and the four errors. *)
Definition comparison : Type := (ts_row * ts_row * (fval * fval * fval * fval))%type.

(** The comparisons [run_check] makes, row by row; [None] when
    [_closest_row] raises. *)
Definition compare_row (sim : list ts_row) (ref_row : ts_row) : option comparison :=
  do sim_row <- _closest_row sim (time_microsec ref_row);
  do e <- row_errors sim_row ref_row;
  Some (sim_row, ref_row, e).

Fixpoint compare_all (sim ref : list ts_row) : option (list comparison) :=
  match ref with
  | [] => Some []
  | ref_row :: rest =>
      do c <- compare_row sim ref_row;
      do cs <- compare_all sim rest;
      Some (c :: cs)
  end.

(** The errors of a comparison, and the line of the summary it gives. *)
Definition errors_of (c : comparison) : fval * fval * fval * fval := snd c.
Definition line_of (c : comparison) : summary_row :=
  summary_of (fst (fst c)) (snd (fst c)) (snd c).

(** Distance in time between a simulation row and a target. *)
Definition distance (target_time : fval) (r : ts_row) : fval :=
  fabs (fsub (time_microsec r) target_time).

(** A reference row with a zero in one of the four compared columns. *)
Definition has_zero_reference (r : ts_row) : bool :=
  feqb (QP_1e12_erg r) (Fin 0) || feqb (power_relative r) (Fin 0)
  || feqb (alpha_1_microsec r) (Fin 0) || feqb (W_dimensionless r) (Fin 0).

(** A sample simulator file: a good line, a line with a text in the power
    column and a line with no alpha entry. *)
Definition sample_csv : list raw_row :=
  [ {| raw_time := Text "0.0"; raw_QP := Text "3484.515"; raw_power := Text "1.0";
       raw_alpha := Text "0.013084"; raw_W := Text "0.5" |};
    {| raw_time := Text "2.0"; raw_QP := Text "3484.6"; raw_power := Text "n/a";
       raw_alpha := Text "0.0131"; raw_W := Text "0.5" |};
    {| raw_time := Text "4.0"; raw_QP := Text "3484.7"; raw_power := Text "1.1";
       raw_alpha := Missing; raw_W := Text "0.5" |} ].

(** A reference file whose only row has a zero in the power column. *)
Definition zero_power_ref : list ts_row :=
  [ {| time_microsec := Fin 0; QP_1e12_erg := Fin 3484.515; power_relative := Fin 0;
       alpha_1_microsec := Fin 0.013084; W_dimensionless := Fin 0.5 |} ].

End TransientTerms.

(** ** Terms of the statements on verdicts *)

Module VerdictTerms.

Import FloatModel Transient TransientTerms ValidateSim.

(** The four error columns of a run. *)
Definition err_qp (c : comparison) : fval := fst (fst (fst (errors_of c))).
Definition err_power (c : comparison) : fval := snd (fst (fst (errors_of c))).
Definition err_alpha (c : comparison) : fval := snd (fst (errors_of c)).
Definition err_w (c : comparison) : fval := snd (errors_of c).

(** The line [validate_time_evolution] prints for one quantity. *)
Definition line_for (df_results : list result_row) (q : quantity) : summary_line :=
  let '(nm, col, threshold) := q in
  {| name := nm;
     mean_err := series_mean (map col df_results);
     max_err := series_max (map col df_results);
     assessment := assess (series_max (map col df_results)) threshold |}.

(** The largest error of each quantity of [validate_time_evolution]. *)
Definition max_qp (df : list ValidateSim.result_row) : fval :=
  ValidateSim.series_max (map ValidateSim.qp_error df).
Definition max_power (df : list ValidateSim.result_row) : fval :=
  ValidateSim.series_max (map ValidateSim.power_error df).
Definition max_alpha (df : list ValidateSim.result_row) : fval :=
  ValidateSim.series_max (map ValidateSim.alpha_error df).

(** Inputs on which an error reaches its threshold and the verdict is a
    pass: a QP error of exactly the tolerance 0.5 in the regression check,
    and a QP error of 3 per cent against the threshold of 2 per cent in the
    time-evolution validation. *)
Definition sim_at_tolerance : list Transient.raw_row :=
  [ {| Transient.raw_time := Transient.Text "0.0"; Transient.raw_QP := Transient.Text "3.0";
       Transient.raw_power := Transient.Text "1.0"; Transient.raw_alpha := Transient.Text "1.0";
       Transient.raw_W := Transient.Text "1.0" |} ].

Definition ref_at_tolerance : list Transient.ts_row :=
  [ {| Transient.time_microsec := Fin 0; Transient.QP_1e12_erg := Fin 2;
       Transient.power_relative := Fin 1; Transient.alpha_1_microsec := Fin 1;
       Transient.W_dimensionless := Fin 1 |} ].

Definition ref_three_percent : list ValidateSim.te_row :=
  [ {| ValidateSim.time_microsec := Fin 0; ValidateSim.QP_1e12_erg := Fin 100;
       ValidateSim.power_relative := Fin 1; ValidateSim.alpha_1_microsec := Fin 1 |} ].

Definition sim_three_percent : list ValidateSim.te_row :=
  [ {| ValidateSim.time_microsec := Fin 0; ValidateSim.QP_1e12_erg := Fin 103;
       ValidateSim.power_relative := Fin 1; ValidateSim.alpha_1_microsec := Fin 1 |} ].

End VerdictTerms.

(** ** Terms of the statements on nearest-match alignment *)

Module AlignmentTerms.

Import FloatModel ValidateSim.

(** Distance in time between a simulation row and a reference time. *)
Definition gap (t_ref : fval) (r : te_row) : fval :=
  fabs (fsub (time_microsec r) t_ref).

Definition finite_times (rows : list te_row) : Prop :=
  forall r, In r rows -> isfinite (time_microsec r) = true.

(** The row [match_row] looks at: the nearest simulation row. *)
Definition nearest (sim_data : list te_row) (t_ref : fval) : option te_row :=
  do i <- argsort_first (map (gap t_ref) sim_data);
  nth_error sim_data i.

(** The example of the design document: reference times 0, 132 and 300,
    simulation times 0.05, 131.9 and 500.  The QP column numbers the
    simulation rows, so that a summary line shows which row was chosen. *)
Definition te (t qp : Q) : ValidateSim.te_row :=
  {| ValidateSim.time_microsec := Fin t; ValidateSim.QP_1e12_erg := Fin qp;
     ValidateSim.power_relative := Fin 1; ValidateSim.alpha_1_microsec := Fin 1 |}.

Definition ref_example : list ValidateSim.te_row := [te 0 1; te 132 2; te 300 3].
Definition sim_example : list ValidateSim.te_row := [te 0.05 1; te 131.9 2; te 500 3].

Definition ts (t qp : Q) : Transient.ts_row :=
  {| Transient.time_microsec := Fin t; Transient.QP_1e12_erg := Fin qp;
     Transient.power_relative := Fin 1; Transient.alpha_1_microsec := Fin 1;
     Transient.W_dimensionless := Fin 1 |}.

Definition raw (t qp : string) : Transient.raw_row :=
  {| Transient.raw_time := Transient.Text t; Transient.raw_QP := Transient.Text qp;
     Transient.raw_power := Transient.Text "1.0"; Transient.raw_alpha := Transient.Text "1.0";
     Transient.raw_W := Transient.Text "1.0" |}.

Definition ref_csv_example : list Transient.ts_row := [ts 0 1; ts 132 2; ts 300 3].
Definition sim_csv_example : list Transient.raw_row :=
  [raw "0.05" "1.0"; raw "131.9" "2.0"; raw "500.0" "3.0"].

End AlignmentTerms.

(** ** Terms of the statements on duplicate removal *)

Module DedupTerms.

Import ExtractTables.
Local Open Scope Q_scope.

(** The key a row is filed under. *)
Definition rkey (r : row) : Q := round6 (key r).

Definition ascending (l : list row) : Prop :=
  StronglySorted (fun a b => key a < key b) l.

Definition nondecreasing (l : list row) : Prop :=
  StronglySorted (fun a b => key a <= key b) l.

(** Three rows in descending order of time, the first one given twice
    with different values. *)
Definition sample_rows : list row :=
  [ [240; 5194.141; 1; 0; 2; 0]; [132; 4000; 1; 0; 2; 0];
    [240; 9999; 1; 0; 2; 0]; [0; 3484.515; 1; 0; 2; 0] ].

End DedupTerms.

(** ** Terms of the statements on error metrics *)

Module MetricsTerms.

Import FloatModel ValidateSim ValidationAnalysis.

(** The record [calculate_errors] gives when no sample is above the floor. *)
Definition nothing_to_compare : error_metrics :=
  {| mean_relative_error := NaN; max_relative_error := NaN; rms_error := NaN;
     max_absolute_error := NaN; mean_reference := Fin 0; mean_simulation := Fin 0 |}.

(** The record [calculate_metrics] gives when no sample is left. *)
Definition no_points : metrics :=
  {| max_abs_error := NaN; max_rel_error := NaN; ValidateSim.rms_error := NaN;
     mean_rel_error := NaN; points_compared := 0 |}.

Definition usable (p : fval * fval) : bool :=
  let '(r, s) := p in isfinite r && isfinite s && fneb r (Fin 0).

(** The example of the design document, with a fourth sample whose
    reference value is zero. *)
Definition ref_sample : list fval := [Fin 10; Fin 20; Fin 30; Fin 0].
Definition sim_sample : list fval := [Fin 11; Fin 19; Fin 33; Fin 5].

End MetricsTerms.

(** ** Terms of the statements on the common grid *)

Module GridTerms.

Import FloatModel ValidationAnalysis.
Local Open Scope Q_scope.

(** The [i]-th point of the grid, as [linspace] computes it. *)
Definition grid_point (start stop : Q) (num i : nat) : Q :=
  if (i =? num - 1)%nat then stop
  else Qnat i * ((stop - start) / Qnat (num - 1)) + start.

(** The value at [x] of the line through two samples. *)
Definition line_through (lo hi : Q * Q) (x : Q) : Q :=
  (snd hi - snd lo) / (fst hi - fst lo) * (x - fst lo) + snd lo.

(** Every column of a frame is as long as its key column. *)
Definition well_formed (f : frame) : Prop :=
  Forall (fun c => List.length (snd c) = List.length (index f)) (columns f).

(** A column interpolated onto the grid. *)
Definition on_grid (x : list Q) (grid : list Q) (c : string * list Q)
  : string * list fval :=
  (fst c, map (call_linear (sort_samples (combine x (snd c)))) grid).

(** Two frames whose key ranges touch in one point. *)
Definition ref_touching : frame :=
  {| index := [0; 1]; columns := [("QP_1e12_erg"%string, [10; 20])];
     other_columns := [] |}.
Definition sim_touching : frame :=
  {| index := [1; 2]; columns := [("QP_1e12_erg"%string, [21; 30])];
     other_columns := [] |}.

(** Two frames whose key ranges overlap on [1, 3]. *)
Definition ref_overlap : frame :=
  {| index := [0; 1; 3]; columns := [("QP_1e12_erg"%string, [10; 20; 40])];
     other_columns := ["note"%string] |}.
Definition sim_overlap : frame :=
  {| index := [1; 2; 4]; columns := [("QP_1e12_erg"%string, [21; 30; 50]);
                                     ("extra"%string, [0; 0; 0])];
     other_columns := [] |}.

End GridTerms.

(** ** Sample input of the statements on the fragment loops *)

Module FragmentTerms.

Local Open Scope string_scope.

(** The cells of a line of a spatial table: seven numbers, the first
    with its exponent in a cell of its own. *)
Definition spatial_cells : list string :=
  ["7.920000E"; "00"; "9.353166E-01"; "0."; "0."; "4.609830E-03"; "3.500994E-04"; "1.0"].

End FragmentTerms.

(** ** Terms of the statements on table blocks *)

Module BlockTerms.

Import PyStr TableBlocks.
Local Open Scope string_scope.

(** A block that is a table environment of the document: it starts on a
    line that opens a [tabular] near a mention of Geneve 10, and ends just
    after a later line that closes one. *)
Definition well_placed (lines : list string) (b : block) : Prop :=
  exists s,
    fst b = Some s
    /\ (s + 1 < snd b)%nat /\ (snd b <= List.length lines)%nat
    /\ contains "\begin{tabular}" (nth s lines "") = true
    /\ geneve10_context lines s = true
    /\ contains "\end{tabular}" (nth (snd b - 1) lines "") = true.

(** The second block starts where the first one has ended, or later. *)
Definition apart (b1 b2 : block) : Prop := (snd b1 <= first_line (fst b2))%nat.

(** What holds after the first [i] lines have been scanned. *)
Definition scanned (lines : list string) (i : nat) (st : scan_state) : Prop :=
  Forall (fun b => well_placed lines b /\ (snd b <= i)%nat) (table_blocks st)
  /\ StronglySorted apart (table_blocks st)
  /\ (in_table st = true ->
      exists s,
        table_start st = Some s /\ (s < i)%nat
        /\ contains "\begin{tabular}" (nth s lines "") = true
        /\ geneve10_context lines s = true
        /\ Forall (fun b => (snd b <= s)%nat) (table_blocks st)).

(** A short document with one table of the time series. *)
Definition sample_document : list string :=
  [ "GENEVE 10 RERUN MARCH 20, 1959";
    "\begin{tabular}{|l|l|l|l|l|l|}";
    "\hline";
    "TIME & QP & POWER & ALPHA & DELT & W \\";
    ReconstructTerms.text_240;
    "\end{tabular}";
    "2 & .400000E & 02 & 9.999999E & 03 & 1.000000E & 00 & 1.308400E-02 & 2.000000E & 00 & 0. \\" ].

End BlockTerms.

(** ** Terms of the statements on the line loops of the extraction *)

Module ExtractLinesTerms.

Import PyStr.
Local Open Scope string_scope.

(** A line of the time table with one cell per column. *)
Definition six_cells : list string :=
  ["2.000000E+00"; "3.484515E+03"; "1.026513E+00"; "1.306381E-02"; "2.000000E+00";
   "1.717759E-02"].

(** [c in s] for a character. *)
Fixpoint has_char (c : ascii) (s : string) : bool :=
  match s with
  | EmptyString => false
  | String a s' => Ascii.eqb a c || has_char c s'
  end.

End ExtractLinesTerms.

(** ** Sample input of the statements on the choice of a row *)

Module RegressionTerms.

Import FloatModel Transient AlignmentTerms.

(** Two simulation rows equally far from the time 2. *)
Definition sim_tie : list Transient.ts_row := [ts 1 10; ts 3 20].

End RegressionTerms.

(** ** Terms of the statements on compared samples *)

Module SampleTerms.

Import FloatModel ValidateSim.

(** The absolute and the relative error of a pair (reference value,
    simulation value), as [calculate_metrics] computes them. *)
Definition abs_of (p : fval * fval) : fval := fabs (fsub (snd p) (fst p)).
Definition rel_of (p : fval * fval) : fval := fdiv (abs_of p) (fabs (fst p)).

(** A value that is the number zero. *)
Definition is_zero (a : fval) : Prop := feq a (Fin 0).

(** A reference row with no power, and a simulation row far from it in
    power. *)
Definition ref_no_power : list te_row :=
  [ {| time_microsec := Fin 0; QP_1e12_erg := Fin 100;
       power_relative := Fin 0; alpha_1_microsec := Fin 1 |} ].
Definition sim_high_power : list te_row :=
  [ {| time_microsec := Fin 0; QP_1e12_erg := Fin 100;
       power_relative := Fin 1000; alpha_1_microsec := Fin 1 |} ].

End SampleTerms.

(** ** Terms of the statements on the spatial validation *)

Module SpatialTerms.

Import FloatModel ValidateSim SpatialValidation.
Local Open Scope string_scope.

(** The line the loop prints for a quantity. *)
Definition line_of (merged : merged_frame) (q : quantity) : string * report :=
  (fst (fst q), report_of merged q).

(** A merged frame of two zones whose first zone is already in the
    blanket (density above 10). *)
Definition blanket_first : merged_frame :=
  {| zone_index := [26%Z; 27%Z];
     columns := [ ("density_g_cm3_ref", [Fin 15.83; Fin 15.83]);
                  ("density_g_cm3_sim", [Fin 15.83; Fin 15.83]);
                  ("radius_cm_ref", [Fin 24.3; Fin 25.2]);
                  ("radius_cm_sim", [Fin 24.3; Fin 25.2]) ] |}.

(** A merged frame of two core zones, with the density 5 per cent off in
    the second one. *)
Definition density_off : merged_frame :=
  {| zone_index := [2%Z; 3%Z];
     columns := [ ("density_g_cm3_ref", [Fin 8; Fin 8]);
                  ("density_g_cm3_sim", [Fin 8; Fin 8.4]);
                  ("radius_cm_ref", [Fin 1; Fin 2]);
                  ("radius_cm_sim", [Fin 1; Fin 2]) ] |}.

End SpatialTerms.

(** ** Terms of the statements on the comparison steps *)

Module ResultsTerms.

Import FloatModel ValidationAnalysis ResultsMain.
Local Open Scope string_scope.

(** A reference frame whose power column is zero at every time, and a
    simulation frame with a power of its own. *)
Definition ref_at_rest : frame :=
  {| index := [0%Q; 1%Q; 2%Q];
     columns := [("QP_1e12_erg", [10%Q; 20%Q; 30%Q]); ("power_relative", [0%Q; 0%Q; 0%Q])];
     other_columns := [] |}.
Definition sim_running : frame :=
  {| index := [0%Q; 1%Q; 2%Q];
     columns := [("QP_1e12_erg", [10%Q; 20%Q; 30%Q]); ("power_relative", [1%Q; 2%Q; 3%Q])];
     other_columns := [] |}.

End ResultsTerms.

(* ================================================================== *)
(** * Properties *)
(* ================================================================== *)

(** ** Reconstruction of numbers from fragments *)

Module ReconstructFacts.

Import ReconstructTerms.
Import FloatModel PyStr ParseLatex.
Local Open Scope string_scope.

Lemma strip_minus_zero : strip "-0." = "-0.".
Proof. reflexivity. Qed.

Lemma clean_minus_zero : clean_latex_number "-0." = "0.0".
Proof. reflexivity. Qed.

(** C4: the three fragments "2", ".400000E", "02" are consumed together
    (the offset moves from 0 to 3, whatever follows them), they are
    rebuilt as the single text "2.400000E+02", and that text is read as
    exactly 240; at the head of a full line they give the line's time, in
    the fragment loop and in the table parser. *)
Theorem C4_three_fragments_give_240 :
  reconstruct_time split_240 = (3%nat, ["2.400000E+02"])
  /\ floats (snd (reconstruct_time split_240)) = Some [Fin 240]
  /\ (forall rest,
         time_step (split_240 ++ rest) 0 = (Some "2.400000E+02", 3%nat))
  /\ time_series_row line_240
     = Some [Fin 240; Fin 5194.141; Fin 1; Fin (3271 # 250000); Fin 2; Fin 0]
  /\ parse_time_series_table [text_240] 0 1
     = [[Fin 240; Fin 5194.141; Fin 1; Fin (3271 # 250000); Fin 2; Fin 0]].
Proof.
  split; [reflexivity|].
  split; [reflexivity|].
  split; [intros rest; reflexivity|].
  split; vm_compute; reflexivity.
Qed.

(** C7 fails as stated: split over two cells, "1.510078E" and "Ol" are not
    joined; the mantissa alone is handed to [float], which raises, so
    neither table parser gets a value out of them. *)
Lemma C7_split_Ol_is_not_rebuilt :
  snd (reconstruct_time split_Ol) = ["1.510078E"; "Ol"]
  /\ floats (snd (reconstruct_time split_Ol)) = None
  /\ reconstruct_spatial split_Ol = None
  /\ ~ (exists k, reconstruct_spatial split_Ol = Some (k, [Fin 15.10078]))
  /\ floats (snd (reconstruct_time split_Ol)) <> Some [Fin 15.10078]
  /\ spatial_row line_split_Ol = None
  /\ time_series_row line_split_Ol = None
  /\ parse_spatial_table [text_split_Ol] 0 1 = []
  /\ parse_time_series_table [text_split_Ol] 0 1 = [].
Proof.
  split; [reflexivity|].
  split; [reflexivity|].
  split; [reflexivity|].
  split; [intros [k H]; vm_compute in H; discriminate H|].
  split; [vm_compute; discriminate|].
  split; [reflexivity|].
  split; [reflexivity|].
  split; reflexivity.
Qed.

(** C7, amended: when mantissa and misread exponent stand in one cell,
    "1.510078E Ol", the cleaning step rewrites the cell to "1.510078E+01",
    which is read as 15.10078; both fragment loops take the cell as one
    number, and the spatial table parser gives the line's first value as
    15.10078. *)
Theorem C7_joined_Ol_gives_15_10078 :
  clean_latex_number joined_Ol = "1.510078E+01"
  /\ float (clean_latex_number joined_Ol) = Some (Fin (755039 # 50000))
  /\ (755039 # 50000 == 15.10078)%Q
  /\ time_step [joined_Ol] 0 = (Some "1.510078E+01", 1%nat)
  /\ spatial_step [joined_Ol] 0 = ("1.510078E+01", 1%nat)
  /\ reconstruct_spatial [joined_Ol] = Some (1%nat, [Fin (755039 # 50000)])
  /\ map (fun row => hd NaN row) (parse_spatial_table [text_joined_Ol] 0 1)
     = [Fin (755039 # 50000)].
Proof.
  split; [reflexivity|].
  split; [reflexivity|].
  split; [reflexivity|].
  split; [reflexivity|].
  split; [reflexivity|].
  split; reflexivity.
Qed.

Lemma time_step_minus_zero (parts : list string) (i : nat) :
  strip (get parts i) = "-0." -> time_step parts i = (Some "0.0", S i).
Proof.
  intros H. unfold time_step. rewrite H. cbn.
  rewrite Nat.add_1_r. reflexivity.
Qed.

Lemma clean_stripped_minus_zero (s : string) :
  strip s = "-0." -> clean_latex_number s = "0.0".
Proof.
  intros H. unfold clean_latex_number. rewrite H. reflexivity.
Qed.

Lemma spatial_step_minus_zero (parts : list string) (i : nat) :
  strip (get parts i) = "-0." -> next_is_exponent parts i = false ->
  spatial_step parts i = ("0.0", S i).
Proof.
  intros H Hn. unfold spatial_step.
  rewrite Hn, (clean_stripped_minus_zero _ H), Nat.add_1_r. reflexivity.
Qed.

Lemma digit_not_space (c : ascii) : is_digit c = true -> is_space c = false.
Proof.
  unfold is_digit, is_space. intros H.
  apply andb_true_iff in H. destruct H as [H1 H2].
  apply Nat.leb_le in H1, H2.
  apply orb_false_iff. split; apply andb_false_iff.
  - right. apply Nat.leb_gt. lia.
  - right. apply Nat.leb_gt. lia.
Qed.

(** A zero followed by a two-digit group is still a number. *)
Lemma float_zero_with_digits (t : string) :
  is_two_digits t = true -> exists q, float ("0.0" ++ t) = Some (Fin q).
Proof.
  destruct t as [|a [|b rest]]; intros H; simpl in H; try discriminate.
  apply andb_true_iff in H. destruct H as [H Hrest].
  apply andb_true_iff in H. destruct H as [Ha Hb].
  pose proof (digit_not_space a Ha) as Sa. pose proof (digit_not_space b Hb) as Sb.
  assert (strip ("0.0" ++ String a (String b rest)) = "0.0" ++ String a (String b ""))
    as Hs.
  { apply orb_true_iff in Hrest. destruct Hrest as [Hr|Hr];
      apply String.eqb_eq in Hr; subst rest; unfold strip; simpl;
      rewrite ?Sa, ?Sb; reflexivity. }
  unfold float. rewrite Hs. simpl. unfold parse_unsigned. simpl.
  rewrite Ha. simpl. rewrite Hb. simpl. eexists. reflexivity.
Qed.

Lemma spatial_step_minus_zero_parses (parts : list string) (i : nat) :
  strip (get parts i) = "-0." ->
  exists q, float (fst (spatial_step parts i)) = Some (Fin q).
Proof.
  intros H. unfold spatial_step.
  assert (clean_latex_number (get parts i) = "0.0") as ->.
  { unfold clean_latex_number. rewrite H. reflexivity. }
  destruct (next_is_exponent parts i) eqn:E.
  - unfold next_is_exponent in E. apply andb_true_iff in E. destruct E as [_ E].
    cbn [fst]. apply float_zero_with_digits. exact E.
  - exists 0%Q. reflexivity.
Qed.

Lemma spatial_step_glues_digits (parts : list string) (i : nat) :
  strip (get parts i) = "-0." -> next_is_exponent parts i = true ->
  spatial_step parts i = ("0.0" ++ strip (get parts (i + 1)), S (S i)).
Proof.
  intros H Hn. unfold spatial_step.
  rewrite Hn, (clean_stripped_minus_zero _ H), !Nat.add_1_r. reflexivity.
Qed.

(** C8: the cleaning step rewrites "-0." to "0.0", which is read as the
    value 0, and the fragment loop of [parse_time_series_table] hands
    exactly that to [float] at any offset of any line; the velocity column
    of the complete extraction reads 0 as well.  The fragment loop of
    [parse_spatial_table] does so only when the next cell is not a group
    of two digits: it appends such a cell to every value, not only to one
    that ends in an open exponent.  On the cells "-0.", "05" it hands
    "0.005" to [float] and consumes both cells, where the time-series loop
    reads 0 and leaves the second cell; on a table line whose velocity
    "-0." is followed by the cell "12" the row of [parse_spatial_table]
    has the velocity 3/250 = 0.012, the row of [parse_time_series_table]
    the value 0.  In no case does [float] fail on what the fragment
    gives. *)
Theorem C8_two_digits_after_minus_zero_are_appended :
  spatial_step minus_zero_then_digits 0 = ("0.005", 2%nat)
  /\ reconstruct_spatial minus_zero_then_digits = Some (2%nat, [Fin (1 # 200)])
  /\ feqb (Fin (1 # 200)) (Fin 0) = false
  /\ map (fun row => nth 2 row NaN)
         (parse_spatial_table [text_minus_zero_then_digits] 0 1) = [Fin (3 # 250)]
  /\ time_step minus_zero_then_digits 0 = (Some "0.0", 1%nat)
  /\ map (fun row => nth 2 row NaN)
         (parse_time_series_table [text_minus_zero_then_digits] 0 1) = [Fin 0]
  /\ (forall parts i,
        strip (get parts i) = "-0." ->
        clean_latex_number (get parts i) = "0.0"
        /\ time_step parts i = (Some "0.0", S i)
        /\ (next_is_exponent parts i = false ->
            spatial_step parts i = ("0.0", S i))
        /\ (next_is_exponent parts i = true ->
            spatial_step parts i = ("0.0" ++ strip (get parts (i + 1)), S (S i)))
        /\ exists q, float (fst (spatial_step parts i)) = Some (Fin q))
  /\ float "0.0" = Some (Fin 0)
  /\ ExtractComplete.velocity_value "-0." = Some (Fin 0).
Proof.
  split; [reflexivity|].
  split; [reflexivity|].
  split; [reflexivity|].
  split; [vm_compute; reflexivity|].
  split; [reflexivity|].
  split; [vm_compute; reflexivity|].
  split; [|split; reflexivity].
  intros parts i Hfrag.
  split; [apply clean_stripped_minus_zero; exact Hfrag|].
  split; [apply time_step_minus_zero; exact Hfrag|].
  split; [apply spatial_step_minus_zero; exact Hfrag|].
  split; [apply spatial_step_glues_digits; exact Hfrag|].
  apply spatial_step_minus_zero_parses. exact Hfrag.
Qed.

End ReconstructFacts.

(** ** Order and arithmetic of the float model *)

Module FloatFacts.

Import FloatModel.

Lemma Qlt_bool_iff (a b : Q) : Qlt_bool a b = true <-> (a < b)%Q.
Proof.
  unfold Qlt_bool. rewrite negb_true_iff.
  split; intros H.
  - apply Qnot_le_lt. intros Hle. apply Qle_bool_iff in Hle. congruence.
  - destruct (Qle_bool b a) eqn:E; [|reflexivity].
    apply Qle_bool_iff in E. exfalso. apply (Qlt_not_le _ _ H E).
Qed.

Lemma Qlt_bool_false_iff (a b : Q) : Qlt_bool a b = false <-> (b <= a)%Q.
Proof.
  unfold Qlt_bool. rewrite negb_false_iff. apply Qle_bool_iff.
Qed.

Lemma fltb_negb_fleb (a b : fval) :
  isnan a = false -> isnan b = false -> fltb a b = negb (fleb b a).
Proof.
  destruct a, b; simpl; intros; try reflexivity; try discriminate.
Qed.

Lemma fleb_refl (a : fval) : isnan a = false -> fleb a a = true.
Proof.
  destruct a; simpl; intros; try reflexivity; try discriminate.
  apply Qle_bool_iff. apply Qle_refl.
Qed.

Lemma fleb_trans (a b c : fval) :
  fleb a b = true -> fleb b c = true -> fleb a c = true.
Proof.
  destruct a, b, c; simpl; intros H1 H2; try reflexivity; try discriminate.
  apply Qle_bool_iff. apply Qle_bool_iff in H1, H2. eapply Qle_trans; eauto.
Qed.

Lemma fleb_total (a b : fval) :
  isnan a = false -> isnan b = false -> fleb a b = true \/ fleb b a = true.
Proof.
  destruct a, b; simpl; intros; try discriminate; auto.
  destruct (Qlt_le_dec q q0) as [H1|H1].
  - left. apply Qle_bool_iff. apply Qlt_le_weak. exact H1.
  - right. apply Qle_bool_iff. exact H1.
Qed.

Lemma fleb_not_nan (a b : fval) :
  fleb a b = true -> isnan a = false /\ isnan b = false.
Proof. destruct a, b; simpl; intros; try discriminate; auto. Qed.

Lemma fltb_not_nan (a b : fval) :
  fltb a b = true -> isnan a = false /\ isnan b = false.
Proof. destruct a, b; simpl; intros; try discriminate; auto. Qed.

Lemma fltb_fleb (a b : fval) : fltb a b = true -> fleb a b = true.
Proof.
  destruct a, b; simpl; intros H; try discriminate; auto.
  apply Qlt_bool_iff in H. apply Qle_bool_iff. apply Qlt_le_weak. exact H.
Qed.

Lemma fleb_fltb_trans (a b c : fval) :
  fleb a b = true -> fltb b c = true -> fltb a c = true.
Proof.
  destruct a, b, c; simpl; intros H1 H2; try reflexivity; try discriminate.
  apply Qlt_bool_iff. apply Qle_bool_iff in H1. apply Qlt_bool_iff in H2.
  eapply Qle_lt_trans; eauto.
Qed.

Lemma fltb_fleb_trans (a b c : fval) :
  fltb a b = true -> fleb b c = true -> fltb a c = true.
Proof.
  destruct a, b, c; simpl; intros H1 H2; try reflexivity; try discriminate.
  apply Qlt_bool_iff. apply Qle_bool_iff in H2. apply Qlt_bool_iff in H1.
  eapply Qlt_le_trans; eauto.
Qed.

Lemma fabs_not_nan (a : fval) : isnan (fabs a) = isnan a.
Proof. destruct a; reflexivity. Qed.

Lemma fabs_zero (a : fval) : feqb (fabs a) (Fin 0) = feqb a (Fin 0).
Proof.
  destruct a; simpl; try reflexivity.
  destruct (Qeq_bool q 0) eqn:E.
  - apply Qeq_bool_iff in E. apply Qeq_bool_iff. rewrite E. reflexivity.
  - destruct (Qeq_bool (Qabs q) 0) eqn:E2; [|reflexivity].
    apply Qeq_bool_iff in E2.
    assert (q == 0)%Q as Hq.
    { revert E2. apply Qabs_case; intros; lra. }
    apply Qeq_bool_iff in Hq. congruence.
Qed.

Lemma inf_exceeds_finite (t : Q) : fgtb PInf (Fin t) = true.
Proof. reflexivity. Qed.

End FloatFacts.

(** ** The transient regression check *)

Module TransientFacts.

Import TransientTerms.
Import FloatModel FloatFacts Transient.

Lemma percentage_error_total (s r : fval) :
  exists e, _percentage_error s r = Some e.
Proof.
  unfold _percentage_error, py_div.
  destruct (feqb r (Fin 0)) eqn:E; [eexists; reflexivity|].
  rewrite fabs_zero, E. eexists; reflexivity.
Qed.

Lemma percentage_error_zero (s r : fval) :
  feqb r (Fin 0) = true -> _percentage_error s r = Some PInf.
Proof. intros H. unfold _percentage_error. rewrite H. reflexivity. Qed.

Lemma row_errors_total (sim_row ref_row : ts_row) :
  exists e, row_errors sim_row ref_row = Some e.
Proof.
  unfold row_errors.
  destruct (percentage_error_total (QP_1e12_erg sim_row) (QP_1e12_erg ref_row)) as [e1 ->].
  destruct (percentage_error_total (power_relative sim_row) (power_relative ref_row)) as [e2 ->].
  destruct (percentage_error_total (alpha_1_microsec sim_row) (alpha_1_microsec ref_row)) as [e3 ->].
  destruct (percentage_error_total (W_dimensionless sim_row) (W_dimensionless ref_row)) as [e4 ->].
  eexists; reflexivity.
Qed.

Lemma idxmin_bound (l : list fval) (j : nat) :
  idxmin l = Some j -> (j < List.length l)%nat /\ isnan (nth j l NaN) = false.
Proof.
  revert j. induction l as [|d l IH]; intros j H; simpl in H; [discriminate|].
  destruct (idxmin l) as [k|] eqn:Ek.
  - destruct (IH k eq_refl) as [Hk Hn].
    destruct (isnan d) eqn:Ed.
    + injection H as <-. simpl. split; [lia|exact Hn].
    + destruct (fleb d (nth k l NaN)); injection H as <-; simpl.
      * split; [lia|exact Ed].
      * split; [lia|exact Hn].
  - destruct (isnan d) eqn:Ed; [discriminate|].
    injection H as <-. simpl. split; [lia|exact Ed].
Qed.

Lemma idxmin_none (l : list fval) :
  idxmin l = None -> forall d, In d l -> isnan d = true.
Proof.
  induction l as [|d l IH]; intros H x Hx; simpl in *; [contradiction|].
  destruct (idxmin l) as [k|] eqn:Ek.
  - destruct (isnan d); [discriminate|].
    destruct (fleb d (nth k l NaN)); discriminate.
  - destruct (isnan d) eqn:Ed; [|discriminate].
    destruct Hx as [<-|Hx]; [exact Ed|]. apply IH; auto.
Qed.

(** The position [idxmin] returns holds a least value. *)
Lemma idxmin_least (l : list fval) (j : nat) :
  idxmin l = Some j ->
  forall d, In d l -> isnan d = false -> fleb (nth j l NaN) d = true.
Proof.
  revert j. induction l as [|d l IH]; intros j H x Hx Hnx; simpl in H; [discriminate|].
  destruct (idxmin l) as [k|] eqn:Ek.
  - destruct (idxmin_bound _ Ek) as [Hk Hn].
    destruct (isnan d) eqn:Ed.
    + injection H as <-. simpl.
      destruct Hx as [<-|Hx]; [congruence|]. apply (IH k eq_refl); auto.
    + destruct (fleb d (nth k l NaN)) eqn:El; injection H as <-; simpl.
      * destruct Hx as [<-|Hx]; [apply fleb_refl; exact Ed|].
        eapply fleb_trans; [exact El|]. apply (IH k eq_refl); auto.
      * destruct Hx as [<-|Hx]; [|apply (IH k eq_refl); auto].
        destruct (fleb_total _ _ Hn Ed) as [Hl|Hl]; [exact Hl|congruence].
  - destruct (isnan d) eqn:Ed; [discriminate|].
    injection H as <-. simpl.
    destruct Hx as [<-|Hx]; [apply fleb_refl; exact Ed|].
    rewrite (idxmin_none _ Ek _ Hx) in Hnx. discriminate.
Qed.

(** Every earlier position holds a strictly greater value (or NaN). *)
Lemma idxmin_first (l : list fval) (j : nat) :
  idxmin l = Some j ->
  forall k, (k < j)%nat -> fleb (nth k l NaN) (nth j l NaN) = false.
Proof.
  revert j. induction l as [|d l IH]; intros j H k Hk; simpl in H; [discriminate|].
  destruct (idxmin l) as [m|] eqn:Em.
  - destruct (isnan d) eqn:Ed.
    + injection H as <-. destruct k as [|k]; simpl.
      * destruct d; try discriminate. reflexivity.
      * apply (IH m eq_refl). lia.
    + destruct (fleb d (nth m l NaN)) eqn:El; injection H as <-; [lia|].
      destruct k as [|k]; simpl; [exact El|]. apply (IH m eq_refl). lia.
  - destruct (isnan d); [discriminate|]. injection H as <-. lia.
Qed.

Lemma check_rows_spec (qt pt at_ wt : fval) (sim ref : list ts_row) :
  forall rows passed,
    check_rows qt pt at_ wt sim ref rows passed =
    do cs <- compare_all sim ref;
    Some (passed && forallb (fun c => negb (out_of_tolerance qt pt at_ wt (errors_of c))) cs,
          rows ++ map line_of cs).
Proof.
  induction ref as [|ref_row rest IH]; intros rows passed; simpl.
  - rewrite andb_true_r, app_nil_r. reflexivity.
  - unfold check_row, compare_row.
    destruct (_closest_row sim (time_microsec ref_row)) as [sim_row|]; [|reflexivity].
    destruct (row_errors sim_row ref_row) as [e|]; [|reflexivity].
    rewrite IH. destruct (compare_all sim rest) as [cs|]; [|reflexivity].
    simpl. unfold errors_of at 2, line_of at 2. simpl.
    rewrite <- app_assoc. simpl.
    destruct (out_of_tolerance qt pt at_ wt e); simpl.
    + rewrite andb_false_r. reflexivity.
    + reflexivity.
Qed.

Lemma run_check_spec (tl qt pt at_ wt : fval) (parse : string -> option fval)
      (sim_csv : list raw_row) (ref_csv : list ts_row) :
  run_check tl qt pt at_ wt parse sim_csv ref_csv =
  do cs <- compare_all (load_sim parse sim_csv) (in_window tl ref_csv);
  Some (forallb (fun c => negb (out_of_tolerance qt pt at_ wt (errors_of c))) cs,
        map line_of cs).
Proof. unfold run_check. rewrite check_rows_spec. reflexivity. Qed.

Lemma compare_all_some (sim ref : list ts_row) :
  (forall r, In r ref -> exists row, _closest_row sim (time_microsec r) = Some row) ->
  exists cs, compare_all sim ref = Some cs.
Proof.
  induction ref as [|r rest IH]; intros H; simpl; [eexists; reflexivity|].
  unfold compare_row.
  destruct (H r (or_introl eq_refl)) as [row ->].
  destruct (row_errors_total row r) as [e ->].
  destruct IH as [cs ->]; [intros; apply H; right; assumption|].
  eexists; reflexivity.
Qed.

(** What a successful run compared: one entry per reference row, in order,
    each with the row [_closest_row] chose and the errors computed on it. *)
Lemma compare_all_rows (sim ref : list ts_row) (cs : list comparison) :
  compare_all sim ref = Some cs ->
  map (fun c => snd (fst c)) cs = ref
  /\ Forall (fun c =>
               _closest_row sim (time_microsec (snd (fst c))) = Some (fst (fst c))
               /\ row_errors (fst (fst c)) (snd (fst c)) = Some (snd c)) cs.
Proof.
  revert cs. induction ref as [|r rest IH]; intros cs H; simpl in H.
  - injection H as <-. split; [reflexivity|constructor].
  - unfold compare_row in H.
    destruct (_closest_row sim (time_microsec r)) as [row|] eqn:Ec; [|discriminate].
    destruct (row_errors row r) as [e|] eqn:Ee; [|discriminate].
    destruct (compare_all sim rest) as [cs'|]; [|discriminate].
    injection H as <-. destruct (IH cs' eq_refl) as [Hm Hf].
    split; [simpl; f_equal; exact Hm|].
    constructor; [simpl; auto|exact Hf].
Qed.

Lemma distance_not_nan (t : fval) (r : ts_row) :
  isfinite t = true -> isnan (time_microsec r) = false -> isnan (distance t r) = false.
Proof.
  unfold distance. destruct t; try discriminate.
  destruct (time_microsec r); simpl; intros; try reflexivity; discriminate.
Qed.

Lemma closest_row_spec (sim : list ts_row) (t : fval) (row : ts_row) :
  _closest_row sim t = Some row ->
  In row sim
  /\ isnan (distance t row) = false
  /\ forall s, In s sim -> isnan (distance t s) = false ->
               fleb (distance t row) (distance t s) = true.
Proof.
  unfold _closest_row. fold (distance t).
  destruct (idxmin (map (distance t) sim)) as [j|] eqn:Ej; [|discriminate].
  intros Hn.
  assert (nth j (map (distance t) sim) NaN = distance t row) as Hj.
  { apply nth_error_nth. apply map_nth_error. exact Hn. }
  split; [eapply nth_error_In; exact Hn|].
  split.
  - rewrite <- Hj. apply (idxmin_bound _ Ej).
  - intros s Hs Hd. rewrite <- Hj. apply (idxmin_least _ Ej); [|exact Hd].
    apply in_map. exact Hs.
Qed.

Lemma closest_row_exists (sim : list ts_row) (t : fval) :
  sim <> [] -> isfinite t = true ->
  (forall r, In r sim -> isnan (time_microsec r) = false) ->
  exists row, _closest_row sim t = Some row.
Proof.
  intros Hne Ht Hs. unfold _closest_row. fold (distance t).
  destruct (idxmin (map (distance t) sim)) as [j|] eqn:Ej.
  - destruct (idxmin_bound _ Ej) as [Hj _]. rewrite length_map in Hj.
    destruct (nth_error sim j) as [row|] eqn:En; [eexists; reflexivity|].
    apply nth_error_None in En. lia.
  - destruct sim as [|r sim]; [congruence|]. exfalso.
    pose proof (idxmin_none _ Ej (distance t r) (or_introl eq_refl)) as Hnan.
    rewrite (distance_not_nan t r Ht (Hs r (or_introl eq_refl))) in Hnan. discriminate.
Qed.

Lemma complete_fields (r : ts_row) :
  complete r = true <->
  isnan (time_microsec r) = false /\ isnan (QP_1e12_erg r) = false
  /\ isnan (power_relative r) = false /\ isnan (alpha_1_microsec r) = false
  /\ isnan (W_dimensionless r) = false.
Proof.
  unfold complete. rewrite !andb_true_iff, !negb_true_iff. tauto.
Qed.

Lemma load_sim_complete (parse : string -> option fval) (raw : list raw_row) (r : ts_row) :
  In r (load_sim parse raw) -> complete r = true.
Proof. unfold load_sim, dropna. intros H. apply filter_In in H. apply H. Qed.

Lemma load_sim_filter_map (parse : string -> option fval) (raw : list raw_row) :
  load_sim parse raw
  = map (coerce_row parse) (filter (fun r => complete (coerce_row parse r)) raw).
Proof.
  unfold load_sim, dropna. induction raw as [|r raw IH]; simpl; [reflexivity|].
  destruct (complete (coerce_row parse r)); simpl; rewrite IH; reflexivity.
Qed.

Lemma zero_reference_out_of_tolerance (qt pt at_ wt : Q) (sim_row ref_row : ts_row)
      (e : fval * fval * fval * fval) :
  row_errors sim_row ref_row = Some e ->
  has_zero_reference ref_row = true ->
  out_of_tolerance (Fin qt) (Fin pt) (Fin at_) (Fin wt) e = true.
Proof.
  unfold row_errors, has_zero_reference. intros He Hz.
  destruct (_percentage_error (QP_1e12_erg sim_row) (QP_1e12_erg ref_row)) as [e1|] eqn:E1;
    [|discriminate].
  destruct (_percentage_error (power_relative sim_row) (power_relative ref_row)) as [e2|] eqn:E2;
    [|discriminate].
  destruct (_percentage_error (alpha_1_microsec sim_row) (alpha_1_microsec ref_row)) as [e3|] eqn:E3;
    [|discriminate].
  destruct (_percentage_error (W_dimensionless sim_row) (W_dimensionless ref_row)) as [e4|] eqn:E4;
    [|discriminate].
  injection He as <-. unfold out_of_tolerance.
  rewrite !orb_true_iff in Hz. destruct Hz as [[[Hz|Hz]|Hz]|Hz].
  - rewrite (percentage_error_zero _ _ Hz) in E1. injection E1 as <-. reflexivity.
  - rewrite (percentage_error_zero _ _ Hz) in E2. injection E2 as <-.
    simpl. rewrite orb_true_r. reflexivity.
  - rewrite (percentage_error_zero _ _ Hz) in E3. injection E3 as <-.
    simpl. rewrite !orb_true_r. reflexivity.
  - rewrite (percentage_error_zero _ _ Hz) in E4. injection E4 as <-.
    simpl. rewrite !orb_true_r. reflexivity.
Qed.

Lemma forallb_false_intro (A : Type) (f : A -> bool) (l : list A) (x : A) :
  In x l -> f x = false -> forallb f l = false.
Proof.
  intros Hin Hx. destruct (forallb f l) eqn:E; [|reflexivity].
  rewrite forallb_forall in E. rewrite (E x Hin) in Hx. discriminate.
Qed.

(** C9: loading the simulator output has no failing case.  A missing entry
    and an entry that is not a number both become NaN; the frame the loop
    works on is made of exactly the lines whose five compared fields are
    numbers, in their order; and every simulation value that reaches a
    comparison comes from such a line. *)
Theorem C9_non_numeric_entries_are_coerced_and_dropped
        (parse : string -> option fval) (sim_csv : list raw_row) :
  to_numeric parse Missing = NaN
  /\ (forall s, parse s = None -> to_numeric parse (Text s) = NaN)
  /\ load_sim parse sim_csv
     = map (coerce_row parse) (filter (fun r => complete (coerce_row parse r)) sim_csv)
  /\ (forall r, In r (load_sim parse sim_csv) ->
        isnan (time_microsec r) = false /\ isnan (QP_1e12_erg r) = false
        /\ isnan (power_relative r) = false /\ isnan (alpha_1_microsec r) = false
        /\ isnan (W_dimensionless r) = false)
  /\ (forall r, In r sim_csv -> complete (coerce_row parse r) = false ->
        ~ In (coerce_row parse r) (load_sim parse sim_csv))
  /\ (forall tl qt pt at_ wt ref_csv passed rows,
        run_check tl qt pt at_ wt parse sim_csv ref_csv = Some (passed, rows) ->
        Forall (fun line =>
                  exists sim_row,
                    In sim_row (load_sim parse sim_csv) /\ complete sim_row = true
                    /\ sim_QP line = QP_1e12_erg sim_row
                    /\ sim_power line = power_relative sim_row
                    /\ sim_alpha line = alpha_1_microsec sim_row
                    /\ sim_W line = W_dimensionless sim_row) rows).
Proof.
  split; [reflexivity|].
  split; [intros s Hs; simpl; rewrite Hs; reflexivity|].
  split; [apply load_sim_filter_map|].
  split; [intros r Hr; apply complete_fields; eapply load_sim_complete; exact Hr|].
  split.
  - intros r _ Hc Hin. apply load_sim_complete in Hin. congruence.
  - intros tl qt pt at_ wt ref_csv passed rows H.
    rewrite run_check_spec in H.
    destruct (compare_all (load_sim parse sim_csv) (in_window tl ref_csv)) as [cs|] eqn:Ec;
      [|discriminate].
    injection H as _ <-.
    destruct (compare_all_rows _ _ Ec) as [_ Hf].
    apply Forall_forall. intros line Hl.
    apply in_map_iff in Hl. destruct Hl as [c [<- Hc]].
    rewrite Forall_forall in Hf. destruct (Hf c Hc) as [Hclose _].
    destruct (closest_row_spec _ _ Hclose) as [Hin _].
    exists (fst (fst c)). split; [exact Hin|].
    split; [eapply load_sim_complete; exact Hin|].
    unfold line_of. destruct c as [[sim_row ref_row] [[[e1 e2] e3] e4]]. simpl.
    repeat split.
Qed.

Lemma C9_sample_load_witness :
  load_sim PyStr.float sample_csv
  = [ {| time_microsec := Fin 0; QP_1e12_erg := Fin (696903 # 200); power_relative := Fin 1;
         alpha_1_microsec := Fin (3271 # 250000); W_dimensionless := Fin (1 # 2) |} ].
Proof.
  rewrite (proj1 (proj2 (proj2
             (C9_non_numeric_entries_are_coerced_and_dropped PyStr.float sample_csv)))).
  vm_compute. reflexivity.
Defined.

(** C10: [_percentage_error] returns a value on every pair of arguments,
    and positive infinity when the reference value is zero; so a compared
    reference row with a zero in one of its four columns makes the check
    fail, whatever finite tolerances are given. *)
Theorem C10_zero_reference_fails_every_finite_tolerance
        (parse : string -> option fval) (sim_csv : list raw_row)
        (ref_csv : list ts_row) (tl : fval) (qt pt at_ wt : Q) (ref_row : ts_row)
        (Hsim : load_sim parse sim_csv <> [])
        (Htimes : forall r, In r ref_csv -> fleb (time_microsec r) tl = true ->
                            isfinite (time_microsec r) = true)
        (Hin : In ref_row ref_csv)
        (Hwin : fleb (time_microsec ref_row) tl = true)
        (Hzero : has_zero_reference ref_row = true) :
  (forall s r, exists e, _percentage_error s r = Some e)
  /\ (forall s r, feqb r (Fin 0) = true -> _percentage_error s r = Some PInf)
  /\ (forall t, fgtb PInf (Fin t) = true)
  /\ exists rows,
      run_check tl (Fin qt) (Fin pt) (Fin at_) (Fin wt) parse sim_csv ref_csv
      = Some (false, rows).
Proof.
  split; [apply percentage_error_total|].
  split; [apply percentage_error_zero|].
  split; [reflexivity|].
  rewrite run_check_spec.
  destruct (compare_all_some (load_sim parse sim_csv) (in_window tl ref_csv)) as [cs Hcs].
  { intros r Hr. apply filter_In in Hr. destruct Hr as [Hr Ht].
    apply closest_row_exists; [exact Hsim|apply Htimes; assumption|].
    intros s Hs. apply load_sim_complete in Hs. apply complete_fields in Hs. apply Hs. }
  rewrite Hcs. eexists. f_equal. f_equal.
  destruct (compare_all_rows _ _ Hcs) as [Hm Hf].
  assert (In ref_row (map (fun c => snd (fst c)) cs)) as Hr.
  { rewrite Hm. apply filter_In. split; assumption. }
  apply in_map_iff in Hr. destruct Hr as [c [Hc Hcin]].
  apply (forallb_false_intro _ _ c Hcin).
  rewrite Forall_forall in Hf. destruct (Hf c Hcin) as [_ He].
  rewrite Hc in He. unfold errors_of.
  rewrite (zero_reference_out_of_tolerance qt pt at_ wt _ _ He Hzero). reflexivity.
Qed.

Lemma C10_zero_power_witness :
  exists rows,
    run_check (Fin 72) (Fin 0.05) (Fin 0.05) (Fin 0.10) (Fin 0.10)
              PyStr.float sample_csv zero_power_ref = Some (false, rows).
Proof.
  refine (proj2 (proj2 (proj2
    (C10_zero_reference_fails_every_finite_tolerance
       PyStr.float sample_csv zero_power_ref (Fin 72) 0.05 0.05 0.10 0.10
       (nth 0 zero_power_ref (Build_ts_row NaN NaN NaN NaN NaN)) _ _ _ _ _)))).
  - vm_compute. discriminate.
  - intros r [<-|[]] _. reflexivity.
  - left. reflexivity.
  - reflexivity.
  - reflexivity.
Defined.

End TransientFacts.

(** ** Pass/fail verdicts *)

Module VerdictFacts.

Import VerdictTerms.
Import FloatModel FloatFacts.

Lemma fmax_cases (a b : fval) :
  isnan a = false -> isnan b = false ->
  isnan (fmax a b) = false
  /\ (fmax a b = a \/ fmax a b = b)
  /\ fleb a (fmax a b) = true /\ fleb b (fmax a b) = true.
Proof.
  intros Ha Hb.
  assert (fmax a b = if fltb a b then b else a) as ->.
  { destruct a, b; try discriminate; reflexivity. }
  destruct (fltb a b) eqn:E.
  - repeat split; auto using fleb_refl, fltb_fleb.
  - repeat split; auto using fleb_refl.
    rewrite (fltb_negb_fleb _ _ Ha Hb) in E. apply negb_false_iff in E. exact E.
Qed.

Lemma fold_fmax_spec (l : list fval) :
  forall a, isnan a = false -> (forall x, In x l -> isnan x = false) ->
    let m := fold_left fmax l a in
    isnan m = false /\ In m (a :: l) /\ forall x, In x (a :: l) -> fleb x m = true.
Proof.
  induction l as [|b l IH]; intros a Ha Hl; simpl.
  - split; [exact Ha|]. split; [left; reflexivity|].
    intros x [<-|[]]. apply fleb_refl. exact Ha.
  - assert (isnan b = false) as Hb by (apply Hl; left; reflexivity).
    destruct (fmax_cases a b Ha Hb) as (Hn & Hc & Hla & Hlb).
    destruct (IH (fmax a b) Hn (fun x Hx => Hl x (or_intror Hx))) as (Hmn & Hin & Hle).
    split; [exact Hmn|]. split.
    + destruct Hin as [Hin|Hin]; [|right; right; exact Hin].
      rewrite <- Hin. destruct Hc as [Hc|Hc]; rewrite Hc; simpl; auto.
    + intros x [<-|[<-|Hx]].
      * eapply fleb_trans; [exact Hla|]. apply Hle. left. reflexivity.
      * eapply fleb_trans; [exact Hlb|]. apply Hle. left. reflexivity.
      * apply Hle. right. exact Hx.
Qed.

(** The largest value of a column, NaN skipped, is above a bound exactly
    when some entry is. *)
Lemma series_max_exceeds (l : list fval) (t : fval) :
  fgtb (ValidateSim.series_max l) t = true <-> exists e, In e l /\ fgtb e t = true.
Proof.
  unfold ValidateSim.series_max, fgtb.
  assert (forall x, In x (ValidateSim.dropna l) <-> In x l /\ isnan x = false) as Hd.
  { intros x. unfold ValidateSim.dropna. rewrite filter_In, negb_true_iff. tauto. }
  destruct (ValidateSim.dropna l) as [|a l'] eqn:E.
  - split; [destruct t; discriminate|].
    intros (e & He & Hgt). destruct (fltb_not_nan _ _ Hgt) as [_ Hn].
    destruct (proj2 (Hd e) (conj He Hn)).
  - destruct (fold_fmax_spec l' a) as (Hmn & Hin & Hle).
    { apply (Hd a). left. reflexivity. }
    { intros x Hx. apply (Hd x). right. exact Hx. }
    split.
    + intros H. exists (fold_left fmax l' a). split; [|exact H]. apply (Hd _), Hin.
    + intros (e & He & Hgt). destruct (fltb_not_nan _ _ Hgt) as [_ Hn].
      eapply fltb_fleb_trans; [exact Hgt|]. apply Hle. apply Hd. auto.
Qed.

Section RunCheck.

Import Transient TransientTerms TransientFacts.

Lemma out_of_tolerance_columns (qt pt at_ wt : fval) (c : comparison) :
  out_of_tolerance qt pt at_ wt (errors_of c)
  = fgtb (err_qp c) qt || fgtb (err_power c) pt
    || fgtb (err_alpha c) at_ || fgtb (err_w c) wt.
Proof.
  unfold err_qp, err_power, err_alpha, err_w, out_of_tolerance.
  destruct (errors_of c) as [[[e1 e2] e3] e4]. reflexivity.
Qed.

Lemma column_exceeds (f : comparison -> fval) (cs : list comparison) (t : fval) :
  fgtb (ValidateSim.series_max (map f cs)) t = true
  <-> exists c, In c cs /\ fgtb (f c) t = true.
Proof.
  rewrite series_max_exceeds. split.
  - intros (e & He & Hgt). apply in_map_iff in He. destruct He as (c & <- & Hc).
    exists c. auto.
  - intros (c & Hc & Hgt). exists (f c). split; [apply in_map; exact Hc|exact Hgt].
Qed.

(** [passed] is false exactly when, for one of the four quantities, the
    largest error over the compared rows is strictly above the tolerance. *)
Lemma passed_false_iff (qt pt at_ wt : fval) (cs : list comparison) :
  forallb (fun c => negb (out_of_tolerance qt pt at_ wt (errors_of c))) cs = false
  <-> fgtb (ValidateSim.series_max (map err_qp cs)) qt = true
      \/ fgtb (ValidateSim.series_max (map err_power cs)) pt = true
      \/ fgtb (ValidateSim.series_max (map err_alpha cs)) at_ = true
      \/ fgtb (ValidateSim.series_max (map err_w cs)) wt = true.
Proof.
  rewrite !column_exceeds. split.
  - intros H.
    assert (exists c, In c cs /\ out_of_tolerance qt pt at_ wt (errors_of c) = true)
      as (c & Hc & Ho).
    { induction cs as [|c cs IH]; simpl in H; [discriminate|].
      apply andb_false_iff in H. destruct H as [H|H].
      - exists c. split; [left; reflexivity|]. apply negb_false_iff in H. exact H.
      - destruct (IH H) as (c' & Hc' & Ho'). exists c'. split; [right|]; assumption. }
    rewrite out_of_tolerance_columns, !orb_true_iff in Ho.
    destruct Ho as [[[Ho|Ho]|Ho]|Ho]; eauto 6.
  - intros H.
    assert (exists c, In c cs /\ out_of_tolerance qt pt at_ wt (errors_of c) = true)
      as (c & Hc & Ho).
    { destruct H as [(c & Hc & Ho)|[(c & Hc & Ho)|[(c & Hc & Ho)|(c & Hc & Ho)]]];
        exists c; (split; [exact Hc|]);
        rewrite out_of_tolerance_columns, Ho, ?orb_true_r; reflexivity. }
    apply (forallb_false_intro _ _ c Hc). rewrite Ho. reflexivity.
Qed.

End RunCheck.

Section TimeEvolution.

Import ValidateSim.

Lemma summarize_spec (qs : list quantity) (df_results : list result_row) :
  forall all_pass,
    summarize qs df_results all_pass
    = (map (line_for df_results) qs,
       all_pass && forallb (fun q => negb (fails (assessment (line_for df_results q)))) qs).
Proof.
  induction qs as [|[[nm col] th] qs IH]; intros all_pass; simpl.
  - rewrite andb_true_r. reflexivity.
  - rewrite IH. f_equal.
    destruct (fails (assess (series_max (map col df_results)) th)); simpl.
    + rewrite andb_false_r. reflexivity.
    + reflexivity.
Qed.

Lemma fails_assess (mx th : fval) :
  fails (assess mx th) = negb (fleb mx th) && negb (fleb mx (fmul th (Fin 2))).
Proof.
  unfold assess.
  destruct (fleb mx th), (fleb mx (fmul th (Fin 2))), (fleb mx (fmul th (Fin 5)));
    reflexivity.
Qed.

(** For a threshold that is not negative, a quantity fails exactly when its
    largest error is not within twice the threshold. *)
Lemma fails_assess_nonneg (mx : fval) (t : Q) :
  (0 <= t)%Q -> fails (assess mx (Fin t)) = negb (fleb mx (Fin (t * 2))).
Proof.
  intros Ht. rewrite fails_assess. simpl.
  destruct (fleb mx (Fin t)) eqn:E; [|reflexivity].
  assert (fleb mx (Fin (t * 2)) = true) as ->; [|reflexivity].
  destruct mx; simpl in *; try discriminate; try reflexivity.
  apply Qle_bool_iff. apply Qle_bool_iff in E. lra.
Qed.

End TimeEvolution.

Lemma filter_length_all (A : Type) (p : A -> bool) (l : list A) :
  (List.length (filter p l) =? List.length l)%nat = forallb p l.
Proof.
  induction l as [|a l IH]; simpl; [reflexivity|].
  destruct (p a); simpl; [exact IH|].
  apply Nat.eqb_neq. pose proof (filter_length_le p l). lia.
Qed.

(** [validate_results] fails exactly when some quantity's largest relative
    error is not below one per cent. *)
Lemma validation_passed_false_iff (all_errors : list (string * ValidationAnalysis.error_metrics)) :
  ValidateResults.validation_passed all_errors = false
  <-> exists q m,
      In (q, m) all_errors
      /\ fltb (ValidationAnalysis.max_relative_error m) (Fin (1 # 100)) = false.
Proof.
  unfold ValidateResults.validation_passed, ValidateResults.passing, ValidateResults.total.
  rewrite filter_length_all. split.
  - intros H. induction all_errors as [|[q m] l IH]; simpl in H; [discriminate|].
    apply andb_false_iff in H. destruct H as [H|H].
    + exists q, m. split; [left; reflexivity|exact H].
    + destruct (IH H) as (q' & m' & Hin & Hf). exists q', m'. split; [right|]; assumption.
  - intros (q & m & Hin & Hf).
    apply (TransientFacts.forallb_false_intro _ _ (q, m) Hin). exact Hf.
Qed.

(** C1 fails as stated: an error that meets or exceeds its threshold does
    not make the verdict false. *)
Lemma C1_error_at_threshold_still_passes :
  (exists rows,
      Transient.run_check (Fin 72) (Fin (1 # 2)) (Fin (1 # 2)) (Fin (1 # 2)) (Fin (1 # 2))
        PyStr.float sim_at_tolerance ref_at_tolerance = Some (true, rows)
      /\ map (fun r => feqb (Transient.QP_err_pct r) (Fin 50)) rows = [true]
      /\ fgeb (Fin (50 / 100)) (Fin (1 # 2)) = true)
  /\ (exists lines df,
        ValidateSim.validate_time_evolution ref_three_percent sim_three_percent
        = Some (lines, df, true)
        /\ map (fun l => feqb (ValidateSim.max_err l) (Fin 3)) lines = [true; false; false]
        /\ map ValidateSim.assessment lines
           = [ValidateSim.GOOD; ValidateSim.EXCELLENT; ValidateSim.EXCELLENT]
        /\ fgeb (Fin 3) (Fin 2) = true).
Proof.
  split.
  - eexists. split; [vm_compute; reflexivity|]. split; reflexivity.
  - eexists. eexists. split; [vm_compute; reflexivity|].
    split; [reflexivity|]. split; reflexivity.
Qed.

(** C1, amended.  In the regression check [passed] is false exactly when,
    for one of the four quantities, the largest error over the compared
    rows is strictly greater than its tolerance; the summary lists the
    errors of every row.  In the time-evolution validation [all_pass] is
    false exactly when the largest error of QP, power or alpha is not
    within twice its threshold (4, 10 and 2 per cent); the printed table
    has one line per quantity with its grade, and the failing quantities
    are exactly the lines graded ACCEPTABLE or NEEDS WORK.  In
    [validate_results] the run fails exactly when some quantity's largest
    relative error is not below one per cent. *)
Theorem C1_verdict_is_false_iff_a_bound_is_exceeded
        (tl qt pt at_ wt : fval) (parse : string -> option fval)
        (sim_csv : list Transient.raw_row) (ref_csv : list Transient.ts_row)
        (passed : bool) (rows : list Transient.summary_row)
        (ref_data sim_data : list ValidateSim.te_row)
        (lines : list ValidateSim.summary_line) (df : list ValidateSim.result_row)
        (all_pass : bool)
        (Hrun : Transient.run_check tl qt pt at_ wt parse sim_csv ref_csv
                = Some (passed, rows))
        (Hval : ValidateSim.validate_time_evolution ref_data sim_data
                = Some (lines, df, all_pass)) :
  (exists cs,
      TransientTerms.compare_all (Transient.load_sim parse sim_csv)
        (TransientTerms.in_window tl ref_csv) = Some cs
      /\ rows = map TransientTerms.line_of cs
      /\ (passed = false <->
          fgtb (ValidateSim.series_max (map err_qp cs)) qt = true
          \/ fgtb (ValidateSim.series_max (map err_power cs)) pt = true
          \/ fgtb (ValidateSim.series_max (map err_alpha cs)) at_ = true
          \/ fgtb (ValidateSim.series_max (map err_w cs)) wt = true))
  /\ (all_pass = false <->
      fleb (max_qp df) (Fin 4) = false \/ fleb (max_power df) (Fin 10) = false
      \/ fleb (max_alpha df) (Fin 2) = false)
  /\ (all_pass = false <->
      exists l, In l lines /\ ValidateSim.fails (ValidateSim.assessment l) = true)
  /\ map ValidateSim.name lines = ["QP (Energy)"; "Power"; "Alpha"]%string
  /\ map ValidateSim.max_err lines = [max_qp df; max_power df; max_alpha df]
  /\ map ValidateSim.assessment lines
     = [ValidateSim.assess (max_qp df) (Fin 2);
        ValidateSim.assess (max_power df) (Fin 5);
        ValidateSim.assess (max_alpha df) (Fin 1)]
  /\ (forall all_errors,
        ValidateResults.validation_passed all_errors = false
        <-> exists q m,
            In (q, m) all_errors
            /\ fltb (ValidationAnalysis.max_relative_error m) (Fin (1 # 100)) = false).
Proof.
  split.
  - rewrite TransientFacts.run_check_spec in Hrun.
    destruct (TransientTerms.compare_all _ _) as [cs|]; [|discriminate].
    injection Hrun as Hp Hr. exists cs.
    split; [reflexivity|]. split; [symmetry; exact Hr|].
    rewrite <- Hp. apply passed_false_iff.
  - unfold ValidateSim.validate_time_evolution,
      ValidateSim.validate_time_evolution_with in Hval.
    destruct (ValidateSim.match_rows sim_data ref_data) as [|r rs] eqn:Em; [discriminate|].
    rewrite summarize_spec in Hval.
    remember (r :: rs) as df0 eqn:Edf.
    remember (forallb (fun q => negb (ValidateSim.fails
                                        (ValidateSim.assessment (line_for df0 q))))
                      ValidateSim.quantities) as fb eqn:Efb.
    remember (map (line_for df0) ValidateSim.quantities) as ls eqn:Els.
    injection Hval as Hl Hd Hp. simpl in Hp.
    rewrite <- Hl, <- Hd, <- Hp, Efb, Els.
    clear Hl Hd Hp Efb Els fb ls.
    assert (forallb (fun q => negb (ValidateSim.fails
                                      (ValidateSim.assessment (line_for df0 q))))
                    ValidateSim.quantities = false <->
            fleb (max_qp df0) (Fin 4) = false \/ fleb (max_power df0) (Fin 10) = false
            \/ fleb (max_alpha df0) (Fin 2) = false) as Hiff.
    { unfold ValidateSim.quantities.
      cbn [forallb line_for ValidateSim.assessment andb].
      rewrite !fails_assess_nonneg by (unfold Qle; simpl; lia).
      rewrite !negb_involutive, andb_true_r, !andb_false_iff.
      unfold max_qp, max_power, max_alpha.
      assert (forall m, fleb m (Fin (2 * 2)) = fleb m (Fin 4)) as E4
          by (intros m; destruct m; reflexivity).
      assert (forall m, fleb m (Fin (5 * 2)) = fleb m (Fin 10)) as E10
          by (intros m; destruct m; reflexivity).
      assert (forall m, fleb m (Fin (1 * 2)) = fleb m (Fin 2)) as E2
          by (intros m; destruct m; reflexivity).
      rewrite E4, E10, E2. tauto. }
    split; [exact Hiff|].
    split.
    + split.
      * generalize ValidateSim.quantities. intros qs H.
        assert (exists q, In q qs
                          /\ ValidateSim.fails (ValidateSim.assessment (line_for df0 q)) = true)
          as (q & Hq & Hf).
        { induction qs as [|q qs IH]; simpl in H; [discriminate|].
          apply andb_false_iff in H. destruct H as [H|H].
          - exists q. split; [left; reflexivity|]. apply negb_false_iff in H. exact H.
          - destruct (IH H) as (q' & Hq' & Hf'). exists q'. split; [right|]; assumption. }
        exists (line_for df0 q). split; [apply in_map; exact Hq|exact Hf].
      * intros (l & Hl & Hf). apply in_map_iff in Hl. destruct Hl as (q & <- & Hq).
        apply (TransientFacts.forallb_false_intro _ _ q Hq). rewrite Hf. reflexivity.
    + split; [reflexivity|]. split; [reflexivity|].
      split; [reflexivity|]. apply validation_passed_false_iff.
Qed.

Lemma C1_verdict_witness :
  exists cs,
    TransientTerms.compare_all (Transient.load_sim PyStr.float sim_at_tolerance)
      (TransientTerms.in_window (Fin 72) ref_at_tolerance) = Some cs
    /\ (true = false <->
        fgtb (ValidateSim.series_max (map err_qp cs)) (Fin (1 # 2)) = true
        \/ fgtb (ValidateSim.series_max (map err_power cs)) (Fin (1 # 2)) = true
        \/ fgtb (ValidateSim.series_max (map err_alpha cs)) (Fin (1 # 2)) = true
        \/ fgtb (ValidateSim.series_max (map err_w cs)) (Fin (1 # 2)) = true).
Proof.
  destruct (C1_verdict_is_false_iff_a_bound_is_exceeded
              (Fin 72) (Fin (1 # 2)) (Fin (1 # 2)) (Fin (1 # 2)) (Fin (1 # 2))
              PyStr.float sim_at_tolerance ref_at_tolerance
              ref_three_percent sim_three_percent
              (lines := map (line_for (ValidateSim.match_rows sim_three_percent ref_three_percent))
                            ValidateSim.quantities)
              (rows := map TransientTerms.line_of
                         (match TransientTerms.compare_all
                                  (Transient.load_sim PyStr.float sim_at_tolerance)
                                  (TransientTerms.in_window (Fin 72) ref_at_tolerance)
                          with Some cs => cs | None => [] end))
              (passed := true) (all_pass := true)
              (df := ValidateSim.match_rows sim_three_percent ref_three_percent))
    as [(cs & Hcs & _ & Hiff) _].
  - vm_compute. reflexivity.
  - vm_compute. reflexivity.
  - exists cs. split; [exact Hcs|exact Hiff].
Defined.

End VerdictFacts.

(** ** Nearest-match alignment *)

Module AlignmentFacts.

Import AlignmentTerms.
Import FloatModel FloatFacts.

Section TimeEvolution.

Import ValidateSim.

Lemma np_lt_irrefl (a : fval) : np_lt a a = false.
Proof.
  destruct a; simpl; try reflexivity.
  apply Qlt_bool_false_iff. apply Qle_refl.
Qed.

Lemma np_lt_asym (a b : fval) : np_lt a b = true -> np_lt b a = false.
Proof.
  destruct a, b; simpl; intros H; try reflexivity; try discriminate.
  apply Qlt_bool_iff in H. apply Qlt_bool_false_iff. apply Qlt_le_weak. exact H.
Qed.

(** If [x] sorts before [d] but not before [m], then [m] sorts before [d]. *)
Lemma np_lt_weak_order (x m d : fval) :
  np_lt x d = true -> np_lt x m = false -> np_lt m d = true.
Proof.
  destruct x, m, d; simpl; intros H1 H2; try reflexivity; try discriminate.
  apply Qlt_bool_iff. apply Qlt_bool_iff in H1. apply Qlt_bool_false_iff in H2.
  eapply Qle_lt_trans; eauto.
Qed.

Lemma np_lt_finite (a b : fval) :
  isfinite a = true -> isfinite b = true -> np_lt a b = false -> fleb b a = true.
Proof.
  destruct a, b; simpl; intros; try discriminate.
  apply Qle_bool_iff. apply Qlt_bool_false_iff. assumption.
Qed.

Lemma argsort_first_none (l : list fval) : argsort_first l = None -> l = [].
Proof.
  destruct l as [|d l]; [reflexivity|]. simpl.
  destruct (argsort_first l) as [k|]; [|discriminate].
  destruct (np_lt (nth k l NaN) d); discriminate.
Qed.

Lemma argsort_first_bound (l : list fval) (j : nat) :
  argsort_first l = Some j -> (j < List.length l)%nat.
Proof.
  revert j. induction l as [|d l IH]; intros j H; simpl in H; [discriminate|].
  destruct (argsort_first l) as [k|].
  - specialize (IH k eq_refl).
    destruct (np_lt (nth k l NaN) d); injection H as <-; simpl; lia.
  - injection H as <-. simpl. lia.
Qed.

(** Nothing sorts before the entry [argsort_first] points at. *)
Lemma argsort_first_least (l : list fval) (j : nat) :
  argsort_first l = Some j -> forall d, In d l -> np_lt d (nth j l NaN) = false.
Proof.
  revert j. induction l as [|d l IH]; intros j H x Hx; simpl in H; [discriminate|].
  destruct (argsort_first l) as [k|] eqn:Ek.
  - specialize (IH k eq_refl).
    destruct (np_lt (nth k l NaN) d) eqn:El; injection H as <-; simpl.
    + destruct Hx as [<-|Hx]; [apply np_lt_asym; exact El|apply IH; exact Hx].
    + destruct Hx as [<-|Hx]; [apply np_lt_irrefl|].
      destruct (np_lt x d) eqn:Exd; [|reflexivity].
      rewrite (np_lt_weak_order _ _ _ Exd (IH x Hx)) in El. discriminate.
  - injection H as <-. simpl. apply argsort_first_none in Ek. subst l.
    destruct Hx as [<-|[]]. apply np_lt_irrefl.
Qed.

Lemma gap_finite (t : fval) (r : te_row) :
  isfinite t = true -> isfinite (time_microsec r) = true -> isfinite (gap t r) = true.
Proof.
  unfold gap. destruct t, (time_microsec r); simpl; intros; try discriminate; reflexivity.
Qed.

Lemma nearest_spec (sim_data : list te_row) (t_ref : fval) :
  isfinite t_ref = true -> finite_times sim_data ->
  match nearest sim_data t_ref with
  | Some sim_match =>
      In sim_match sim_data
      /\ forall s, In s sim_data -> fleb (gap t_ref sim_match) (gap t_ref s) = true
  | None => sim_data = []
  end.
Proof.
  intros Ht Hs. unfold nearest.
  destruct (argsort_first (map (gap t_ref) sim_data)) as [i|] eqn:Ei.
  - pose proof (argsort_first_bound _ Ei) as Hb. rewrite length_map in Hb.
    destruct (nth_error sim_data i) as [m|] eqn:En.
    + assert (nth i (map (gap t_ref) sim_data) NaN = gap t_ref m) as Hi.
      { apply nth_error_nth. apply map_nth_error. exact En. }
      pose proof (nth_error_In _ _ En) as Hm.
      split; [exact Hm|]. intros s Hin.
      apply np_lt_finite; [apply gap_finite; auto..|].
      rewrite <- Hi. apply (argsort_first_least _ Ei). apply in_map. exact Hin.
    + apply nth_error_None in En. lia.
  - apply argsort_first_none in Ei. destruct sim_data; [reflexivity|discriminate].
Qed.

(** [match_row] keeps the reference row exactly when the nearest
    simulation row is within the 0.1 window, and then pairs the two. *)
Lemma match_row_spec (sim_data : list te_row) (ref_row : te_row) :
  match_row sim_data ref_row =
  match nearest sim_data (time_microsec ref_row) with
  | Some sim_match =>
      if fgtb (gap (time_microsec ref_row) sim_match) time_window then None
      else Some {| time := time_microsec ref_row;
                   qp_ref := QP_1e12_erg ref_row; qp_sim := QP_1e12_erg sim_match;
                   qp_error := rel_pct (QP_1e12_erg sim_match) (QP_1e12_erg ref_row);
                   power_ref := power_relative ref_row;
                   power_sim := power_relative sim_match;
                   power_error :=
                     if fgtb (power_relative ref_row) (Fin 0)
                     then rel_pct (power_relative sim_match) (power_relative ref_row)
                     else Fin 0;
                   alpha_ref := alpha_1_microsec ref_row;
                   alpha_sim := alpha_1_microsec sim_match;
                   alpha_error :=
                     rel_pct (alpha_1_microsec sim_match) (alpha_1_microsec ref_row) |}
  | None => None
  end.
Proof.
  unfold match_row, nearest. fold (gap (time_microsec ref_row)).
  destruct (argsort_first _) as [i|]; [|reflexivity].
  destruct (nth_error sim_data i) as [m|]; reflexivity.
Qed.

End TimeEvolution.

(** C2 fails as stated.  The regression check has no distance tolerance:
    with every reference time inside the time limit, the reference point
    300 is kept and compared with its nearest simulation row, the one at
    131.9 (168.1 away).  The
    time-evolution validation takes no tolerance from its caller: a
    reference point 0.5 away from the nearest simulation row is left out
    by the fixed 0.1 window, although it is within 1.0. *)
Lemma C2_far_reference_point_is_kept :
  (exists passed rows,
      Transient.run_check (Fin 300) (Fin 1) (Fin 1) (Fin 1) (Fin 1)
        PyStr.float sim_csv_example ref_csv_example = Some (passed, rows)
      /\ map Transient.s_time rows = [Fin 0; Fin 132; Fin 300]
      /\ map Transient.sim_QP rows = [Fin 1; Fin 2; Fin 2])
  /\ ValidateSim.match_rows [te 0.5 1] [te 0 1] = []
  /\ fleb (gap (Fin 0) (te 0.5 1)) (Fin 1) = true.
Proof.
  split.
  - eexists. eexists. split; [vm_compute; reflexivity|]. split; reflexivity.
  - split; reflexivity.
Qed.

(** C2, amended.  For finite times: the time-evolution validation pairs a
    reference row with a simulation row of least distance and keeps it
    exactly when that distance is at most the fixed 0.1; no tolerance is
    taken from the caller.  The regression check pairs every reference
    row inside the time limit with a simulation row of least distance and
    leaves none out.  On the example times the validation keeps 0 and 132
    and leaves 300 out; the regression check keeps all three. *)
Theorem C2_nearest_row_is_selected
        (sim_data : list ValidateSim.te_row) (ref_row : ValidateSim.te_row)
        (parse : string -> option fval) (sim_csv : list Transient.raw_row)
        (ref_csv : list Transient.ts_row) (tl qt pt at_ wt : fval)
        (Hsim : finite_times sim_data)
        (Href : isfinite (ValidateSim.time_microsec ref_row) = true)
        (Hload : Transient.load_sim parse sim_csv <> [])
        (Hreft : forall r, In r ref_csv ->
                           fleb (Transient.time_microsec r) tl = true ->
                           isfinite (Transient.time_microsec r) = true) :
  match ValidateSim.match_row sim_data ref_row with
  | Some r =>
      exists sim_match,
        In sim_match sim_data
        /\ (forall s, In s sim_data ->
              fleb (gap (ValidateSim.time_microsec ref_row) sim_match)
                   (gap (ValidateSim.time_microsec ref_row) s) = true)
        /\ fleb (gap (ValidateSim.time_microsec ref_row) sim_match)
                ValidateSim.time_window = true
        /\ ValidateSim.time r = ValidateSim.time_microsec ref_row
        /\ ValidateSim.qp_sim r = ValidateSim.QP_1e12_erg sim_match
        /\ ValidateSim.power_sim r = ValidateSim.power_relative sim_match
        /\ ValidateSim.alpha_sim r = ValidateSim.alpha_1_microsec sim_match
  | None =>
      forall s, In s sim_data ->
        fgtb (gap (ValidateSim.time_microsec ref_row) s) ValidateSim.time_window = true
  end
  /\ (exists passed rows cs,
        Transient.run_check tl qt pt at_ wt parse sim_csv ref_csv = Some (passed, rows)
        /\ rows = map TransientTerms.line_of cs
        /\ map Transient.s_time rows
           = map Transient.time_microsec (TransientTerms.in_window tl ref_csv)
        /\ Forall (fun c =>
                     In (fst (fst c)) (Transient.load_sim parse sim_csv)
                     /\ forall s, In s (Transient.load_sim parse sim_csv) ->
                          fleb (TransientTerms.distance
                                  (Transient.time_microsec (snd (fst c))) (fst (fst c)))
                               (TransientTerms.distance
                                  (Transient.time_microsec (snd (fst c))) s) = true) cs)
  /\ map ValidateSim.time (ValidateSim.match_rows sim_example ref_example)
     = [Fin 0; Fin 132]
  /\ (exists passed rows,
        Transient.run_check (Fin 300) (Fin 1) (Fin 1) (Fin 1) (Fin 1)
          PyStr.float sim_csv_example ref_csv_example = Some (passed, rows)
        /\ map Transient.s_time rows = [Fin 0; Fin 132; Fin 300]).
Proof.
  split; [|split; [|split]].
  - rewrite match_row_spec.
    pose proof (@nearest_spec sim_data _ Href Hsim) as Hn.
    destruct (nearest sim_data (ValidateSim.time_microsec ref_row))
      as [m|] eqn:En.
    + destruct Hn as [Hm Hleast].
      assert (isnan (gap (ValidateSim.time_microsec ref_row) m) = false) as Hg.
      { pose proof (gap_finite _ m Href (Hsim m Hm)) as Hf.
        destruct (gap _ m); try discriminate; reflexivity. }
      destruct (fgtb (gap (ValidateSim.time_microsec ref_row) m) ValidateSim.time_window)
        eqn:Eg.
      * intros s Hs. unfold fgtb in *.
        eapply fltb_fleb_trans; [exact Eg|]. apply Hleast. exact Hs.
      * exists m. split; [exact Hm|]. split; [exact Hleast|]. split.
        { unfold fgtb in Eg. rewrite fltb_negb_fleb in Eg by (exact Hg || reflexivity).
          apply negb_false_iff in Eg. exact Eg. }
        simpl. repeat split.
    + subst sim_data. intros s [].
  - destruct (TransientFacts.compare_all_some (Transient.load_sim parse sim_csv)
                (TransientTerms.in_window tl ref_csv)) as [cs Hcs].
    { intros r Hr. apply filter_In in Hr. destruct Hr as [Hr Ht].
      apply TransientFacts.closest_row_exists; [exact Hload|apply Hreft; assumption|].
      intros s Hs. apply TransientFacts.load_sim_complete in Hs.
      apply TransientFacts.complete_fields in Hs. apply Hs. }
    eexists. exists (map TransientTerms.line_of cs), cs.
    rewrite TransientFacts.run_check_spec, Hcs.
    split; [reflexivity|]. split; [reflexivity|].
    destruct (TransientFacts.compare_all_rows _ _ Hcs) as [Hm Hf].
    split.
    + rewrite <- Hm, !map_map. apply map_ext. intros [[sr rr] [[[e1 e2] e3] e4]].
      reflexivity.
    + apply Forall_forall. intros c Hc. rewrite Forall_forall in Hf.
      destruct (Hf c Hc) as [Hclose _].
      destruct (TransientFacts.closest_row_spec _ _ Hclose) as (Hin & _ & Hleast).
      split; [exact Hin|]. intros s Hs. apply Hleast; [exact Hs|].
      assert (In (snd (fst c)) (TransientTerms.in_window tl ref_csv)) as Hw.
      { rewrite <- Hm. exact (in_map (fun c0 : TransientTerms.comparison => snd (fst c0)) cs c Hc). }
      apply filter_In in Hw. destruct Hw as [Hw1 Hw2].
      apply TransientFacts.distance_not_nan; [apply Hreft; assumption|].
      apply TransientFacts.load_sim_complete in Hs.
      apply TransientFacts.complete_fields in Hs. apply Hs.
  - reflexivity.
  - eexists. eexists. split; [vm_compute; reflexivity|]. reflexivity.
Qed.

Lemma C2_example_witness :
  match ValidateSim.match_row sim_example (te 300 3) with
  | Some _ => False
  | None =>
      forall s, In s sim_example ->
        fgtb (gap (Fin 300) s) ValidateSim.time_window = true
  end.
Proof.
  assert (finite_times sim_example) as Hsim.
  { intros r [<-|[<-|[<-|[]]]]; reflexivity. }
  assert (Transient.load_sim PyStr.float sim_csv_example <> []) as Hload.
  { vm_compute. discriminate. }
  assert (forall r, In r ref_csv_example ->
                    fleb (Transient.time_microsec r) (Fin 300) = true ->
                    isfinite (Transient.time_microsec r) = true) as Hreft.
  { intros r [<-|[<-|[<-|[]]]] _; reflexivity. }
  pose proof (proj1 (@C2_nearest_row_is_selected sim_example (te 300 3) PyStr.float
                       sim_csv_example ref_csv_example
                       (Fin 300) (Fin 1) (Fin 1) (Fin 1) (Fin 1)
                       Hsim eq_refl Hload Hreft)) as H.
  exact H.
Defined.

End AlignmentFacts.

Unset Implicit Arguments.

(** ** Duplicate removal and ordering of the time series *)

Module DedupFacts.

Import DedupTerms.
Import ExtractTables.
Local Open Scope Q_scope.

Lemma round_half_even_comp (p q : Q) :
  p == q -> round_half_even p = round_half_even q.
Proof.
  intros H. unfold round_half_even.
  rewrite (Qfloor_comp _ _ H).
  assert ((p - inject_Z (Qfloor q) ?= 1 # 2) = (q - inject_Z (Qfloor q) ?= 1 # 2)) as ->.
  { apply Qcompare_comp; [rewrite H|]; reflexivity. }
  reflexivity.
Qed.

Lemma round6_comp (p q : Q) : p == q -> round6 p = round6 q.
Proof.
  intros H. unfold round6.
  rewrite (round_half_even_comp (p * 1000000) (q * 1000000)); [reflexivity|].
  rewrite H. reflexivity.
Qed.

(** Rounded keys are reduced fractions: equal as numbers means identical. *)
Lemma round6_canonical (p q : Q) : round6 p == round6 q -> round6 p = round6 q.
Proof.
  intros H. unfold round6 in *.
  apply (proj1 (Qeq_Qred_iff _ _)) in H. apply Qred_complete. exact H.
Qed.

Lemma seen_iff (t : Q) (s : list Q) : seen t s = true <-> exists x, In x s /\ t == x.
Proof.
  unfold seen. rewrite existsb_exists.
  split; intros (x & Hx & He); exists x; (split; [exact Hx|]); apply Qeq_bool_iff; exact He.
Qed.

Lemma rkey_eqb (a b : row) : Qeq_bool (rkey a) (rkey b) = true -> rkey a = rkey b.
Proof. intros H. apply round6_canonical. apply Qeq_bool_iff. exact H. Qed.

Lemma seen_cons (t x : Q) (s : list Q) :
  seen t (x :: s) = Qeq_bool t x || seen t s.
Proof. reflexivity. Qed.

Lemma seen_rkey_cons (r r' : row) (s : list Q) :
  seen (rkey r') (rkey r :: s) = false -> rkey r' <> rkey r /\ seen (rkey r') s = false.
Proof.
  unfold seen. simpl. intros H. apply orb_false_iff in H. destruct H as [H1 H2].
  split; [|exact H2]. intros E. rewrite E in H1.
  rewrite (proj2 (Qeq_bool_iff _ _) (Qeq_refl _)) in H1. discriminate.
Qed.

(** Every row kept was not seen before the scan. *)
Lemma unique_from_unseen (rows : list row) :
  forall s r, In r (unique_from s rows) -> In r rows /\ seen (rkey r) s = false.
Proof.
  induction rows as [|x rows IH]; intros s r H; simpl in H; [contradiction|].
  fold (rkey x) in H.
  destruct (seen (rkey x) s) eqn:E.
  - destruct (IH _ _ H). split; [right|]; assumption.
  - destruct H as [<-|H]; [split; [left; reflexivity|exact E]|].
    destruct (IH _ _ H) as [Hin Hs]. split; [right; exact Hin|].
    apply (seen_rkey_cons _ _ _ Hs).
Qed.

Lemma unique_from_nodup (rows : list row) :
  forall s, NoDup (map rkey (unique_from s rows)).
Proof.
  induction rows as [|x rows IH]; intros s; simpl; [constructor|].
  fold (rkey x). destruct (seen (rkey x) s); [apply IH|].
  simpl. constructor; [|apply IH].
  intros Hin. apply in_map_iff in Hin. destruct Hin as (r & Hr & Hin).
  destruct (unique_from_unseen _ _ _ Hin) as [_ Hs].
  destruct (seen_rkey_cons _ _ _ Hs) as [Hne _]. congruence.
Qed.

(** Each row kept is the first of the input with its rounded key. *)
Lemma unique_from_first (rows : list row) :
  forall s r, In r (unique_from s rows) ->
    exists before after,
      rows = before ++ r :: after /\ forall x, In x before -> rkey x <> rkey r.
Proof.
  induction rows as [|x rows IH]; intros s r H; simpl in H; [contradiction|].
  fold (rkey x) in H.
  destruct (seen (rkey x) s) eqn:E.
  - destruct (unique_from_unseen _ _ _ H) as [_ Hs].
    destruct (IH _ _ H) as (b & a & -> & Hb).
    exists (x :: b), a. split; [reflexivity|].
    intros y [<-|Hy]; [|apply Hb; exact Hy].
    intros Eq. rewrite Eq in E. congruence.
  - destruct H as [<-|H].
    + exists [], rows. split; [reflexivity|]. intros y [].
    + destruct (unique_from_unseen _ _ _ H) as [_ Hs].
      destruct (seen_rkey_cons _ _ _ Hs) as [Hne _].
      destruct (IH _ _ H) as (b & a & -> & Hb).
      exists (x :: b), a. split; [reflexivity|].
      intros y [<-|Hy]; [congruence|apply Hb; exact Hy].
Qed.

(** No rounded key of the input is lost. *)
Lemma unique_from_complete (rows : list row) :
  forall s x, In x rows -> seen (rkey x) s = false ->
    In (rkey x) (map rkey (unique_from s rows)).
Proof.
  induction rows as [|y rows IH]; intros s x H Hs; simpl; [contradiction|].
  fold (rkey y). destruct H as [<-|H].
  - rewrite Hs. left. reflexivity.
  - destruct (seen (rkey y) s) eqn:E; [apply IH; assumption|].
    simpl. destruct (Qeq_bool (rkey x) (rkey y)) eqn:Eq.
    + left. symmetry. apply rkey_eqb. exact Eq.
    + right. apply IH; [exact H|]. rewrite seen_cons, Eq. exact Hs.
Qed.

(** A list with distinct unseen rounded keys goes through unchanged. *)
Lemma unique_from_fixed (rows : list row) :
  forall s, NoDup (map rkey rows) ->
    (forall r, In r rows -> seen (rkey r) s = false) ->
    unique_from s rows = rows.
Proof.
  induction rows as [|x rows IH]; intros s Hn Hs; simpl; [reflexivity|].
  fold (rkey x). rewrite (Hs x (or_introl eq_refl)). f_equal.
  inversion Hn as [|? ? Hx Hn']; subst. apply IH; [exact Hn'|].
  intros r Hr. rewrite seen_cons, (Hs r (or_intror Hr)), orb_false_r.
  destruct (Qeq_bool (rkey r) (rkey x)) eqn:Eq; [|reflexivity].
  exfalso. apply Hx. rewrite <- (rkey_eqb _ _ Eq).
  apply in_map. exact Hr.
Qed.

Lemma insert_by_key_perm (r : row) (l : list row) :
  Permutation (insert_by_key r l) (r :: l).
Proof.
  induction l as [|y l IH]; simpl; [reflexivity|].
  destruct (Qle_bool (key r) (key y)); [reflexivity|].
  rewrite IH. apply perm_swap.
Qed.

Lemma sorted_by_key_perm (l : list row) : Permutation (sorted_by_key l) l.
Proof.
  induction l as [|r l IH]; simpl; [reflexivity|].
  rewrite insert_by_key_perm. constructor. exact IH.
Qed.

Lemma insert_by_key_sorted (r : row) (l : list row) :
  nondecreasing l -> nondecreasing (insert_by_key r l).
Proof.
  unfold nondecreasing. induction l as [|y l IH]; intros H; simpl.
  - constructor; constructor.
  - inversion H as [|? ? Hl Hy]; subst.
    destruct (Qle_bool (key r) (key y)) eqn:E.
    + apply Qle_bool_iff in E. constructor; [exact H|].
      constructor; [exact E|].
      eapply Forall_impl; [|exact Hy]. intros a Ha. simpl in Ha. lra.
    + constructor; [apply IH; exact Hl|].
      assert (key y <= key r) as Hyr.
      { destruct (Qlt_le_dec (key y) (key r)) as [Hlt|Hle]; [lra|].
        apply Qle_bool_iff in Hle. congruence. }
      eapply Permutation_Forall; [symmetry; apply insert_by_key_perm|].
      constructor; assumption.
Qed.

Lemma sorted_by_key_sorted (l : list row) : nondecreasing (sorted_by_key l).
Proof.
  induction l as [|r l IH]; simpl; [constructor|].
  apply insert_by_key_sorted. exact IH.
Qed.

(** Sorting a list that is already in order changes nothing. *)
Lemma sorted_by_key_fixed (l : list row) : nondecreasing l -> sorted_by_key l = l.
Proof.
  unfold nondecreasing. induction l as [|r l IH]; intros H; simpl; [reflexivity|].
  inversion H as [|? ? Hl Hr]; subst. rewrite (IH Hl).
  destruct l as [|y l]; simpl; [reflexivity|].
  inversion Hr as [|? ? Hy _]; subst.
  rewrite (proj2 (Qle_bool_iff _ _) Hy). reflexivity.
Qed.

(** In order and with distinct rounded keys: strictly ascending. *)
Lemma nondecreasing_distinct_ascending (l : list row) :
  nondecreasing l -> NoDup (map rkey l) -> ascending l.
Proof.
  unfold nondecreasing, ascending.
  induction l as [|r l IH]; intros H Hn; [constructor|].
  inversion H as [|? ? Hl Hr]; subst. inversion Hn as [|? ? Hx Hn']; subst.
  constructor; [apply IH; assumption|].
  apply Forall_forall. intros y Hy. rewrite Forall_forall in Hr.
  destruct (Qle_lt_or_eq _ _ (Hr y Hy)) as [Hlt|Heq]; [exact Hlt|].
  exfalso. apply Hx. unfold rkey at 1. rewrite (round6_comp _ _ Heq).
  apply (in_map rkey). exact Hy.
Qed.

Lemma ascending_nondecreasing (l : list row) : ascending l -> nondecreasing l.
Proof.
  unfold ascending, nondecreasing. induction 1 as [|r l Hl IH Hr]; constructor; [exact IH|].
  eapply Forall_impl; [|exact Hr]. intros a Ha. simpl in Ha. lra.
Qed.

Lemma dedup_perm_unique (rows : list row) :
  Permutation (dedup_time_data rows) (unique_time_data rows).
Proof.
  unfold dedup_time_data. destruct rows as [|r rows]; [reflexivity|].
  apply sorted_by_key_perm.
Qed.

Lemma dedup_nodup (rows : list row) : NoDup (map rkey (dedup_time_data rows)).
Proof.
  eapply Permutation_NoDup.
  - apply Permutation_map. symmetry. apply dedup_perm_unique.
  - apply unique_from_nodup.
Qed.

Lemma dedup_ascending (rows : list row) : ascending (dedup_time_data rows).
Proof.
  apply nondecreasing_distinct_ascending; [|apply dedup_nodup].
  unfold dedup_time_data. destruct rows; [constructor|apply sorted_by_key_sorted].
Qed.

Lemma dedup_idempotent (rows : list row) :
  dedup_time_data (dedup_time_data rows) = dedup_time_data rows.
Proof.
  pose proof (dedup_ascending rows) as Ha. pose proof (dedup_nodup rows) as Hn.
  remember (dedup_time_data rows) as m eqn:Em. clear Em.
  unfold dedup_time_data. destruct m as [|r m]; [reflexivity|].
  unfold unique_time_data. rewrite unique_from_fixed; [|exact Hn|reflexivity].
  apply sorted_by_key_fixed. apply ascending_nondecreasing. exact Ha.
Qed.

Lemma dedup_same_row_twice (r : row) : dedup_time_data [r; r] = [r].
Proof.
  unfold dedup_time_data, unique_time_data. simpl. fold (rkey r).
  rewrite (proj2 (Qeq_bool_iff _ _) (Qeq_refl (rkey r))). reflexivity.
Qed.

Lemma dedup_keys (rows : list row) (k : Q) :
  In k (map rkey (dedup_time_data rows)) <-> In k (map rkey rows).
Proof.
  split; intros H; apply in_map_iff in H; destruct H as (x & <- & Hx).
  - apply in_map.
    apply (Permutation_in _ (dedup_perm_unique rows)) in Hx.
    apply (unique_from_unseen _ _ _ Hx).
  - eapply Permutation_in.
    + apply Permutation_map. symmetry. apply dedup_perm_unique.
    + apply unique_from_complete; [exact Hx|reflexivity].
Qed.

(** C5: a row given twice is kept once; the built dataset is a fixed
    point of the step; for every input, in any order and in particular
    reversed, its keys are strictly ascending and pairwise distinct after
    rounding to six decimals; it holds every rounded key of the input
    once, whatever the order of the input; and the row kept for a key is
    the first of the input with that key. *)
Theorem C5_dedup_keeps_first_and_sorts (rows : list row) (r : row) :
  dedup_time_data [r; r] = [r]
  /\ dedup_time_data (dedup_time_data rows) = dedup_time_data rows
  /\ ascending (dedup_time_data rows)
  /\ NoDup (map rkey (dedup_time_data rows))
  /\ ascending (dedup_time_data (rev rows))
  /\ NoDup (map rkey (dedup_time_data (rev rows)))
  /\ (forall rows' k, Permutation rows rows' ->
        (In k (map rkey (dedup_time_data rows))
         <-> In k (map rkey (dedup_time_data rows'))))
  /\ (forall x, In x rows -> In (rkey x) (map rkey (dedup_time_data rows)))
  /\ (forall x, In x (dedup_time_data rows) ->
        exists before after,
          rows = before ++ x :: after
          /\ forall y, In y before -> rkey y <> rkey x).
Proof.
  split; [apply dedup_same_row_twice|].
  split; [apply dedup_idempotent|].
  split; [apply dedup_ascending|].
  split; [apply dedup_nodup|].
  split; [apply dedup_ascending|].
  split; [apply dedup_nodup|].
  split.
  - intros rows' k Hp. rewrite !dedup_keys. split; intros H.
    + eapply Permutation_in; [apply Permutation_map; exact Hp|exact H].
    + eapply Permutation_in; [apply Permutation_map; symmetry; exact Hp|exact H].
  - split.
    + intros x Hx. apply dedup_keys. apply in_map. exact Hx.
    + intros x Hx. apply (Permutation_in _ (dedup_perm_unique rows)) in Hx.
      apply (unique_from_first _ _ _ Hx).
Qed.

Lemma C5_sample_witness :
  dedup_time_data sample_rows
  = [ [0; 3484.515; 1; 0; 2; 0]; [132; 4000; 1; 0; 2; 0]; [240; 5194.141; 1; 0; 2; 0] ]
  /\ ascending (dedup_time_data sample_rows)
  /\ dedup_time_data (dedup_time_data sample_rows) = dedup_time_data sample_rows.
Proof.
  pose proof (C5_dedup_keeps_first_and_sorts sample_rows (hd [] sample_rows))
    as (_ & Hi & Ha & _).
  split; [reflexivity|]. split; [exact Ha|exact Hi].
Defined.

End DedupFacts.

(** ** Error metrics *)

Module MetricsFacts.

Import MetricsTerms.
Import FloatModel FloatFacts.
Import ValidateSim ValidationAnalysis.

Lemma select_map_filter (A : Type) (p : A -> bool) (l : list A) :
  select (map p l) l = filter p l.
Proof.
  induction l as [|a l IH]; simpl; [reflexivity|].
  rewrite IH. reflexivity.
Qed.

Lemma select_length (A : Type) (mask : list bool) :
  forall l : list A, List.length mask = List.length l ->
    List.length (select mask l) = List.length (filter (fun b => b) mask).
Proof.
  induction mask as [|b mask IH]; intros [|a l] H; simpl in *; try reflexivity;
    try discriminate.
  injection H as H. destruct b; simpl; rewrite (IH l H); reflexivity.
Qed.

Lemma select_all (A : Type) (mask : list bool) :
  forall l : list A, List.length mask = List.length l ->
    Forall (fun b => b = true) mask -> select mask l = l.
Proof.
  induction mask as [|b mask IH]; intros [|a l] H Hall; simpl in *; try reflexivity;
    try discriminate.
  injection H as H. inversion Hall as [|? ? Hb Hm]; subst.
  rewrite (IH l H Hm). reflexivity.
Qed.

(** The mask of the reference values that were selected is all true. *)
Lemma mask_of_selected (ref_vals : list fval) :
  Forall (fun b => b = true)
         (map above_floor (select (map above_floor ref_vals) ref_vals)).
Proof.
  rewrite select_map_filter. apply Forall_forall. intros b Hb.
  apply in_map_iff in Hb. destruct Hb as (r & <- & Hr).
  apply filter_In in Hr. apply Hr.
Qed.

Lemma count_mask (A : Type) (p : A -> bool) (l : list A) :
  List.length (filter (fun b => b) (map p l)) = List.length (filter p l).
Proof.
  induction l as [|a l IH]; simpl; [reflexivity|].
  destruct (p a); simpl; rewrite IH; reflexivity.
Qed.

Lemma filter_all (A : Type) (p : A -> bool) (l : list A) :
  Forall (fun a => p a = true) l -> filter p l = l.
Proof.
  induction 1 as [|a l Ha Hl IH]; simpl; [reflexivity|].
  rewrite Ha, IH. reflexivity.
Qed.

(** A value above the floor is a non-zero number (NaN is not above it). *)
Lemma above_floor_nonzero (r : fval) :
  above_floor r = true -> feqb r (Fin 0) = false /\ isnan r = false.
Proof.
  unfold above_floor, fgtb, floor. destruct r; simpl; intros H; try discriminate; auto.
  split; [|reflexivity].
  destruct (Qeq_bool q 0) eqn:E; [|reflexivity].
  apply Qeq_bool_iff in E. apply Qlt_bool_iff in H.
  assert (Qabs q == 0)%Q as Ha by (rewrite E; reflexivity).
  rewrite Ha in H. unfold Qlt in H. simpl in H. lia.
Qed.

Lemma np_max_nonempty (l : list fval) :
  l <> [] -> exists m, np_max l = Some m.
Proof. destruct l; [congruence|]. intros _. eexists; reflexivity. Qed.

Section Errors.

Variable np_sqrt : fval -> fval.

Lemma column_errors_none_above (ref_vals sim_vals : list fval) :
  (forall r, In r ref_vals -> above_floor r = false) ->
  column_errors np_sqrt ref_vals sim_vals = Some nothing_to_compare.
Proof.
  intros H. unfold column_errors.
  rewrite count_mask.
  assert (filter above_floor ref_vals = []) as ->; [|reflexivity].
  induction ref_vals as [|r l IH]; simpl; [reflexivity|].
  rewrite (H r (or_introl eq_refl)). apply IH. intros x Hx. apply H. right. exact Hx.
Qed.

Lemma column_errors_total (ref_vals sim_vals : list fval) :
  List.length ref_vals = List.length sim_vals ->
  exists m, column_errors np_sqrt ref_vals sim_vals = Some m.
Proof.
  intros Hlen. unfold column_errors, masked.
  rewrite !length_map, <- Hlen, !Nat.eqb_refl.
  destruct (0 <? _)%nat eqn:E; [|eexists; reflexivity].
  apply Nat.ltb_lt in E.
  set (mask := map above_floor ref_vals) in *.
  assert (List.length (select mask sim_vals) = List.length (select mask ref_vals)) as Hs.
  { rewrite !select_length; unfold mask; rewrite ?length_map; auto. }
  assert (0 < List.length (select mask ref_vals))%nat as Hpos.
  { rewrite select_length; [exact E|unfold mask; rewrite length_map; reflexivity]. }
  set (sim_m := select mask sim_vals) in *. set (ref_m := select mask ref_vals) in *.
  set (diff := map (fun '(s, r) => fsub s r) (combine sim_m ref_m)).
  assert (List.length diff = List.length ref_m) as Hd.
  { unfold diff. rewrite length_map, length_combine, Hs. apply Nat.min_id. }
  destruct (np_max_nonempty (map (fun '(d, r) => fabs (fdiv d r)) (combine diff ref_m)))
    as [m1 ->].
  { intros En. apply (f_equal (@List.length fval)) in En.
    rewrite length_map, length_combine, Hd, Nat.min_id in En. simpl in En. lia. }
  destruct (np_max_nonempty (map fabs diff)) as [m2 ->].
  { intros En. apply (f_equal (@List.length fval)) in En.
    rewrite length_map, Hd in En. simpl in En. lia. }
  eexists; reflexivity.
Qed.

(** The samples at or below the floor play no part in the result. *)
Lemma column_errors_only_selected (ref_vals sim_vals : list fval) :
  List.length ref_vals = List.length sim_vals ->
  column_errors np_sqrt ref_vals sim_vals
  = column_errors np_sqrt (select (map above_floor ref_vals) ref_vals)
                          (select (map above_floor ref_vals) sim_vals).
Proof.
  intros Hlen.
  set (mask := map above_floor ref_vals).
  assert (List.length mask = List.length ref_vals) as Hm1
      by (unfold mask; apply length_map).
  assert (List.length mask = List.length sim_vals) as Hm2 by congruence.
  pose proof (mask_of_selected ref_vals) as Hall. fold mask in Hall.
  set (ref_m := select mask ref_vals) in *. set (sim_m := select mask sim_vals).
  assert (List.length sim_m = List.length ref_m) as Hs.
  { unfold sim_m, ref_m. rewrite !select_length; auto. }
  unfold column_errors at 2.
  set (mask' := map above_floor ref_m) in *.
  assert (List.length mask' = List.length ref_m) as Hm'
      by (unfold mask'; apply length_map).
  assert (filter (fun b => b) mask' = mask') as Hf.
  { apply filter_all. exact Hall. }
  unfold masked. rewrite Hf, Hm', Hs, !Nat.eqb_refl.
  rewrite (select_all _ mask' ref_m Hm' Hall).
  rewrite (select_all _ mask' sim_m (eq_trans Hm' (eq_sym Hs)) Hall).
  unfold column_errors, masked. fold mask.
  rewrite (proj2 (Nat.eqb_eq _ _) Hm2), (proj2 (Nat.eqb_eq _ _) Hm1). fold ref_m sim_m.
  assert (List.length (filter (fun b => b) mask) = List.length ref_m) as ->.
  { unfold ref_m. rewrite select_length; auto. }
  reflexivity.
Qed.

(** *** [calculate_metrics] *)

Lemma finite_nonzero_mask_usable (ref_vals sim_vals : list fval) :
  finite_nonzero_mask ref_vals sim_vals = map usable (combine ref_vals sim_vals).
Proof. reflexivity. Qed.

Lemma select_pairs_fst (f : fval * fval -> bool) (l1 : list fval) :
  forall l2, List.length l1 = List.length l2 ->
    select (map f (combine l1 l2)) l1 = map fst (filter f (combine l1 l2)).
Proof.
  induction l1 as [|a l1 IH]; intros [|b l2] H; simpl in *; try reflexivity;
    try discriminate.
  injection H as H. destruct (f (a, b)); simpl; rewrite (IH l2 H); reflexivity.
Qed.

Lemma select_pairs_snd (f : fval * fval -> bool) (l1 : list fval) :
  forall l2, List.length l1 = List.length l2 ->
    select (map f (combine l1 l2)) l2 = map snd (filter f (combine l1 l2)).
Proof.
  induction l1 as [|a l1 IH]; intros [|b l2] H; simpl in *; try reflexivity;
    try discriminate.
  injection H as H. destruct (f (a, b)); simpl; rewrite (IH l2 H); reflexivity.
Qed.

Lemma combine_fst_snd (l : list (fval * fval)) : combine (map fst l) (map snd l) = l.
Proof.
  induction l as [|[a b] l IH]; simpl; [reflexivity|]. rewrite IH. reflexivity.
Qed.

Lemma metrics_total (ref_vals sim_vals : list fval) :
  List.length ref_vals = List.length sim_vals ->
  exists m,
    calculate_metrics np_sqrt ref_vals sim_vals = Some m
    /\ points_compared m
       = List.length (select (finite_nonzero_mask ref_vals sim_vals) ref_vals).
Proof.
  intros Hlen. unfold calculate_metrics.
  rewrite (proj2 (Nat.eqb_eq _ _) Hlen). simpl negb. cbv iota.
  set (mask := finite_nonzero_mask ref_vals sim_vals).
  assert (List.length mask = List.length ref_vals) as Hm.
  { unfold mask, finite_nonzero_mask. rewrite length_map, length_combine, <- Hlen.
    apply Nat.min_id. }
  assert (List.length (select mask sim_vals) = List.length (select mask ref_vals)) as Hs.
  { rewrite !select_length; congruence. }
  destruct (List.length (select mask ref_vals) =? 0)%nat eqn:E.
  - apply Nat.eqb_eq in E. eexists. split; [reflexivity|]. simpl. congruence.
  - apply Nat.eqb_neq in E.
    set (abs_error := map (fun '(s, r) => fabs (fsub s r))
                          (combine (select mask sim_vals) (select mask ref_vals))).
    assert (List.length abs_error = List.length (select mask ref_vals)) as Ha.
    { unfold abs_error. rewrite length_map, length_combine, Hs. apply Nat.min_id. }
    destruct (np_max_nonempty abs_error) as [m1 ->].
    { intros En. rewrite En in Ha. simpl in Ha. lia. }
    destruct (np_max_nonempty
                (map (fun '(a, r) => fdiv a (fabs r))
                     (combine abs_error (select mask ref_vals)))) as [m2 ->].
    { intros En. apply (f_equal (@List.length fval)) in En.
      rewrite length_map, length_combine, Ha, Nat.min_id in En. simpl in En. lia. }
    eexists. split; reflexivity.
Qed.

Lemma metrics_none_left (ref_vals sim_vals : list fval) :
  List.length ref_vals = List.length sim_vals ->
  select (finite_nonzero_mask ref_vals sim_vals) ref_vals = [] ->
  calculate_metrics np_sqrt ref_vals sim_vals = Some no_points.
Proof.
  intros Hlen He. unfold calculate_metrics.
  rewrite (proj2 (Nat.eqb_eq _ _) Hlen), He. reflexivity.
Qed.

(** Every divisor of [calculate_metrics] is the magnitude of a finite,
    non-zero reference value. *)
Lemma metrics_divisors (ref_vals sim_vals : list fval) :
  List.length ref_vals = List.length sim_vals ->
  Forall (fun r => isfinite r = true /\ feqb (fabs r) (Fin 0) = false)
         (select (finite_nonzero_mask ref_vals sim_vals) ref_vals).
Proof.
  intros Hlen. rewrite finite_nonzero_mask_usable, (select_pairs_fst _ _ _ Hlen).
  apply Forall_forall. intros r Hr.
  apply in_map_iff in Hr. destruct Hr as ([r' s] & <- & Hp).
  apply filter_In in Hp. destruct Hp as [_ Hu]. simpl in *.
  apply andb_true_iff in Hu. destruct Hu as [Hu Hz].
  apply andb_true_iff in Hu. destruct Hu as [Hf _].
  split; [exact Hf|]. rewrite fabs_zero. apply negb_true_iff. exact Hz.
Qed.

(** The samples that are not usable play no part in the result. *)
Lemma metrics_only_selected (ref_vals sim_vals : list fval) :
  List.length ref_vals = List.length sim_vals ->
  calculate_metrics np_sqrt ref_vals sim_vals
  = calculate_metrics np_sqrt
      (select (finite_nonzero_mask ref_vals sim_vals) ref_vals)
      (select (finite_nonzero_mask ref_vals sim_vals) sim_vals).
Proof.
  intros Hlen. rewrite finite_nonzero_mask_usable.
  rewrite (select_pairs_fst _ _ _ Hlen), (select_pairs_snd _ _ _ Hlen).
  set (kept := filter usable (combine ref_vals sim_vals)).
  unfold calculate_metrics at 2.
  rewrite !length_map, Nat.eqb_refl. simpl negb. cbv iota.
  rewrite finite_nonzero_mask_usable, combine_fst_snd.
  assert (Forall (fun b => b = true) (map usable kept)) as Hall.
  { apply Forall_forall. intros b Hb. apply in_map_iff in Hb.
    destruct Hb as (p & <- & Hp). apply filter_In in Hp. apply Hp. }
  rewrite (select_all _ (map usable kept) (map fst kept)) by (rewrite ?length_map; auto).
  rewrite (select_all _ (map usable kept) (map snd kept)) by (rewrite ?length_map; auto).
  unfold calculate_metrics. rewrite (proj2 (Nat.eqb_eq _ _) Hlen). simpl negb. cbv iota.
  rewrite finite_nonzero_mask_usable.
  rewrite (select_pairs_fst _ _ _ Hlen), (select_pairs_snd _ _ _ Hlen).
  reflexivity.
Qed.

End Errors.

(** C6 fails as stated: when no reference value is above the floor,
    [calculate_errors] reports the two means as 0.0, not as NaN. *)
Lemma C6_means_are_zero_when_nothing_passes :
  exists m,
    column_errors (fun x => x) [Fin 0; Fin (1 # 100000000000)] [Fin 1; Fin 2] = Some m
    /\ mean_reference m = Fin 0 /\ mean_simulation m = Fin 0
    /\ isnan (mean_reference m) = false /\ isnan (mean_simulation m) = false
    /\ isnan (mean_relative_error m) = true.
Proof.
  eexists. split; [reflexivity|]. repeat split.
Qed.

(** C6, amended.  For two columns of one length, [calculate_errors]
    returns a value; it is the value computed on the samples whose
    reference magnitude is above 1e-10 alone, and each divisor is such a
    reference value, hence not zero; when no sample is above the floor the
    four error metrics are NaN and the two means are 0.0 (no sample count
    is reported).  [calculate_metrics] returns a value; it is the value
    computed on the samples whose two values are finite and whose
    reference is not zero, each divisor is the magnitude of such a
    reference, [points_compared] is the number of these samples, and when
    there is none the four error metrics are NaN and the count is 0. *)
Theorem C6_metrics_use_only_the_selected_samples
        (np_sqrt : fval -> fval) (ref_vals sim_vals : list fval)
        (Hlen : List.length ref_vals = List.length sim_vals) :
  (exists m, column_errors np_sqrt ref_vals sim_vals = Some m)
  /\ column_errors np_sqrt ref_vals sim_vals
     = column_errors np_sqrt (select (map above_floor ref_vals) ref_vals)
                             (select (map above_floor ref_vals) sim_vals)
  /\ Forall (fun r => above_floor r = true /\ feqb r (Fin 0) = false)
            (select (map above_floor ref_vals) ref_vals)
  /\ ((forall r, In r ref_vals -> above_floor r = false) ->
      column_errors np_sqrt ref_vals sim_vals = Some nothing_to_compare)
  /\ (exists m,
        calculate_metrics np_sqrt ref_vals sim_vals = Some m
        /\ points_compared m
           = List.length (select (finite_nonzero_mask ref_vals sim_vals) ref_vals)
        /\ (points_compared m <= List.length ref_vals)%nat)
  /\ calculate_metrics np_sqrt ref_vals sim_vals
     = calculate_metrics np_sqrt
         (select (finite_nonzero_mask ref_vals sim_vals) ref_vals)
         (select (finite_nonzero_mask ref_vals sim_vals) sim_vals)
  /\ Forall (fun r => isfinite r = true /\ feqb (fabs r) (Fin 0) = false)
            (select (finite_nonzero_mask ref_vals sim_vals) ref_vals)
  /\ (select (finite_nonzero_mask ref_vals sim_vals) ref_vals = [] ->
      calculate_metrics np_sqrt ref_vals sim_vals = Some no_points).
Proof.
  split; [apply column_errors_total; exact Hlen|].
  split; [apply column_errors_only_selected; exact Hlen|].
  split.
  { rewrite select_map_filter. apply Forall_forall. intros r Hr.
    apply filter_In in Hr. destruct Hr as [_ Hr].
    split; [exact Hr|apply above_floor_nonzero; exact Hr]. }
  split; [apply column_errors_none_above|].
  split.
  { destruct (metrics_total np_sqrt _ _ Hlen) as (m & Hm & Hp).
    exists m. split; [exact Hm|]. split; [exact Hp|].
    rewrite Hp, finite_nonzero_mask_usable, (select_pairs_fst _ _ _ Hlen), length_map.
    eapply Nat.le_trans; [apply filter_length_le|].
    rewrite length_combine. apply Nat.le_min_l. }
  split; [apply metrics_only_selected; exact Hlen|].
  split; [apply metrics_divisors; exact Hlen|].
  apply metrics_none_left. exact Hlen.
Qed.

Lemma C6_sample_witness :
  exists m,
    column_errors (fun x => x) ref_sample sim_sample = Some m
    /\ feqb (mean_relative_error m) (Fin (1 # 12)) = true
    /\ feqb (max_relative_error m) (Fin 0.1) = true
    /\ feqb (mean_reference m) (Fin 20) = true.
Proof.
  pose proof (C6_metrics_use_only_the_selected_samples
                (fun x => x) ref_sample sim_sample eq_refl) as (_ & Heq & _).
  rewrite Heq. eexists. split; [vm_compute; reflexivity|].
  split; [reflexivity|]. split; reflexivity.
Defined.

End MetricsFacts.

(** ** Common-grid interpolation *)

Module GridFacts.

Import GridTerms.
Import FloatModel FloatFacts.
Import ValidationAnalysis.
Local Open Scope Q_scope.

Lemma Qmin_spec (a b : Q) : Qmin a b <= a /\ Qmin a b <= b /\ (Qmin a b = a \/ Qmin a b = b).
Proof.
  unfold Qmin. destruct (Qle_bool a b) eqn:E.
  - apply Qle_bool_iff in E. repeat split; auto; lra.
  - assert (b <= a).
    { destruct (Qlt_le_dec a b) as [H|H]; [|exact H].
      apply Qlt_le_weak, Qle_bool_iff in H. congruence. }
    repeat split; auto; lra.
Qed.

Lemma Qmax_spec (a b : Q) : a <= Qmax a b /\ b <= Qmax a b /\ (Qmax a b = a \/ Qmax a b = b).
Proof.
  unfold Qmax. destruct (Qle_bool a b) eqn:E.
  - apply Qle_bool_iff in E. repeat split; auto; lra.
  - assert (b <= a).
    { destruct (Qlt_le_dec a b) as [H|H]; [|exact H].
      apply Qlt_le_weak, Qle_bool_iff in H. congruence. }
    repeat split; auto; lra.
Qed.

(** [col_min] is the least key of the column and [col_max] the greatest. *)
Lemma col_min_spec (l : list Q) :
  forall a, In (col_min a l) (a :: l) /\ forall x, In x (a :: l) -> col_min a l <= x.
Proof.
  unfold col_min. induction l as [|b l IH]; intros a; simpl.
  - split; [left; reflexivity|]. intros x [<-|[]]. lra.
  - destruct (IH (Qmin a b)) as [Hin Hle].
    destruct (Qmin_spec a b) as (Ha & Hb & Hc).
    split.
    + destruct Hin as [Hin|Hin]; [|right; right; exact Hin].
      rewrite <- Hin. destruct Hc as [-> | ->]; auto.
    + intros x [<-|[<-|Hx]].
      * eapply Qle_trans; [apply Hle; left; reflexivity|exact Ha].
      * eapply Qle_trans; [apply Hle; left; reflexivity|exact Hb].
      * apply Hle. right. exact Hx.
Qed.

Lemma col_max_spec (l : list Q) :
  forall a, In (col_max a l) (a :: l) /\ forall x, In x (a :: l) -> x <= col_max a l.
Proof.
  unfold col_max. induction l as [|b l IH]; intros a; simpl.
  - split; [left; reflexivity|]. intros x [<-|[]]. lra.
  - destruct (IH (Qmax a b)) as [Hin Hle].
    destruct (Qmax_spec a b) as (Ha & Hb & Hc).
    split.
    + destruct Hin as [Hin|Hin]; [|right; right; exact Hin].
      rewrite <- Hin. destruct Hc as [-> | ->]; auto.
    + intros x [<-|[<-|Hx]].
      * eapply Qle_trans; [exact Ha|apply Hle; left; reflexivity].
      * eapply Qle_trans; [exact Hb|apply Hle; left; reflexivity].
      * apply Hle. right. exact Hx.
Qed.

Lemma linspace_length (start stop : Q) (num : nat) :
  List.length (linspace start stop num) = num.
Proof.
  destruct num as [|[|n]]; simpl; try reflexivity.
  rewrite length_map, length_seq. reflexivity.
Qed.

Lemma linspace_nth (start stop : Q) (num i : nat) :
  (2 <= num)%nat -> (i < num)%nat ->
  nth i (linspace start stop num) 0 = grid_point start stop num i.
Proof.
  intros Hn Hi. destruct num as [|[|n]]; try lia.
  unfold linspace.
  rewrite (nth_indep _ 0 ((fun i => grid_point start stop (S (S n)) i) 0%nat))
    by (rewrite length_map, length_seq; exact Hi).
  rewrite (map_nth (fun i => grid_point start stop (S (S n)) i)).
  rewrite seq_nth by exact Hi. reflexivity.
Qed.

Lemma Qnat_pos (n : nat) : (0 < n)%nat -> 0 < Qnat n.
Proof.
  intros H. unfold Qnat, Qlt. simpl. lia.
Qed.

Lemma Qnat_lt (i j : nat) : (i < j)%nat -> Qnat i < Qnat j.
Proof. intros H. unfold Qnat, Qlt. simpl. lia. Qed.

Lemma Qnat_le (i j : nat) : (i <= j)%nat -> Qnat i <= Qnat j.
Proof. intros H. unfold Qnat, Qle. simpl. lia. Qed.

(** Every grid point lies on the line from [start] to [stop]. *)
Lemma grid_point_affine (start stop : Q) (num i : nat) :
  (2 <= num)%nat -> (i < num)%nat ->
  grid_point start stop num i == start + Qnat i * ((stop - start) / Qnat (num - 1)).
Proof.
  intros Hn Hi. unfold grid_point.
  destruct (i =? num - 1)%nat eqn:E.
  - apply Nat.eqb_eq in E. subst i.
    assert (0 < Qnat (num - 1)) as Hp by (apply Qnat_pos; lia).
    field. intros Hz. rewrite Hz in Hp. apply (Qlt_irrefl 0). exact Hp.
  - ring.
Qed.

Lemma step_nonneg (start stop : Q) (n : nat) :
  (0 < n)%nat -> start <= stop -> 0 <= (stop - start) / Qnat n.
Proof.
  intros Hn H. unfold Qdiv. apply Qmult_le_0_compat; [lra|].
  apply Qinv_le_0_compat. apply Qlt_le_weak. apply Qnat_pos. exact Hn.
Qed.

Lemma step_pos (start stop : Q) (n : nat) :
  (0 < n)%nat -> start < stop -> 0 < (stop - start) / Qnat n.
Proof.
  intros Hn H. unfold Qdiv. apply Qmult_lt_0_compat; [lra|].
  apply Qinv_lt_0_compat. apply Qnat_pos. exact Hn.
Qed.

Lemma grid_point_le (start stop : Q) (num i j : nat) :
  (2 <= num)%nat -> (i < j)%nat -> (j < num)%nat -> start <= stop ->
  grid_point start stop num i <= grid_point start stop num j.
Proof.
  intros Hn Hij Hj H.
  rewrite !grid_point_affine by lia.
  pose proof (step_nonneg start stop (num - 1) ltac:(lia) H) as Hs.
  pose proof (Qnat_le i j ltac:(lia)) as Hq.
  pose proof (Qmult_le_compat_r _ _ _ Hq Hs). lra.
Qed.

Lemma grid_point_lt (start stop : Q) (num i j : nat) :
  (2 <= num)%nat -> (i < j)%nat -> (j < num)%nat -> start < stop ->
  grid_point start stop num i < grid_point start stop num j.
Proof.
  intros Hn Hij Hj H.
  rewrite !grid_point_affine by lia.
  pose proof (step_pos start stop (num - 1) ltac:(lia) H) as Hs.
  pose proof (Qnat_lt i j Hij) as Hq.
  pose proof (Qmult_lt_compat_r _ _ _ Hs Hq). lra.
Qed.

Lemma sorted_map_seq (R : Q -> Q -> Prop) (g : nat -> Q) (n : nat) :
  forall a,
    (forall i j, (a <= i)%nat -> (i < j)%nat -> (j < a + n)%nat -> R (g i) (g j)) ->
    StronglySorted R (map g (seq a n)).
Proof.
  induction n as [|n IH]; intros a H; simpl; [constructor|].
  constructor.
  - apply IH. intros i j Hi Hij Hj. apply H; lia.
  - apply Forall_forall. intros x Hx. apply in_map_iff in Hx.
    destruct Hx as (j & <- & Hj). apply in_seq in Hj. apply H; lia.
Qed.

Lemma linspace_nondecreasing (start stop : Q) (num : nat) :
  start <= stop -> StronglySorted Qle (linspace start stop num).
Proof.
  intros H. destruct num as [|[|n]].
  - constructor.
  - repeat constructor.
  - change (linspace start stop (S (S n)))
      with (map (grid_point start stop (S (S n))) (seq 0 (S (S n)))).
    apply sorted_map_seq. intros i j _ Hij Hj. apply grid_point_le; auto; lia.
Qed.

Lemma linspace_ascending (start stop : Q) (num : nat) :
  start < stop -> StronglySorted Qlt (linspace start stop num).
Proof.
  intros H. destruct num as [|[|n]].
  - constructor.
  - repeat constructor.
  - change (linspace start stop (S (S n)))
      with (map (grid_point start stop (S (S n))) (seq 0 (S (S n)))).
    apply sorted_map_seq. intros i j _ Hij Hj. apply grid_point_lt; auto; lia.
Qed.

(** On an overlap of zero width every grid point is the one key of the
    overlap: the grid has [num] points, not none. *)
Lemma linspace_degenerate (start stop : Q) (num : nat) :
  start == stop -> Forall (fun g => g == start) (linspace start stop num).
Proof.
  intros H. destruct num as [|[|n]].
  - constructor.
  - constructor; [reflexivity|constructor].
  - change (linspace start stop (S (S n)))
      with (map (grid_point start stop (S (S n))) (seq 0 (S (S n)))).
    apply Forall_forall. intros x Hx. apply in_map_iff in Hx.
    destruct Hx as (i & <- & Hi). apply in_seq in Hi.
    rewrite grid_point_affine by lia.
    assert (0 < Qnat (S (S n) - 1)) as Hp by (apply Qnat_pos; lia).
    rewrite H. field. intros Hz. rewrite Hz in Hp. apply (Qlt_irrefl 0). exact Hp.
Qed.

Lemma linspace_ends (start stop : Q) (num : nat) :
  (2 <= num)%nat ->
  nth 0 (linspace start stop num) 0 == start
  /\ nth (num - 1) (linspace start stop num) 0 = stop.
Proof.
  intros Hn. rewrite !linspace_nth by lia. split.
  - rewrite grid_point_affine by lia. unfold Qnat at 1. simpl. ring.
  - unfold grid_point. rewrite Nat.eqb_refl. reflexivity.
Qed.

(** *** Linear interpolation *)

Lemma sorted_nth (R : Q -> Q -> Prop) (l : list Q) :
  StronglySorted R l ->
  forall i j, (i < j)%nat -> (j < List.length l)%nat -> R (nth i l 0) (nth j l 0).
Proof.
  induction 1 as [|a l Hl IH Ha]; intros i j Hij Hj; simpl in Hj; [lia|].
  destruct j as [|j]; [lia|]. destruct i as [|i]; simpl.
  - rewrite Forall_forall in Ha. apply Ha. apply nth_In. lia.
  - apply IH; lia.
Qed.

Lemma searchsorted_cons (a : Q) (l : list Q) (v : Q) :
  searchsorted (a :: l) v
  = if FloatModel.Qlt_bool a v then S (searchsorted l v) else searchsorted l v.
Proof. unfold searchsorted. simpl. destruct (FloatModel.Qlt_bool a v); reflexivity. Qed.

Lemma searchsorted_none_below (l : list Q) (v : Q) :
  Forall (fun x => v <= x) l -> searchsorted l v = 0%nat.
Proof.
  induction 1 as [|a l Ha Hl IH]; [reflexivity|].
  rewrite searchsorted_cons, IH.
  rewrite (proj2 (Qlt_bool_false_iff a v) Ha). reflexivity.
Qed.

(** On keys in order, [searchsorted] splits them into those below [v] and
    the others. *)
Lemma searchsorted_spec (l : list Q) (v : Q) :
  StronglySorted Qle l ->
  (searchsorted l v <= List.length l)%nat
  /\ (forall i, (i < searchsorted l v)%nat -> nth i l 0 < v)
  /\ (forall i, (searchsorted l v <= i)%nat -> (i < List.length l)%nat -> v <= nth i l 0).
Proof.
  induction 1 as [|a l Hl IH Ha].
  { unfold searchsorted. simpl. split; [lia|]. split; intros i Hi; [lia|]. intros Hi2. lia. }
  rewrite searchsorted_cons. destruct IH as (Hb & Hlt & Hge).
  destruct (FloatModel.Qlt_bool a v) eqn:E.
  - apply Qlt_bool_iff in E. simpl. split; [lia|]. split.
    + intros [|i] Hi; [exact E|]. apply Hlt. lia.
    + intros [|i] Hi Hi2; [lia|]. apply Hge; lia.
  - apply Qlt_bool_false_iff in E.
    assert (Forall (fun x => v <= x) l) as Hall.
    { eapply Forall_impl; [|exact Ha]. intros x Hx. simpl in Hx. lra. }
    rewrite (searchsorted_none_below l v Hall). simpl. split; [lia|]. split.
    + intros i Hi. lia.
    + intros [|i] _ Hi; [exact E|]. rewrite Forall_forall in Hall.
      apply Hall. apply nth_In. lia.
Qed.

Lemma sorted_lt_le (l : list Q) : StronglySorted Qlt l -> StronglySorted Qle l.
Proof.
  induction 1 as [|a l Hl IH Ha]; constructor; [exact IH|].
  eapply Forall_impl; [|exact Ha]. intros x Hx. apply Qlt_le_weak. exact Hx.
Qed.

(** [call_linear] on samples with ascending keys: the value is a number,
    the one on the line through two neighbouring samples; these are the
    two around [x_new] when it lies in the range of the keys, and the
    first two or the last two when it lies outside. *)
Lemma call_linear_spec (samples : list (Q * Q)) (x_new : Q) :
  (2 <= List.length samples)%nat ->
  StronglySorted Qlt (map fst samples) ->
  exists i,
    (S i < List.length samples)%nat
    /\ call_linear samples x_new
       = Fin (line_through (nth i samples (0, 0)) (nth (S i) samples (0, 0)) x_new)
    /\ (i = 0%nat \/ fst (nth i samples (0, 0)) < x_new)
    /\ (S i = (List.length samples - 1)%nat \/ x_new <= fst (nth (S i) samples (0, 0))).
Proof.
  intros Hn Hs.
  set (n := List.length samples) in *.
  set (k := searchsorted (map fst samples) x_new).
  destruct (searchsorted_spec (map fst samples) x_new (sorted_lt_le _ Hs))
    as (Hk & Hlt & Hge).
  fold k in Hk, Hlt, Hge. rewrite length_map in Hk, Hge. fold n in Hk, Hge.
  assert (forall i, nth i (map fst samples) 0 = fst (nth i samples (0, 0))) as Hnth.
  { intros i. apply (map_nth fst samples (0, 0) i). }
  set (hi := clip_index k n).
  assert (1 <= hi /\ hi <= n - 1)%nat as [Hh1 Hh2] by (unfold hi, clip_index; lia).
  destruct hi as [|i] eqn:Ehi; [lia|].
  exists i. split; [lia|]. split; [|split].
  - unfold call_linear. fold n k. fold (clip_index k n). change (clip_index k n) with hi.
    rewrite Ehi.
    pose proof (sorted_nth Qlt (map fst samples) Hs i (S i)) as Hstrict.
    rewrite !Hnth, length_map in Hstrict. specialize (Hstrict ltac:(lia) ltac:(fold n; lia)).
    unfold line_through.
    destruct (nth i samples (0, 0)) as [x_lo y_lo].
    destruct (nth (S i) samples (0, 0)) as [x_hi y_hi]. simpl in Hstrict |- *.
    assert (Qeq_bool (x_hi - x_lo) 0 = false) as ->; [|reflexivity].
    destruct (Qeq_bool (x_hi - x_lo) 0) eqn:E; [|reflexivity].
    apply Qeq_bool_iff in E. lra.
  - destruct i as [|i]; [left; reflexivity|]. right.
    rewrite <- Hnth. apply Hlt. unfold hi, clip_index in Ehi. lia.
  - destruct (Nat.eq_dec (S i) (n - 1)) as [He|Hne]; [left; exact He|]. right.
    rewrite <- Hnth. apply Hge; [unfold hi, clip_index in Ehi; lia|lia].
Qed.

Lemma insert_sample_head (p : Q * Q) (l : list (Q * Q)) :
  Forall (fun q => fst p <= fst q) l -> insert_sample p l = p :: l.
Proof.
  destruct l as [|y l]; [reflexivity|]. intros H. simpl.
  inversion H as [|? ? Hy _]; subst.
  rewrite (proj2 (Qle_bool_iff _ _) Hy). reflexivity.
Qed.

(** Samples whose keys are already ascending stay as they are. *)
Lemma sort_samples_fixed (l : list (Q * Q)) :
  StronglySorted Qlt (map fst l) -> sort_samples l = l.
Proof.
  induction l as [|p l IH]; intros H; simpl in *; [reflexivity|].
  inversion H as [|? ? Hl Hp]; subst. rewrite (IH Hl).
  apply insert_sample_head. apply Forall_forall. intros q Hq.
  rewrite Forall_forall in Hp. apply Qlt_le_weak. apply Hp. apply in_map. exact Hq.
Qed.

Lemma map_fst_combine (x y : list Q) :
  List.length x = List.length y -> map fst (combine x y) = x.
Proof.
  revert y. induction x as [|a x IH]; intros [|b y] H; simpl in *; try reflexivity;
    try discriminate.
  injection H as H. rewrite (IH y H). reflexivity.
Qed.

(** *** The aligned pair *)

Lemma interp1d_some (x y : list Q) :
  x <> [] -> List.length y = List.length x ->
  interp1d x y = Some (call_linear (sort_samples (combine x y))).
Proof.
  intros Hx Hy. unfold interp1d.
  destruct x as [|a x]; [congruence|].
  rewrite Hy, Nat.eqb_refl. reflexivity.
Qed.

Lemma interp_columns_spec (keep : string -> bool) (x grid : list Q)
      (cols : list (string * list Q)) :
  x <> [] ->
  Forall (fun c => List.length (snd c) = List.length x) cols ->
  interp_columns keep x cols grid
  = Some (map (on_grid x grid) (filter (fun c => keep (fst c)) cols)).
Proof.
  intros Hx. induction 1 as [|[nm y] cols Hc Hcols IH]; simpl; [reflexivity|].
  destruct (keep nm).
  - simpl in Hc. rewrite (interp1d_some x y Hx Hc), IH. reflexivity.
  - exact IH.
Qed.

(** C3 fails as stated: an overlap of zero width does not give an empty
    pair; the grid repeats the one key of the overlap [M] times and both
    frames are evaluated there. *)
Lemma C3_zero_width_overlap_is_not_empty :
  common_grid ref_touching sim_touching = [1; 1]
  /\ exists ref_i sim_i,
      interpolate_to_common_grid ref_touching sim_touching = Some (ref_i, sim_i)
      /\ x_common ref_i = [1; 1] /\ x_common sim_i = [1; 1]
      /\ interpolated ref_i = [("QP_1e12_erg"%string, [Fin 20; Fin 20])]
      /\ interpolated sim_i = [("QP_1e12_erg"%string, [Fin 21; Fin 21])]
      /\ x_common ref_i <> [].
Proof.
  split; [reflexivity|].
  eexists. eexists. split; [vm_compute; reflexivity|].
  repeat split. discriminate.
Qed.

(** C3, amended.  For two frames with at least one row each (and columns
    as long as their key column): the grid has M = min(len(reference),
    len(simulation), 100) points, at least one; it starts at the greater of
    the two least keys and, for M >= 2, ends at the lesser of the two
    greatest keys; it is ascending when that overlap has positive width,
    and an overlap of zero width gives M copies of its one key, not an
    empty pair.  The call returns the pair of frames on that grid: every
    numeric column of the reference, and every numeric column of the
    simulation that the reference also has, evaluated by the linear
    interpolant of its frame.  On ascending keys the interpolant's value
    at any point is the number on the line through two neighbouring
    samples: those around the point inside the key range, the first or
    last two outside it. *)
Theorem C3_common_grid_interpolation
        (ref_data sim_data : frame) (r s : Q) (rs ss : list Q)
        (Hr : index ref_data = r :: rs) (Hs : index sim_data = s :: ss)
        (Hwr : well_formed ref_data) (Hws : well_formed sim_data) :
  let x_min := Qmax (col_min r rs) (col_min s ss) in
  let x_max := Qmin (col_max r rs) (col_max s ss) in
  let M := n_points ref_data sim_data in
  let grid := common_grid ref_data sim_data in
  M = Nat.min (Nat.min (List.length (index ref_data)) (List.length (index sim_data))) 100
  /\ (1 <= M)%nat
  /\ List.length grid = M
  /\ (In (col_min r rs) (index ref_data)
      /\ forall x, In x (index ref_data) -> col_min r rs <= x <= col_max r rs)
  /\ (In (col_min s ss) (index sim_data)
      /\ forall x, In x (index sim_data) -> col_min s ss <= x <= col_max s ss)
  /\ (M = 1%nat -> grid = [x_min])
  /\ ((2 <= M)%nat -> nth 0 grid 0 == x_min /\ nth (M - 1) grid 0 = x_max)
  /\ (x_min <= x_max -> StronglySorted Qle grid)
  /\ (x_min < x_max -> StronglySorted Qlt grid)
  /\ (x_min == x_max -> grid <> [] /\ Forall (fun g => g == x_min) grid)
  /\ (exists ref_i sim_i,
        interpolate_to_common_grid ref_data sim_data = Some (ref_i, sim_i)
        /\ x_common ref_i = grid /\ x_common sim_i = grid
        /\ interpolated ref_i = map (on_grid (index ref_data) grid) (columns ref_data)
        /\ interpolated sim_i
           = map (on_grid (index sim_data) grid)
                 (filter (fun c => has_column (fst c) ref_data)
                         (columns sim_data)))
  /\ (forall x y, StronglySorted Qlt x -> List.length y = List.length x ->
        sort_samples (combine x y) = combine x y)
  /\ (forall samples x_new,
        (2 <= List.length samples)%nat -> StronglySorted Qlt (map fst samples) ->
        exists i,
          (S i < List.length samples)%nat
          /\ call_linear samples x_new
             = Fin (line_through (nth i samples (0, 0)) (nth (S i) samples (0, 0)) x_new)
          /\ (i = 0%nat \/ fst (nth i samples (0, 0)) < x_new)
          /\ (S i = (List.length samples - 1)%nat
              \/ x_new <= fst (nth (S i) samples (0, 0)))).
Proof.
  intros x_min x_max M grid.
  assert (grid = linspace x_min x_max M) as Hgrid.
  { unfold grid, common_grid. rewrite Hr, Hs. reflexivity. }
  assert (1 <= M)%nat as HM.
  { unfold M, n_points. rewrite Hr, Hs. simpl. lia. }
  split; [reflexivity|].
  split; [exact HM|].
  split; [rewrite Hgrid; apply linspace_length|].
  split.
  { rewrite Hr. destruct (col_min_spec rs r) as [Hin Hle].
    destruct (col_max_spec rs r) as [_ Hge].
    split; [exact Hin|]. intros x Hx. split; [apply Hle|apply Hge]; exact Hx. }
  split.
  { rewrite Hs. destruct (col_min_spec ss s) as [Hin Hle].
    destruct (col_max_spec ss s) as [_ Hge].
    split; [exact Hin|]. intros x Hx. split; [apply Hle|apply Hge]; exact Hx. }
  split; [intros H1; rewrite Hgrid, H1; reflexivity|].
  split; [intros H2; rewrite Hgrid; apply linspace_ends; exact H2|].
  split; [intros H; rewrite Hgrid; apply linspace_nondecreasing; exact H|].
  split; [intros H; rewrite Hgrid; apply linspace_ascending; exact H|].
  split.
  { intros H. split.
    - intros He. apply (f_equal (@List.length Q)) in He.
      rewrite Hgrid, linspace_length in He. simpl in He. lia.
    - rewrite Hgrid. apply linspace_degenerate. exact H. }
  split.
  { unfold interpolate_to_common_grid. fold grid.
    assert (index ref_data <> []) as Hnr by (rewrite Hr; discriminate).
    assert (index sim_data <> []) as Hns by (rewrite Hs; discriminate).
    rewrite (interp_columns_spec (fun _ => true) (index ref_data) grid
               (columns ref_data) Hnr Hwr).
    rewrite (interp_columns_spec (fun nm => has_column nm ref_data)
               (index sim_data) grid (columns sim_data) Hns Hws).
    eexists. eexists. split; [reflexivity|]. simpl.
    split; [reflexivity|]. split; [reflexivity|]. split; [|reflexivity].
    f_equal. clear. induction (columns ref_data) as [|c l IH]; simpl; [reflexivity|].
    rewrite IH. reflexivity. }
  split.
  { intros x y Hx Hy. apply sort_samples_fixed.
    rewrite map_fst_combine by (symmetry; exact Hy). exact Hx. }
  intros samples x_new. apply call_linear_spec.
Qed.

Lemma C3_overlap_witness :
  Forall2 Qeq (common_grid ref_overlap sim_overlap) [1; 2; 3]
  /\ StronglySorted Qlt (common_grid ref_overlap sim_overlap)
  /\ exists ref_i sim_i,
      interpolate_to_common_grid ref_overlap sim_overlap = Some (ref_i, sim_i)
      /\ interpolated ref_i
         = map (on_grid (index ref_overlap) (common_grid ref_overlap sim_overlap))
               (columns ref_overlap).
Proof.
  assert (well_formed ref_overlap) as Hwr by (repeat constructor).
  assert (well_formed sim_overlap) as Hws by (repeat constructor).
  pose proof (C3_common_grid_interpolation ref_overlap sim_overlap 0 1 [1; 3] [2; 4]
                eq_refl eq_refl Hwr Hws)
    as (_ & _ & _ & _ & _ & _ & _ & _ & Hasc & _ & (ref_i & sim_i & Hi & _ & _ & Hc & _) & _).
  split; [vm_compute; repeat (constructor; try reflexivity)|].
  split; [apply Hasc; reflexivity|].
  exists ref_i, sim_i. split; [exact Hi|exact Hc].
Defined.

End GridFacts.

(** ** The fragment loops of the table parsers *)

Module ParserFacts.

Import FragmentTerms.
Import FloatModel PyStr ParseLatex.
Local Open Scope string_scope.

Lemma next_is_exponent_bound (parts : list string) (i : nat) :
  next_is_exponent parts i = true -> (i + 1 < List.length parts)%nat.
Proof.
  unfold next_is_exponent. intros H. apply andb_true_iff in H.
  destruct H as [H _]. apply Nat.ltb_lt in H. exact H.
Qed.

Lemma time_step_advance (parts : list string) (i : nat) :
  (i < List.length parts)%nat ->
  (i < snd (time_step parts i) <= List.length parts)%nat.
Proof.
  intros Hi. unfold time_step.
  destruct ((len (strip (get parts i)) <=? 2)%nat && isdigit (strip (get parts i))).
  - destruct ((i + 1 <? List.length parts)%nat && startswith "." (get parts (i + 1))) eqn:E1.
    + apply andb_true_iff in E1. destruct E1 as [E1 _]. apply Nat.ltb_lt in E1.
      destruct (next_is_exponent parts (i + 1)) eqn:E2.
      * apply next_is_exponent_bound in E2. simpl. lia.
      * simpl. lia.
    + simpl. lia.
  - destruct (startswith "." (strip (get parts i)) || contains "E" (upper (strip (get parts i)))).
    + destruct (next_is_exponent parts i) eqn:E2.
      * apply next_is_exponent_bound in E2. simpl. lia.
      * simpl. lia.
    + destruct (is_complete_mantissa (strip (get parts i))).
      * destruct ((i + 1 <? List.length parts)%nat
                  && is_signed_two_digits (strip (get parts (i + 1)))) eqn:E3.
        -- apply andb_true_iff in E3. destruct E3 as [E3 _]. apply Nat.ltb_lt in E3.
           simpl. lia.
        -- simpl. lia.
      * simpl. lia.
Qed.

Lemma time_loop_exit (parts : list string) (fuel : nat) :
  forall i reconstructed,
    (i <= List.length parts)%nat -> (List.length parts - i <= fuel)%nat ->
    fst (time_loop fuel parts i reconstructed) = List.length parts
    /\ (List.length (snd (time_loop fuel parts i reconstructed))
        <= List.length reconstructed + (List.length parts - i))%nat
    /\ exists added, snd (time_loop fuel parts i reconstructed) = (reconstructed ++ added)%list.
Proof.
  induction fuel as [|fuel IH]; intros i acc Hi Hf; simpl.
  - split; [lia|]. split; [lia|]. exists []. rewrite app_nil_r. reflexivity.
  - destruct (i <? List.length parts)%nat eqn:E.
    + apply Nat.ltb_lt in E.
      pose proof (time_step_advance parts i E) as Ha.
      destruct (time_step parts i) as [out i']. simpl in Ha.
      destruct (IH i' (match out with Some v => (acc ++ [v])%list | None => acc end))
        as [H1 [H2 [added H3]]]; [lia|lia|].
      split; [exact H1|]. split.
      * eapply Nat.le_trans; [exact H2|].
        destruct out; [rewrite length_app; simpl|]; lia.
      * destruct out as [v|].
        -- exists (v :: added). rewrite H3, <- app_assoc. reflexivity.
        -- exists added. exact H3.
    + apply Nat.ltb_ge in E. simpl. split; [lia|]. split; [lia|].
      exists []. rewrite app_nil_r. reflexivity.
Qed.

(** X1: the fragment loop of [parse_time_series_table] leaves by its own
    condition: every turn moves the offset forward and never past the end,
    so the loop stops with the offset at [len(parts)], and it has rebuilt
    at most one number per fragment. *)
Theorem time_fragments_are_all_consumed (parts : list string) :
  fst (reconstruct_time parts) = List.length parts
  /\ (List.length (snd (reconstruct_time parts)) <= List.length parts)%nat
  /\ forall i, (i < List.length parts)%nat ->
       (i < snd (time_step parts i) <= List.length parts)%nat.
Proof.
  unfold reconstruct_time.
  destruct (time_loop_exit parts (List.length parts) 0 []) as [H1 [H2 _]]; [lia|lia|].
  split; [exact H1|]. split; [simpl in H2; lia|].
  apply time_step_advance.
Qed.

Lemma spatial_step_advance (parts : list string) (i : nat) :
  (i < List.length parts)%nat ->
  (i < snd (spatial_step parts i) <= List.length parts)%nat.
Proof.
  intros Hi. unfold spatial_step.
  destruct (next_is_exponent parts i) eqn:E.
  - apply next_is_exponent_bound in E. simpl. lia.
  - simpl. lia.
Qed.

Lemma spatial_loop_exit (parts : list string) (fuel : nat) :
  forall i values j out,
    (i <= List.length parts)%nat -> (List.length parts - i <= fuel)%nat ->
    (List.length values <= 6)%nat ->
    spatial_loop fuel parts i values = Some (j, out) ->
    (i <= j <= List.length parts)%nat
    /\ (List.length out <= 6)%nat
    /\ (j = List.length parts \/ List.length out = 6%nat)
    /\ (List.length out <= List.length values + (j - i))%nat
    /\ exists added, out = (values ++ added)%list.
Proof.
  induction fuel as [|fuel IH]; intros i values j out Hi Hf Hv H; simpl in H.
  - injection H as <- <-. split; [lia|]. split; [exact Hv|]. split; [left; lia|].
    split; [lia|]. exists []. rewrite app_nil_r. reflexivity.
  - destruct ((i <? List.length parts)%nat && (List.length values <? 6)%nat) eqn:E.
    + apply andb_true_iff in E. destruct E as [E1 E2].
      apply Nat.ltb_lt in E1. apply Nat.ltb_lt in E2.
      pose proof (spatial_step_advance parts i E1) as Ha.
      destruct (spatial_step parts i) as [txt i']. simpl in Ha.
      destruct (float txt) as [v|]; [|discriminate].
      destruct (IH i' (values ++ [v])%list j out) as [H1 [H2 [H3 [H4 [added H5]]]]];
        [lia|lia|rewrite length_app; simpl; lia|exact H|].
      rewrite length_app in H4. simpl in H4.
      split; [lia|]. split; [exact H2|]. split; [exact H3|]. split; [lia|].
      exists (v :: added). rewrite H5, <- app_assoc. reflexivity.
    + injection H as <- <-. apply andb_false_iff in E.
      split; [lia|]. split; [exact Hv|]. split.
      * destruct E as [E|E]; [apply Nat.ltb_ge in E; left; lia|].
        apply Nat.ltb_ge in E. right. lia.
      * split; [lia|]. exists []. rewrite app_nil_r. reflexivity.
Qed.

(** X2: when the fragment loop of [parse_spatial_table] ends without a
    [float] error, it has left by its own condition: the offset is within
    the fragments, at most six values were read, never more than one per
    fragment passed, and either every fragment was used or six values are
    there. *)
Theorem spatial_fragments_stop_at_six_values
        (parts : list string) (i : nat) (values : list fval)
        (H : reconstruct_spatial parts = Some (i, values)) :
  (i <= List.length parts)%nat
  /\ (List.length values <= 6)%nat
  /\ (List.length values <= i)%nat
  /\ (i = List.length parts \/ List.length values = 6%nat).
Proof.
  unfold reconstruct_spatial in H.
  destruct (spatial_loop_exit parts (List.length parts) 0 [] i values)
    as [H1 [H2 [H3 [H4 _]]]]; [lia|lia|simpl; lia|exact H|].
  simpl in H4. split; [lia|]. split; [exact H2|]. split; [lia|exact H3].
Qed.

Lemma spatial_fragments_witness :
  exists i values,
    reconstruct_spatial spatial_cells = Some (i, values)
    /\ (i <= List.length spatial_cells)%nat
    /\ (List.length values <= 6)%nat
    /\ (List.length values <= i)%nat
    /\ (i = List.length spatial_cells \/ List.length values = 6%nat).
Proof.
  eexists. eexists. split; [vm_compute; reflexivity|].
  apply (spatial_fragments_stop_at_six_values spatial_cells).
  vm_compute. reflexivity.
Defined.

End ParserFacts.

(** ** Rows of the table parsers *)

Module TableFacts.

Import FloatModel PyStr ParseLatex.

Lemma floats_length (l : list string) :
  forall xs, floats l = Some xs -> List.length xs = List.length l.
Proof.
  induction l as [|v l IH]; intros xs H; simpl in H.
  - injection H as <-. reflexivity.
  - destruct (float v) as [x|]; [|discriminate].
    destruct (floats l) as [ys|]; [|discriminate].
    injection H as <-. simpl. rewrite (IH ys eq_refl). reflexivity.
Qed.

Lemma time_series_row_length (parts : list string) (row : list fval) :
  time_series_row parts = Some row -> List.length row = 6%nat.
Proof.
  unfold time_series_row.
  destruct (6 <=? List.length (snd (reconstruct_time parts)))%nat eqn:E; [|discriminate].
  apply Nat.leb_le in E. intros H. apply floats_length in H.
  rewrite H. apply firstn_length_le. exact E.
Qed.

Lemma spatial_row_length (parts : list string) (row : list fval) :
  spatial_row parts = Some row -> List.length row = 6%nat.
Proof.
  unfold spatial_row.
  destruct (6 <=? List.length parts)%nat; [|discriminate].
  destruct (reconstruct_spatial parts) as [[j values]|]; [|discriminate].
  destruct (List.length values =? 6)%nat eqn:E; [|discriminate].
  apply Nat.eqb_eq in E. intros H. injection H as <-. exact E.
Qed.

Lemma collect_rows_In (f : string -> option (list fval)) (lines : list string)
      (row : list fval) :
  In row (collect_rows f lines) <-> exists line, In line lines /\ f line = Some row.
Proof.
  induction lines as [|l lines IH]; simpl.
  - split; [contradiction|]. intros [line [[] _]].
  - destruct (f l) as [r|] eqn:E; simpl; rewrite IH; split.
    + intros [<-|[line [Hl Hf]]]; [exists l; auto|exists line; auto].
    + intros [line [[<-|Hl] Hf]]; [left; congruence|right; exists line; auto].
    + intros [line [Hl Hf]]. exists line; auto.
    + intros [line [[<-|Hl] Hf]]; [congruence|exists line; auto].
Qed.

Lemma collect_rows_app (f : string -> option (list fval)) (l1 l2 : list string) :
  collect_rows f (l1 ++ l2) = collect_rows f l1 ++ collect_rows f l2.
Proof.
  induction l1 as [|l l1 IH]; simpl; [reflexivity|].
  destruct (f l); simpl; rewrite IH; reflexivity.
Qed.

Lemma firstn_plus (A : Type) (n m : nat) :
  forall l : list A, firstn (n + m) l = firstn n l ++ firstn m (skipn n l).
Proof.
  induction n as [|n IH]; intros l; [reflexivity|].
  destruct l as [|x l]; simpl; [rewrite firstn_nil; reflexivity|].
  rewrite IH. reflexivity.
Qed.

Lemma slice_split (A : Type) (l : list A) (a b c : nat) :
  (a <= b)%nat -> (b <= c)%nat -> slice l a c = slice l a b ++ slice l b c.
Proof.
  intros Hab Hbc. unfold slice.
  replace (c - a)%nat with ((b - a) + (c - b))%nat by lia.
  rewrite firstn_plus, skipn_skipn.
  replace (b - a + a)%nat with b by lia. reflexivity.
Qed.

(** X3: every row the two table parsers emit holds exactly six numbers. *)
Theorem table_rows_have_six_values (latex_lines : list string) (start_line end_line : nat) :
  Forall (fun row => List.length row = 6%nat)
         (parse_time_series_table latex_lines start_line end_line)
  /\ Forall (fun row => List.length row = 6%nat)
            (parse_spatial_table latex_lines start_line end_line).
Proof.
  split; apply Forall_forall; intros row H;
    apply collect_rows_In in H; destruct H as [line [_ H]].
  - unfold parse_time_series_line in H.
    destruct (String.eqb (strip line) "" || contains_any time_skip_words (strip line));
      [discriminate|].
    eapply time_series_row_length. exact H.
  - unfold parse_spatial_line in H.
    destruct (String.eqb (strip line) "" || contains_any spatial_skip_words (strip line));
      [discriminate|].
    eapply spatial_row_length. exact H.
Qed.

(** X4: the table parsers work line by line and carry nothing from one
    line to the next: the rows of a range of lines are the rows of its
    first part followed by the rows of the rest. *)
Theorem table_rows_of_a_range_split
        (latex_lines : list string) (a b c : nat)
        (Hab : (a <= b)%nat) (Hbc : (b <= c)%nat) :
  parse_time_series_table latex_lines a c
  = parse_time_series_table latex_lines a b ++ parse_time_series_table latex_lines b c
  /\ parse_spatial_table latex_lines a c
     = parse_spatial_table latex_lines a b ++ parse_spatial_table latex_lines b c.
Proof.
  unfold parse_time_series_table, parse_spatial_table.
  rewrite (slice_split _ latex_lines a b c Hab Hbc), !collect_rows_app. split; reflexivity.
Qed.

Lemma table_rows_split_witness :
  parse_time_series_table [ReconstructTerms.text_240; ReconstructTerms.text_split_Ol;
                           ReconstructTerms.text_240] 0 3
  = parse_time_series_table [ReconstructTerms.text_240; ReconstructTerms.text_split_Ol;
                             ReconstructTerms.text_240] 0 1
    ++ parse_time_series_table [ReconstructTerms.text_240; ReconstructTerms.text_split_Ol;
                                ReconstructTerms.text_240] 1 3.
Proof.
  apply (table_rows_of_a_range_split
           [ReconstructTerms.text_240; ReconstructTerms.text_split_Ol;
            ReconstructTerms.text_240] 0 1 3); lia.
Defined.

End TableFacts.

(** ** Table blocks *)

Module BlockFacts.

Import BlockTerms.
Import FloatModel PyStr ParseLatex TableBlocks.
Local Open Scope string_scope.

Lemma sorted_snoc (A : Type) (R : A -> A -> Prop) (l : list A) (b : A) :
  StronglySorted R l -> Forall (fun x => R x b) l -> StronglySorted R (l ++ [b]).
Proof.
  induction 1 as [|a l Hl IH Ha]; intros Hb; simpl.
  - constructor; constructor.
  - inversion Hb as [|? ? Hab Hlb]; subst.
    constructor; [apply IH; exact Hlb|].
    apply Forall_app. split; [exact Ha|]. constructor; [exact Hab|constructor].
Qed.

Lemma scan_line_scanned (lines : list string) (i : nat) (line : string) (st : scan_state) :
  (i < List.length lines)%nat -> nth i lines "" = line ->
  scanned lines i st -> scanned lines (S i) (scan_line lines st i line).
Proof.
  intros Hi Hline [Hb [Hs Ht]]. unfold scan_line.
  assert (Forall (fun b => well_placed lines b /\ (snd b <= S i)%nat) (table_blocks st)) as Hb'.
  { eapply Forall_impl; [|exact Hb]. intros b [H1 H2]. split; [exact H1|lia]. }
  assert (scanned lines (S i) st) as Hsame.
  { split; [exact Hb'|]. split; [exact Hs|].
    intros Hin. destruct (Ht Hin) as [s [H1 [H2 H3]]].
    exists s. split; [exact H1|]. split; [lia|exact H3]. }
  destruct (contains "\begin{tabular}" line && negb (in_table st)) eqn:E1.
  - destruct (geneve10_context lines i) eqn:E2; [|exact Hsame].
    apply andb_true_iff in E1. destruct E1 as [E1 _].
    split; [exact Hb'|]. split; [exact Hs|]. simpl. intros _.
    exists i. split; [reflexivity|]. split; [lia|].
    split; [rewrite Hline; exact E1|]. split; [exact E2|].
    eapply Forall_impl; [|exact Hb]. intros b [_ H]. exact H.
  - destruct (contains "\end{tabular}" line && in_table st) eqn:E3; [|exact Hsame].
    apply andb_true_iff in E3. destruct E3 as [E3 Hin].
    destruct (Ht Hin) as [s [H1 [H2 [H3 [H4 H5]]]]].
    simpl. split; [|split; [|discriminate]].
    + apply Forall_app. split; [exact Hb'|].
      constructor; [|constructor]. simpl. split; [|lia].
      exists s. simpl. split; [exact H1|]. split; [lia|]. split; [lia|].
      split; [exact H3|]. split; [exact H4|].
      replace (i + 1 - 1)%nat with i by lia. rewrite Hline. exact E3.
    + apply sorted_snoc; [exact Hs|].
      eapply Forall_impl; [|exact H5]. intros b H. unfold apart. simpl.
      rewrite H1. simpl. exact H.
Qed.

Lemma scan_lines_scanned (lines : list string) (rest : list string) :
  forall pre st,
    lines = (pre ++ rest)%list ->
    scanned lines (List.length pre) st ->
    scanned lines (List.length lines) (scan_lines lines (List.length pre) rest st).
Proof.
  induction rest as [|line rest IH]; intros pre st Hl Hst; simpl.
  - replace (List.length lines) with (List.length pre); [exact Hst|].
    rewrite Hl, app_nil_r. reflexivity.
  - assert (lines = ((pre ++ [line]) ++ rest)%list) as Hl'.
    { rewrite <- app_assoc. exact Hl. }
    specialize (IH (pre ++ [line])%list (scan_line lines st (List.length pre) line) Hl').
    rewrite length_app in IH. simpl in IH.
    replace (List.length pre + 1)%nat with (S (List.length pre)) in IH by lia.
    apply IH. apply scan_line_scanned; [| |exact Hst].
    + rewrite Hl, length_app. simpl. lia.
    + rewrite Hl. rewrite app_nth2; [|lia].
      replace (List.length pre - List.length pre)%nat with 0%nat by lia. reflexivity.
Qed.

Lemma find_table_blocks_scanned (lines : list string) :
  Forall (well_placed lines) (find_table_blocks lines)
  /\ StronglySorted apart (find_table_blocks lines).
Proof.
  unfold find_table_blocks.
  destruct (scan_lines_scanned lines lines []
              {| table_blocks := []; in_table := false; table_start := None |} eq_refl)
    as [H1 [H2 _]].
  { split; [constructor|]. split; [constructor|]. simpl. discriminate. }
  simpl in H1, H2. split; [|exact H2].
  eapply Forall_impl; [|exact H1]. intros b [H _]. exact H.
Qed.

(** X5: the table blocks [extract_all_geneve10_tables] finds are table
    environments of the document, in the order of the document, and no two
    of them overlap: each block starts on a line that opens a [tabular]
    with Geneve 10 mentioned nearby, ends just after a later line that
    closes one, lies within the document, and starts no earlier than the
    end of every block before it. *)
Theorem table_blocks_are_disjoint_environments (lines : list string) :
  Forall (well_placed lines) (find_table_blocks lines)
  /\ StronglySorted apart (find_table_blocks lines).
Proof. apply find_table_blocks_scanned. Qed.

Lemma slice_In (A : Type) (d x : A) (l : list A) (a b : nat) :
  In x (slice l a b) ->
  exists i, (a <= i < b)%nat /\ (i < List.length l)%nat /\ nth i l d = x.
Proof.
  unfold slice. intros H. apply (In_nth _ _ d) in H. destruct H as [k [Hk Hx]].
  rewrite length_firstn, length_skipn in Hk.
  rewrite nth_firstn in Hx.
  destruct (k <? b - a)%nat eqn:E; [|apply Nat.ltb_ge in E; lia].
  rewrite nth_skipn in Hx.
  exists (a + k)%nat. split; [lia|]. split; [lia|exact Hx].
Qed.

Lemma parse_blocks_rows (lines : list string) (blocks : list block) :
  forall all_time_data spatial_data row,
    In row (fst (parse_blocks lines blocks all_time_data spatial_data)) ->
    In row all_time_data
    \/ exists b, In b blocks /\ table_kind_of lines b = TimeSeries
         /\ In row (parse_time_series_table lines (first_line (fst b)) (snd b)).
Proof.
  induction blocks as [|[start end_] rest IH]; intros acc sp row H;
    cbn [parse_blocks] in H.
  - left. exact H.
  - destruct (table_kind_of lines (start, end_)) eqn:Ek.
    + destruct (parse_time_series_table lines (first_line start) end_) as [|r0 rs] eqn:Ep.
      * destruct (IH _ _ _ H) as [Ha|[b [Hb Hr]]]; [left; exact Ha|].
        right. exists b. split; [right; exact Hb|exact Hr].
      * destruct (IH _ _ _ H) as [Ha|[b [Hb Hr]]].
        -- apply in_app_or in Ha. destruct Ha as [Ha|Ha]; [left; exact Ha|].
           right. exists (start, end_). split; [left; reflexivity|].
           split; [exact Ek|]. simpl. rewrite Ep. exact Ha.
        -- right. exists b. split; [right; exact Hb|exact Hr].
    + destruct (parse_spatial_table lines (first_line start) end_);
        (destruct (IH _ _ _ H) as [Ha|[b [Hb Hr]]]; [left; exact Ha|];
         right; exists b; split; [right; exact Hb|exact Hr]).
    + destruct (IH _ _ _ H) as [Ha|[b [Hb Hr]]]; [left; exact Ha|].
      right. exists b. split; [right; exact Hb|exact Hr].
Qed.

(** X6: every row of the time series [extract_all_geneve10_tables]
    gathers was read from a line inside one of the table blocks, and that
    block was recognised as a time-series table: no line outside a table
    environment contributes a row. *)
Theorem time_rows_come_from_table_blocks
        (lines : list string) (row : list fval)
        (H : In row (fst (collect_tables lines))) :
  exists b s i,
    In b (find_table_blocks lines) /\ fst b = Some s
    /\ table_kind_of lines b = TimeSeries
    /\ (s <= i < snd b)%nat /\ (i < List.length lines)%nat
    /\ parse_time_series_line (nth i lines "") = Some row.
Proof.
  unfold collect_tables in H.
  destruct (parse_blocks_rows lines _ _ _ _ H) as [[]|[b [Hb [Hk Hr]]]].
  destruct (find_table_blocks_scanned lines) as [Hw _].
  rewrite Forall_forall in Hw. destruct (Hw b Hb) as [s [Hs _]].
  unfold parse_time_series_table in Hr.
  apply TableFacts.collect_rows_In in Hr. destruct Hr as [line [Hl Hf]].
  apply (slice_In _ "") in Hl. destruct Hl as [i [Hi [Hlen Hn]]].
  exists b, s, i. rewrite Hs in Hi. simpl in Hi.
  split; [exact Hb|]. split; [exact Hs|]. split; [exact Hk|].
  split; [exact Hi|]. split; [exact Hlen|]. rewrite Hn. exact Hf.
Qed.

Lemma time_rows_sample_witness :
  exists b s i,
    In b (find_table_blocks sample_document) /\ fst b = Some s
    /\ table_kind_of sample_document b = TimeSeries
    /\ (s <= i < snd b)%nat /\ (i < List.length sample_document)%nat
    /\ parse_time_series_line (nth i sample_document "")
       = Some [Fin 240; Fin 5194.141; Fin 1; Fin (3271 # 250000); Fin 2; Fin 0].
Proof.
  apply (time_rows_come_from_table_blocks sample_document).
  vm_compute. left. reflexivity.
Defined.

End BlockFacts.

(** ** The tolerance of the duplicate removal *)

Module ToleranceFacts.

Import DedupTerms.
Import ExtractTables.
Local Open Scope Q_scope.

Lemma round_half_even_near (x : Q) :
  Qabs (inject_Z (round_half_even x) - x) <= 1 # 2.
Proof.
  pose proof (Qfloor_le x) as Hlo. pose proof (Qlt_floor x) as Hhi.
  rewrite inject_Z_plus in Hhi. change (inject_Z 1) with 1 in Hhi.
  apply Qabs_Qle_condition. unfold round_half_even.
  destruct (x - inject_Z (Qfloor x) ?= 1 # 2) eqn:E.
  - apply Qeq_alt in E. destruct (Z.even (Qfloor x)).
    + split; lra.
    + rewrite inject_Z_plus. change (inject_Z 1) with 1. split; lra.
  - apply Qlt_alt in E. split; lra.
  - apply Qgt_alt in E. rewrite inject_Z_plus. change (inject_Z 1) with 1. split; lra.
Qed.

Lemma round6_near (q : Q) : Qabs (round6 q - q) <= 1 # 2000000.
Proof.
  pose proof (round_half_even_near (q * 1000000)) as H.
  apply Qabs_Qle_condition in H. apply Qabs_Qle_condition.
  unfold round6. rewrite Qred_correct.
  assert (round_half_even (q * 1000000) # 1000000
          == inject_Z (round_half_even (q * 1000000)) * (1 # 1000000)) as ->.
  { unfold Qeq, Qmult, inject_Z. simpl. lia. }
  split; lra.
Qed.

Lemma round6_apart (a b : Q) :
  1 # 1000000 < Qabs (a - b) -> round6 a <> round6 b.
Proof.
  intros H E. apply (Qlt_not_le _ _ H).
  pose proof (round6_near a) as Ha. pose proof (round6_near b) as Hb.
  apply Qabs_Qle_condition in Ha. apply Qabs_Qle_condition in Hb.
  rewrite E in Ha. apply Qabs_Qle_condition. split; lra.
Qed.

Lemma unique_from_keeps (before after : list row) (r : row) :
  forall s,
    (forall y, In y before -> rkey y <> rkey r) ->
    seen (rkey r) s = false ->
    In r (unique_from s (before ++ r :: after)).
Proof.
  induction before as [|y before IH]; intros s Hb Hs; simpl.
  - change (round6 (key r)) with (rkey r). rewrite Hs. left. reflexivity.
  - change (round6 (key y)) with (rkey y).
    destruct (seen (rkey y) s).
    + apply IH; [intros z Hz; apply Hb; right; exact Hz|exact Hs].
    + right. apply IH; [intros z Hz; apply Hb; right; exact Hz|].
      rewrite DedupFacts.seen_cons, Hs, orb_false_r.
      destruct (Qeq_bool (rkey r) (rkey y)) eqn:E; [|reflexivity].
      apply DedupFacts.rkey_eqb in E. exfalso.
      apply (Hb y (or_introl eq_refl)). symmetry. exact E.
Qed.

(** X7: a row whose time differs by more than 1e-6 from the time of every
    row gathered before it is never taken for a duplicate: it is in the
    time series [extract_all_geneve10_tables] returns. *)
Theorem rows_apart_in_time_are_kept
        (before after : list row) (r : row)
        (H : forall y, In y before -> 1 # 1000000 < Qabs (key y - key r)) :
  In r (dedup_time_data (before ++ r :: after)).
Proof.
  assert (In r (unique_time_data (before ++ r :: after))) as Hin.
  { apply unique_from_keeps; [|reflexivity].
    intros y Hy. apply round6_apart. apply H. exact Hy. }
  unfold dedup_time_data.
  destruct (before ++ r :: after) as [|x l] eqn:E.
  - destruct before; discriminate.
  - eapply Permutation_in; [|exact Hin].
    apply Permutation_sym. apply DedupFacts.sorted_by_key_perm.
Qed.

Lemma rows_apart_sample_witness :
  In [132; 4000; 1; 0; 2; 0] (dedup_time_data sample_rows).
Proof.
  apply (rows_apart_in_time_are_kept
           [[240; 5194.141; 1; 0; 2; 0]]
           [[240; 9999; 1; 0; 2; 0]; [0; 3484.515; 1; 0; 2; 0]]
           [132; 4000; 1; 0; 2; 0]).
  intros y [<-|[]]. vm_compute. reflexivity.
Defined.

End ToleranceFacts.

(** ** The line loops of the extraction *)

Module ExtractLinesFacts.

Import ExtractLinesTerms.
Import FloatModel PyStr ExtractComplete ExtractLines.
Local Open Scope string_scope.

Lemma zone_record_of_index (zone_idx : nat) (parts : list string) (z : zone_record) :
  zone_record_of zone_idx parts = Some z -> zone_index z = zone_idx.
Proof.
  unfold zone_record_of. intros H.
  destruct (float (clean_latex_number (get parts 0))); [|discriminate].
  destruct (float (clean_latex_number (get parts 1))); [|discriminate].
  destruct (velocity_value (get parts 2)); [|discriminate].
  destruct (float (clean_latex_number (get parts 3))); [|discriminate].
  destruct (float (clean_latex_number (get parts 4))); [|discriminate].
  destruct (float (clean_latex_number (get parts 5))); [|discriminate].
  injection H as <-. reflexivity.
Qed.

Lemma zone_records_indices (lines : list string) :
  forall zone_idx,
    map zone_index (zone_records zone_idx lines)
    = seq zone_idx (List.length (zone_records zone_idx lines)).
Proof.
  induction lines as [|line rest IH]; intros zone_idx; cbn [zone_records];
    [reflexivity|].
  destruct (is_zone_line line); [|apply IH].
  destruct (6 <=? List.length (split_parts line))%nat; [|apply IH].
  destruct (zone_record_of zone_idx (split_parts line)) as [z|] eqn:E; [|apply IH].
  cbn [map List.length seq]. rewrite (zone_record_of_index _ _ _ E), IH. reflexivity.
Qed.

(** X8: the zones [extract_spatial_profile] returns are numbered 2, 3,
    4, ... without a gap, whatever lines of the section were passed over
    or failed to parse. *)
Theorem zones_are_numbered_from_two (spatial_section : string) :
  map zone_index (extract_spatial_profile spatial_section)
  = seq 2 (List.length (extract_spatial_profile spatial_section)).
Proof. apply zone_records_indices. Qed.

(** X9: on a line of exactly six cells [extract_time_evolution] does not
    read the columns from their own cells: the power is read from the
    fourth cell and the time step from the fifth, the cell the inverse
    period is read from, so the record has [delt_microsec] equal to
    [alpha_1_microsec]. *)
Theorem six_cell_line_repeats_alpha_as_delt
        (parts : list string) (r : time_record)
        (Hlen : List.length parts = 6%nat)
        (H : time_record_of parts = Some r) :
  delt_microsec r = alpha_1_microsec r
  /\ float (clean_latex_number (get parts 4)) = Some (alpha_1_microsec r)
  /\ float (clean_latex_number (get parts 3)) = Some (power_relative r)
  /\ float (clean_latex_number (get parts 5)) = Some (W_dimensionless r).
Proof.
  unfold time_record_of in H. rewrite Hlen in H.
  change (3 <? 6)%nat with true in H. change (4 <? 6)%nat with true in H.
  change (6 <? 6)%nat with false in H. change (7 <? 6)%nat with false in H.
  cbv iota in H.
  destruct (float (clean_latex_number
              (if (len (get parts 0) <? 3)%nat then get parts 0 ++ get parts 1
               else get parts 0))); [|discriminate].
  destruct (float (clean_latex_number
              (if contains "03" (get parts 2) then get parts 1 ++ get parts 2
               else get parts 1))); [|discriminate].
  destruct (float (clean_latex_number (get parts 3))) as [p|]; [|discriminate].
  destruct (float (clean_latex_number (get parts 4))) as [a|]; [|discriminate].
  destruct (float (clean_latex_number (get parts 5))) as [w|]; [|discriminate].
  injection H as <-. simpl. repeat split.
Qed.

Lemma six_cell_line_witness :
  exists r,
    time_record_of six_cells = Some r
    /\ delt_microsec r = alpha_1_microsec r
    /\ power_relative r = Fin 0.01306381 /\ alpha_1_microsec r = Fin 2.
Proof.
  eexists. split; [vm_compute; reflexivity|].
  split.
  - apply (six_cell_line_repeats_alpha_as_delt six_cells _ eq_refl).
    vm_compute. reflexivity.
  - split; reflexivity.
Defined.

End ExtractLinesFacts.

(** ** Cleaning of a number in the extraction *)

Module CleanFacts.

Import ExtractLinesTerms.
Import FloatModel PyStr ExtractComplete.
Local Open Scope string_scope.

Lemma contains_char (c : ascii) (s : string) :
  contains (String c "") s = has_char c s.
Proof.
  induction s as [|a s IH]; [reflexivity|].
  simpl. rewrite IH, andb_true_r, (Ascii.eqb_sym c a). reflexivity.
Qed.

Lemma has_char_app (c : ascii) (a b : string) :
  has_char c (a ++ b) = has_char c a || has_char c b.
Proof.
  induction a as [|x a IH]; [reflexivity|].
  simpl. rewrite IH, orb_assoc. reflexivity.
Qed.

Lemma sub_scan_no_char (m : string -> option (string * nat)) (c : ascii) :
  (forall t rep k, m t = Some (rep, k) -> has_char c rep = false) ->
  forall s skip, has_char c s = false -> has_char c (sub_scan m skip s) = false.
Proof.
  intros Hm. induction s as [|a s IH]; intros skip Hs; [reflexivity|].
  simpl in Hs. apply orb_false_iff in Hs. destruct Hs as [Ha Hs].
  simpl. destruct skip as [|k]; [|apply IH; exact Hs].
  destruct (m (String a s)) as [[rep [|k]]|] eqn:E.
  - simpl. rewrite Ha. apply IH. exact Hs.
  - rewrite has_char_app, (Hm _ _ _ E). apply IH. exact Hs.
  - simpl. rewrite Ha. apply IH. exact Hs.
Qed.

Lemma replace_removes_char (c : ascii) (s : string) :
  has_char c (replace (String c "") "" s) = false.
Proof.
  unfold replace. induction s as [|a s IH]; [reflexivity|].
  simpl. rewrite andb_true_r. destruct (Ascii.eqb c a) eqn:E.
  - simpl. exact IH.
  - simpl. rewrite (Ascii.eqb_sym a c), E. exact IH.
Qed.

Lemma lstrip_no_char (c : ascii) (s : string) :
  has_char c s = false -> has_char c (lstrip s) = false.
Proof.
  induction s as [|a s IH]; intros H; [reflexivity|].
  simpl. destruct (is_space a); [|exact H].
  simpl in H. apply orb_false_iff in H. apply IH. apply H.
Qed.

Lemma squeeze_no_char (c : ascii) (s : string) :
  Ascii.eqb " " c = false ->
  forall pending, has_char c s = false -> has_char c (squeeze pending s) = false.
Proof.
  intros Hc. induction s as [|a s IH]; intros pending H; [reflexivity|].
  simpl in H. apply orb_false_iff in H. destruct H as [Ha Hs].
  cbn [squeeze]. destruct (is_space a); [apply IH; exact Hs|].
  destruct pending; cbn [has_char]; rewrite ?Hc, Ha, ?orb_false_l; apply IH; exact Hs.
Qed.

Lemma digit_not_ampersand (d : ascii) : is_digit d = true -> Ascii.eqb d "&" = false.
Proof.
  intros H. destruct (Ascii.eqb d "&") eqn:E; [|reflexivity].
  apply Ascii.eqb_eq in E. subst d. discriminate.
Qed.

Lemma re_E_sp1_digit_rep (t rep : string) (k : nat) :
  re_E_sp1_digit t = Some (rep, k) -> has_char "&" rep = false.
Proof.
  unfold re_E_sp1_digit. destruct t as [|e r]; [discriminate|].
  destruct (Ascii.eqb_spec e "E") as [->|Hne].
  - destruct (span is_space r) as [ws r1].
    destruct ws as [|w ws]; [discriminate|].
    destruct r1 as [|d r1]; [discriminate|].
    destruct (is_digit d) eqn:Ed; [|discriminate].
    intros H. injection H as <- _. simpl.
    rewrite (digit_not_ampersand d Ed). reflexivity.
  - destruct e as [[] [] [] [] [] [] [] []]; try discriminate. congruence.
Qed.

Lemma re_E_sp0_digit_rep (t rep : string) (k : nat) :
  re_E_sp0_digit t = Some (rep, k) -> has_char "&" rep = false.
Proof.
  unfold re_E_sp0_digit. destruct t as [|e r]; [discriminate|].
  destruct (Ascii.eqb_spec e "E") as [->|Hne].
  - destruct (span is_space r) as [ws r1].
    destruct r1 as [|d r1]; [discriminate|].
    destruct (is_digit d) eqn:Ed; [|discriminate].
    intros H. injection H as <- _. simpl.
    rewrite (digit_not_ampersand d Ed). reflexivity.
  - destruct e as [[] [] [] [] [] [] [] []]; try discriminate. congruence.
Qed.

Lemma re_E_digit_rep (t rep : string) (k : nat) :
  re_E_digit t = Some (rep, k) -> has_char "&" rep = false.
Proof.
  unfold re_E_digit. destruct t as [|e r]; [discriminate|].
  destruct (Ascii.eqb_spec e "E") as [->|Hne].
  - destruct r as [|d r1]; [discriminate|].
    destruct (is_digit d) eqn:Ed; [|discriminate].
    intros H. injection H as <- _. simpl.
    rewrite (digit_not_ampersand d Ed). reflexivity.
  - destruct e as [[] [] [] [] [] [] [] []]; try discriminate. congruence.
Qed.

(** X10: the text [clean_latex_number] of
    [extract_complete_geneve10_data.py] returns holds no ampersand,
    whatever text it is given. *)
Theorem cleaned_number_has_no_ampersand (s : string) :
  contains "&" (clean_latex_number s) = false.
Proof.
  rewrite contains_char. unfold clean_latex_number, join_split.
  apply squeeze_no_char; [reflexivity|]. apply lstrip_no_char.
  apply sub_scan_no_char; [apply re_E_digit_rep|].
  apply sub_scan_no_char; [apply re_E_sp0_digit_rep|].
  apply sub_scan_no_char; [apply re_E_sp1_digit_rep|].
  apply replace_removes_char.
Qed.

End CleanFacts.

(** ** Tolerances and time limit of the regression check *)

Module RegressionFacts.

Import TransientTerms RegressionTerms.
Import FloatModel FloatFacts Transient TransientFacts.

Lemma out_of_tolerance_looser (qt pt at_ wt qt' pt' at' wt' : fval)
      (e : fval * fval * fval * fval) :
  fleb qt qt' = true -> fleb pt pt' = true ->
  fleb at_ at' = true -> fleb wt wt' = true ->
  out_of_tolerance qt' pt' at' wt' e = true -> out_of_tolerance qt pt at_ wt e = true.
Proof.
  intros Hq Hp Ha Hw. destruct e as [[[e1 e2] e3] e4]. unfold out_of_tolerance, fgtb.
  rewrite !orb_true_iff. intros [[[H|H]|H]|H].
  - left. left. left. eapply fleb_fltb_trans; eauto.
  - left. left. right. eapply fleb_fltb_trans; eauto.
  - left. right. eapply fleb_fltb_trans; eauto.
  - right. eapply fleb_fltb_trans; eauto.
Qed.

(** X11: loosening the tolerances never turns a pass of [run_check] into
    a failure, and it does not change the summary: with each tolerance
    replaced by one that is not smaller, the check returns the same
    summary, and passes if it passed before. *)
Theorem looser_tolerances_keep_a_pass
        (tl qt pt at_ wt qt' pt' at' wt' : fval) (parse : string -> option fval)
        (sim_csv : list raw_row) (ref_csv : list ts_row)
        (ok : bool) (summary : list summary_row)
        (Hq : fleb qt qt' = true) (Hp : fleb pt pt' = true)
        (Ha : fleb at_ at' = true) (Hw : fleb wt wt' = true)
        (H : run_check tl qt pt at_ wt parse sim_csv ref_csv = Some (ok, summary)) :
  exists ok',
    run_check tl qt' pt' at' wt' parse sim_csv ref_csv = Some (ok', summary)
    /\ (ok = true -> ok' = true).
Proof.
  rewrite run_check_spec in H. rewrite run_check_spec.
  destruct (compare_all (load_sim parse sim_csv) (in_window tl ref_csv)) as [cs|];
    [|discriminate].
  injection H as <- <-. eexists. split; [reflexivity|].
  intros Hall. rewrite forallb_forall in Hall. apply forallb_forall.
  intros c Hc. specialize (Hall c Hc).
  apply negb_true_iff in Hall. apply negb_true_iff.
  destruct (out_of_tolerance qt' pt' at' wt' (errors_of c)) eqn:E; [|reflexivity].
  rewrite (out_of_tolerance_looser qt pt at_ wt qt' pt' at' wt' _ Hq Hp Ha Hw E) in Hall.
  discriminate.
Qed.

Lemma looser_tolerances_witness :
  exists ok',
    run_check (Fin 300) (Fin 2) (Fin 2) (Fin 2) (Fin 2) PyStr.float
      AlignmentTerms.sim_csv_example AlignmentTerms.ref_csv_example
    = Some (ok', snd (match run_check (Fin 300) (Fin 1) (Fin 1) (Fin 1) (Fin 1) PyStr.float
                              AlignmentTerms.sim_csv_example AlignmentTerms.ref_csv_example
                      with Some p => p | None => (false, []) end))
    /\ (true = true -> ok' = true).
Proof.
  apply (looser_tolerances_keep_a_pass (Fin 300) (Fin 1) (Fin 1) (Fin 1) (Fin 1)
           (Fin 2) (Fin 2) (Fin 2) (Fin 2) PyStr.float
           AlignmentTerms.sim_csv_example AlignmentTerms.ref_csv_example);
    reflexivity.
Defined.

Lemma compare_all_filter (p : ts_row -> bool) (sim ref : list ts_row) :
  forall cs,
    compare_all sim ref = Some cs ->
    compare_all sim (filter p ref) = Some (filter (fun c => p (snd (fst c))) cs).
Proof.
  induction ref as [|r rest IH]; intros cs H; simpl in H.
  - injection H as <-. reflexivity.
  - destruct (compare_row sim r) as [c|] eqn:Ec; [|discriminate].
    destruct (compare_all sim rest) as [cs'|]; [|discriminate].
    injection H as <-.
    assert (snd (fst c) = r) as Hr.
    { unfold compare_row in Ec.
      destruct (_closest_row sim (time_microsec r)); [|discriminate].
      destruct (row_errors t r); [|discriminate].
      injection Ec as <-. reflexivity. }
    simpl. rewrite Hr. destruct (p r).
    + simpl. rewrite Ec, (IH cs' eq_refl). reflexivity.
    + apply IH. reflexivity.
Qed.

Lemma in_window_shorter (tl tl' : fval) (ref_csv : list ts_row) :
  fleb tl tl' = true ->
  in_window tl ref_csv
  = filter (fun r => fleb (time_microsec r) tl) (in_window tl' ref_csv).
Proof.
  intros Htl. unfold in_window. induction ref_csv as [|r rest IH]; [reflexivity|].
  simpl. destruct (fleb (time_microsec r) tl) eqn:E.
  - rewrite (fleb_trans _ _ _ E Htl). simpl. rewrite E, IH. reflexivity.
  - destruct (fleb (time_microsec r) tl'); [simpl; rewrite E|]; exact IH.
Qed.

Lemma line_of_time (c : comparison) : s_time (line_of c) = time_microsec (snd (fst c)).
Proof. destruct c as [[sim_row ref_row] [[[e1 e2] e3] e4]]. reflexivity. Qed.

Lemma map_filter_lines (tl : fval) (cs : list comparison) :
  map line_of (filter (fun c => fleb (time_microsec (snd (fst c))) tl) cs)
  = filter (fun line => fleb (s_time line) tl) (map line_of cs).
Proof.
  induction cs as [|c cs IH]; [reflexivity|].
  simpl. rewrite line_of_time.
  destruct (fleb (time_microsec (snd (fst c))) tl); simpl; rewrite IH; reflexivity.
Qed.

Lemma forallb_filter (A : Type) (f p : A -> bool) (l : list A) :
  forallb f l = true -> forallb f (filter p l) = true.
Proof.
  intros H. rewrite forallb_forall in H. apply forallb_forall.
  intros x Hx. apply filter_In in Hx. apply H. apply Hx.
Qed.

(** X12: lowering the time limit of [run_check] never turns a pass into
    a failure and never makes the check raise: the check then returns the
    lines of the longer summary whose time is within the lower limit, in
    the same order, and passes if the longer run passed. *)
Theorem lower_time_limit_keeps_a_pass
        (tl tl' qt pt at_ wt : fval) (parse : string -> option fval)
        (sim_csv : list raw_row) (ref_csv : list ts_row)
        (ok' : bool) (summary' : list summary_row)
        (Htl : fleb tl tl' = true)
        (H : run_check tl' qt pt at_ wt parse sim_csv ref_csv = Some (ok', summary')) :
  exists ok,
    run_check tl qt pt at_ wt parse sim_csv ref_csv
    = Some (ok, filter (fun line => fleb (s_time line) tl) summary')
    /\ (ok' = true -> ok = true).
Proof.
  rewrite run_check_spec in H. rewrite run_check_spec.
  destruct (compare_all (load_sim parse sim_csv) (in_window tl' ref_csv)) as [cs|] eqn:Ec;
    [|discriminate].
  injection H as <- <-.
  rewrite (in_window_shorter tl tl' ref_csv Htl).
  rewrite (compare_all_filter (fun r => fleb (time_microsec r) tl) _ _ cs Ec).
  eexists. split; [rewrite map_filter_lines; reflexivity|].
  apply forallb_filter.
Qed.

Lemma lower_time_limit_witness :
  exists ok,
    run_check (Fin 72) (Fin 1) (Fin 1) (Fin 1) (Fin 1) PyStr.float
      AlignmentTerms.sim_csv_example AlignmentTerms.ref_csv_example
    = Some (ok, filter (fun line => fleb (s_time line) (Fin 72))
                  (snd (match run_check (Fin 300) (Fin 1) (Fin 1) (Fin 1) (Fin 1) PyStr.float
                                AlignmentTerms.sim_csv_example
                                AlignmentTerms.ref_csv_example
                        with Some p => p | None => (false, []) end)))
    /\ (true = true -> ok = true).
Proof.
  apply (lower_time_limit_keeps_a_pass (Fin 72) (Fin 300) (Fin 1) (Fin 1) (Fin 1) (Fin 1)
           PyStr.float AlignmentTerms.sim_csv_example AlignmentTerms.ref_csv_example).
  - reflexivity.
  - vm_compute. reflexivity.
Defined.

Lemma filter_none (A : Type) (p : A -> bool) (l : list A) :
  (forall x, In x l -> p x = false) -> filter p l = [].
Proof.
  induction l as [|a l IH]; intros H; [reflexivity|].
  simpl. rewrite (H a (or_introl eq_refl)). apply IH.
  intros x Hx. apply H. right. exact Hx.
Qed.

(** X13: when no reference row lies within the time limit, [run_check]
    passes with an empty summary, whatever the simulator file holds, even
    no row at all. *)
Theorem no_reference_row_in_window_passes
        (tl qt pt at_ wt : fval) (parse : string -> option fval)
        (sim_csv : list raw_row) (ref_csv : list ts_row)
        (H : forall r, In r ref_csv -> fleb (time_microsec r) tl = false) :
  run_check tl qt pt at_ wt parse sim_csv ref_csv = Some (true, []).
Proof.
  rewrite run_check_spec. unfold in_window.
  rewrite (filter_none _ (fun r => fleb (time_microsec r) tl) ref_csv H). reflexivity.
Qed.

Lemma no_reference_row_witness :
  run_check (Fin (-1)) (Fin 0) (Fin 0) (Fin 0) (Fin 0) PyStr.float []
    AlignmentTerms.ref_csv_example = Some (true, []).
Proof.
  apply (no_reference_row_in_window_passes (Fin (-1)) (Fin 0) (Fin 0) (Fin 0) (Fin 0)
           PyStr.float [] AlignmentTerms.ref_csv_example).
  intros r [<-|[<-|[<-|[]]]]; reflexivity.
Defined.

(** X14: when every line of the simulator file has an entry that is not a
    number in one of the five columns, and some reference row lies within
    the time limit, [run_check] does not report a failure: it raises (the
    ValueError of [idxmin] on an empty frame). *)
Theorem no_usable_simulation_row_raises
        (tl qt pt at_ wt : fval) (parse : string -> option fval)
        (sim_csv : list raw_row) (ref_csv : list ts_row) (ref_row : ts_row)
        (Hsim : forall r, In r sim_csv -> complete (coerce_row parse r) = false)
        (Hin : In ref_row ref_csv)
        (Hwin : fleb (time_microsec ref_row) tl = true) :
  load_sim parse sim_csv = []
  /\ run_check tl qt pt at_ wt parse sim_csv ref_csv = None.
Proof.
  assert (load_sim parse sim_csv = []) as Hload.
  { rewrite load_sim_filter_map.
    rewrite (filter_none _ (fun r => complete (coerce_row parse r)) sim_csv Hsim).
    reflexivity. }
  split; [exact Hload|].
  rewrite run_check_spec, Hload.
  assert (In ref_row (in_window tl ref_csv)) as Hw.
  { apply filter_In. split; assumption. }
  destruct (in_window tl ref_csv) as [|r rest]; [contradiction|]. reflexivity.
Qed.

Lemma no_usable_simulation_row_witness :
  run_check (Fin 72) (Fin 1) (Fin 1) (Fin 1) (Fin 1) PyStr.float
    [AlignmentTerms.raw "n/a" "1.0"] AlignmentTerms.ref_csv_example = None.
Proof.
  apply (no_usable_simulation_row_raises (Fin 72) (Fin 1) (Fin 1) (Fin 1) (Fin 1)
           PyStr.float [AlignmentTerms.raw "n/a" "1.0"] AlignmentTerms.ref_csv_example
           (AlignmentTerms.ts 0 1)).
  - intros r [<-|[]]. vm_compute. reflexivity.
  - left. reflexivity.
  - reflexivity.
Defined.

End RegressionFacts.

(** ** The row the regression check compares with *)

Module NearestFacts.

Import TransientTerms RegressionTerms.
Import FloatModel FloatFacts Transient TransientFacts.
Local Open Scope Q_scope.

Lemma percentage_error_finite (s r : Q) :
  ~ r == 0 ->
  _percentage_error (Fin s) (Fin r) = Some (Fin (Qabs (s + - r) / Qabs r)).
Proof.
  intros Hr. unfold _percentage_error, py_div.
  assert (Qeq_bool r 0 = false) as E.
  { destruct (Qeq_bool r 0) eqn:E; [|reflexivity].
    apply Qeq_bool_iff in E. contradiction. }
  assert (feqb (Fin r) (Fin 0) = false) as E1 by exact E.
  rewrite E1. rewrite fabs_zero, E1. simpl.
  assert (Qeq_bool (Qabs r) 0 = false) as E2.
  { pose proof (fabs_zero (Fin r)) as Hz. simpl in Hz. rewrite Hz. exact E. }
  rewrite E2. reflexivity.
Qed.

Lemma Qabs_nonzero (r : Q) : ~ r == 0 -> 0 < Qabs r.
Proof.
  intros Hr. destruct (Qlt_le_dec 0 (Qabs r)) as [H|H]; [exact H|].
  exfalso. apply Hr. pose proof (Qabs_nonneg r) as Hn.
  assert (Qabs r == 0) as Hz by lra.
  revert Hz. apply Qabs_case; intros; lra.
Qed.

(** X15: for finite values and a reference other than zero,
    [_percentage_error] returns a value (it does not raise) that is never
    negative and never NaN; the value is zero exactly when the two values
    are equal; it is 1 when the simulated value is zero; and it stays the
    same when both values change sign. *)
Theorem percentage_error_is_zero_only_for_equal_values
        (s r : Q) (Hr : ~ r == 0) :
  exists e,
    _percentage_error (Fin s) (Fin r) = Some e
    /\ fleb (Fin 0) e = true
    /\ (feqb e (Fin 0) = true <-> s == r)
    /\ (exists e1,
          _percentage_error (Fin 0) (Fin r) = Some e1 /\ feqb e1 (Fin 1) = true)
    /\ (exists e',
          _percentage_error (Fin (- s)) (Fin (- r)) = Some e' /\ feqb e' e = true).
Proof.
  assert (~ - r == 0) as Hnr by (intros H; apply Hr; lra).
  pose proof (Qabs_nonzero r Hr) as Hpr.
  pose proof (Qabs_nonneg (s + - r)) as Hn.
  exists (Fin (Qabs (s + - r) / Qabs r)).
  split; [apply percentage_error_finite; exact Hr|].
  split; [|split; [|split]].
  - cbn [fleb]. apply Qle_bool_iff. apply Qle_shift_div_l; [exact Hpr|]. lra.
  - cbn [feqb]. rewrite Qeq_bool_iff. split; intros H.
    + assert (Qabs (s + - r) == 0) as Hz.
      { assert (Qabs (s + - r) == Qabs (s + - r) / Qabs r * Qabs r) as -> by (field; lra).
        rewrite H. ring. }
      revert Hz. apply Qabs_case; intros; lra.
    + assert (s + - r == 0) as -> by lra. simpl. field. lra.
  - exists (Fin (Qabs (0 + - r) / Qabs r)).
    split; [apply percentage_error_finite; exact Hr|].
    cbn [feqb]. apply Qeq_bool_iff.
    assert (0 + - r == - r) as -> by ring.
    rewrite Qabs_opp. field. lra.
  - exists (Fin (Qabs (- s + - - r) / Qabs (- r))).
    split; [apply percentage_error_finite; exact Hnr|].
    cbn [feqb]. apply Qeq_bool_iff.
    assert (- s + - - r == - (s + - r)) as -> by ring.
    rewrite !Qabs_opp. reflexivity.
Qed.

Lemma percentage_error_equal_values_witness :
  exists e,
    _percentage_error (Fin 11) (Fin 10) = Some e
    /\ fleb (Fin 0) e = true
    /\ (feqb e (Fin 0) = true <-> 11 == 10)
    /\ (exists e1,
          _percentage_error (Fin 0) (Fin 10) = Some e1 /\ feqb e1 (Fin 1) = true)
    /\ (exists e',
          _percentage_error (Fin (- (11))) (Fin (- (10))) = Some e'
          /\ feqb e' e = true).
Proof.
  apply (percentage_error_is_zero_only_for_equal_values 11 10).
  intros H. discriminate.
Defined.

Lemma distance_finite (t : Q) (r : ts_row) (x : Q) :
  time_microsec r = Fin x -> distance (Fin t) r = Fin (Qabs (x + - t)).
Proof. unfold distance. intros ->. reflexivity. Qed.

(** X16: when the simulation has a row at exactly the reference time,
    [_closest_row] returns a row, and the row it returns is at that time. *)
Theorem row_at_the_reference_time_is_chosen
        (sim : list ts_row) (t : Q) (s : ts_row) (ts : Q)
        (Hin : In s sim) (Hs : time_microsec s = Fin ts) (Ht : ts == t) :
  exists row tr,
    _closest_row sim (Fin t) = Some row
    /\ In row sim /\ time_microsec row = Fin tr /\ tr == t.
Proof.
  pose proof (distance_finite t s ts Hs) as Hd.
  destruct (_closest_row sim (Fin t)) as [row|] eqn:Ec.
  - destruct (closest_row_spec _ _ Ec) as [Hrow [Hn Hle]].
    specialize (Hle s Hin). rewrite Hd in Hle. specialize (Hle eq_refl).
    destruct (time_microsec row) as [tr| | |] eqn:Er.
    + exists row, tr. split; [reflexivity|]. split; [exact Hrow|].
      split; [exact Er|].
      rewrite (distance_finite t row tr Er) in Hle. cbn [fleb] in Hle.
      apply Qle_bool_iff in Hle.
      assert (Qabs (ts + - t) == 0) as Hz.
      { assert (ts + - t == 0) as -> by lra. reflexivity. }
      rewrite Hz in Hle. pose proof (Qabs_nonneg (tr + - t)) as Hnn.
      assert (Qabs (tr + - t) == 0) as Hz' by lra.
      revert Hz'. apply Qabs_case; intros; lra.
    + unfold distance in Hle. rewrite Er in Hle. discriminate.
    + unfold distance in Hle. rewrite Er in Hle. discriminate.
    + unfold distance in Hn. rewrite Er in Hn. discriminate.
  - exfalso. unfold _closest_row in Ec. fold (distance (Fin t)) in Ec.
    destruct (idxmin (map (distance (Fin t)) sim)) as [j|] eqn:Ej.
    + destruct (idxmin_bound _ Ej) as [Hj _]. rewrite length_map in Hj.
      apply nth_error_None in Ec. lia.
    + pose proof (idxmin_none _ Ej (distance (Fin t) s)
                    (in_map (distance (Fin t)) sim s Hin)) as Hnan.
      rewrite Hd in Hnan. discriminate.
Qed.

Lemma row_at_the_reference_time_witness :
  exists row tr,
    _closest_row (AlignmentTerms.ts 0 1 :: sim_tie) (Fin 3) = Some row
    /\ In row (AlignmentTerms.ts 0 1 :: sim_tie)
    /\ time_microsec row = Fin tr /\ tr == 3.
Proof.
  apply (row_at_the_reference_time_is_chosen
           (AlignmentTerms.ts 0 1 :: sim_tie) 3 (AlignmentTerms.ts 3 20) 3).
  - right. right. left. reflexivity.
  - reflexivity.
  - reflexivity.
Defined.

(** X17: of several simulation rows equally near to the reference time,
    [_closest_row] returns the one that comes first in the file: every row
    before the returned one is strictly farther from the reference time,
    or its distance is NaN. *)
Theorem first_of_the_nearest_rows_is_chosen
        (sim : list ts_row) (t : fval) (row : ts_row)
        (H : _closest_row sim t = Some row) :
  exists j,
    nth_error sim j = Some row
    /\ forall k s, (k < j)%nat -> nth_error sim k = Some s ->
         fleb (distance t s) (distance t row) = false.
Proof.
  unfold _closest_row in H. fold (distance t) in H.
  destruct (idxmin (map (distance t) sim)) as [j|] eqn:Ej; [|discriminate].
  exists j. split; [exact H|].
  intros k s Hk Hs.
  pose proof (idxmin_first _ Ej Hk) as Hf.
  rewrite (nth_error_nth _ _ _ (map_nth_error (distance t) _ _ Hs)) in Hf.
  rewrite (nth_error_nth _ _ _ (map_nth_error (distance t) _ _ H)) in Hf.
  exact Hf.
Qed.

Lemma first_of_the_nearest_witness :
  exists j,
    nth_error sim_tie j = Some (AlignmentTerms.ts 1 10)
    /\ forall k s, (k < j)%nat -> nth_error sim_tie k = Some s ->
         fleb (distance (Fin 2) s) (distance (Fin 2) (AlignmentTerms.ts 1 10)) = false.
Proof.
  apply (first_of_the_nearest_rows_is_chosen sim_tie (Fin 2) (AlignmentTerms.ts 1 10)).
  reflexivity.
Defined.

End NearestFacts.

(** ** The maxima of [calculate_metrics] *)

Module SampleFacts.

Import MetricsTerms SampleTerms.
Import FloatModel FloatFacts.
Import ValidateSim.
Local Open Scope Q_scope.

Lemma combine_maps (A B C : Type) (f : A -> B) (g : A -> C) (l : list A) :
  combine (map f l) (map g l) = map (fun x => (f x, g x)) l.
Proof. induction l as [|a l IH]; simpl; [reflexivity|]. rewrite IH. reflexivity. Qed.

Section Metrics.

Variable np_sqrt : fval -> fval.

(** [calculate_metrics] in terms of the usable pairs. *)
Lemma metrics_of_pairs (ref_vals sim_vals : list fval) :
  List.length ref_vals = List.length sim_vals ->
  calculate_metrics np_sqrt ref_vals sim_vals
  = match filter usable (combine ref_vals sim_vals) with
    | [] => Some no_points
    | kept =>
        do max_abs <- np_max (map abs_of kept);
        do max_rel <- np_max (map rel_of kept);
        Some {| max_abs_error := max_abs;
                max_rel_error := fmul max_rel (Fin 100);
                rms_error := np_sqrt (fmean (map square (map abs_of kept)));
                mean_rel_error := fmul (fmean (map rel_of kept)) (Fin 100);
                points_compared := List.length kept |}
    end.
Proof.
  intros Hlen. unfold calculate_metrics.
  rewrite (proj2 (Nat.eqb_eq _ _) Hlen). simpl negb. cbv iota.
  rewrite MetricsFacts.finite_nonzero_mask_usable.
  rewrite (MetricsFacts.select_pairs_fst _ _ _ Hlen),
          (MetricsFacts.select_pairs_snd _ _ _ Hlen).
  set (kept := filter usable (combine ref_vals sim_vals)).
  rewrite length_map.
  assert (map (fun '(s, r) => fabs (fsub s r)) (combine (map snd kept) (map fst kept))
          = map abs_of kept) as ->.
  { rewrite combine_maps, map_map. reflexivity. }
  assert (map (fun '(a, r) => fdiv a (fabs r)) (combine (map abs_of kept) (map fst kept))
          = map rel_of kept) as ->.
  { rewrite combine_maps, map_map. reflexivity. }
  destruct kept as [|p kept]; reflexivity.
Qed.

Lemma usable_finite (p : fval * fval) :
  usable p = true ->
  exists r s, p = (Fin r, Fin s) /\ ~ r == 0.
Proof.
  destruct p as [[r| | |] [s| | |]]; simpl; try discriminate.
  intros H. exists r, s. split; [reflexivity|].
  unfold fneb in H. simpl in H. apply negb_true_iff in H.
  intros Hz. apply Qeq_bool_iff in Hz. congruence.
Qed.

Lemma abs_of_finite (r s : Q) : abs_of (Fin r, Fin s) = Fin (Qabs (s + - r)).
Proof. reflexivity. Qed.

Lemma rel_of_finite (r s : Q) :
  ~ r == 0 -> rel_of (Fin r, Fin s) = Fin (Qabs (s + - r) / Qabs r).
Proof.
  intros Hr. unfold rel_of. rewrite abs_of_finite. simpl.
  destruct (Qeq_bool (Qabs r) 0) eqn:E; [|reflexivity].
  apply Qeq_bool_iff in E. exfalso. apply Hr.
  revert E. apply Qabs_case; intros; lra.
Qed.

Lemma usable_errors_finite (p : fval * fval) :
  usable p = true -> isfinite (abs_of p) = true /\ isfinite (rel_of p) = true.
Proof.
  intros H. destruct (usable_finite p H) as [r [s [-> Hr]]].
  rewrite (rel_of_finite r s Hr). split; reflexivity.
Qed.

Lemma finite_not_nan (a : fval) : isfinite a = true -> isnan a = false.
Proof. destruct a; simpl; intros; try reflexivity; discriminate. Qed.

Lemma np_max_spec (l : list fval) (m : fval) :
  (forall x, In x l -> isnan x = false) ->
  np_max l = Some m ->
  In m l /\ forall x, In x l -> fleb x m = true.
Proof.
  destruct l as [|a l]; [discriminate|]. intros Hl H. simpl in H. injection H as <-.
  destruct (VerdictFacts.fold_fmax_spec l a) as [_ [Hin Hle]].
  - apply Hl. left. reflexivity.
  - intros x Hx. apply Hl. right. exact Hx.
  - split; [exact Hin|exact Hle].
Qed.

Lemma fmul_100_le (a b : fval) :
  isfinite a = true -> isfinite b = true -> fleb a b = true ->
  fleb (fmul a (Fin 100)) (fmul b (Fin 100)) = true.
Proof.
  destruct a as [x| | |], b as [y| | |]; simpl; try discriminate.
  intros _ _ H. apply Qle_bool_iff in H. apply Qle_bool_iff. lra.
Qed.

(** X18: the two maxima [calculate_metrics] reports bound the error of
    every sample it compared, and each is the error of one of them: for a
    pair with a finite, non-zero reference value and a finite simulation
    value, the absolute error is at most [max_abs_error] and the relative
    error, in per cent, at most [max_rel_error]. *)
Theorem maxima_bound_every_compared_sample
        (ref_vals sim_vals : list fval) (m : metrics)
        (Hlen : List.length ref_vals = List.length sim_vals)
        (Hpts : (0 < points_compared m)%nat)
        (H : calculate_metrics np_sqrt ref_vals sim_vals = Some m) :
  (forall p, In p (combine ref_vals sim_vals) -> usable p = true ->
     fleb (abs_of p) (max_abs_error m) = true
     /\ fleb (fmul (rel_of p) (Fin 100)) (max_rel_error m) = true)
  /\ (exists p, In p (combine ref_vals sim_vals) /\ usable p = true
                /\ max_abs_error m = abs_of p)
  /\ (exists p, In p (combine ref_vals sim_vals) /\ usable p = true
                /\ max_rel_error m = fmul (rel_of p) (Fin 100)).
Proof.
  rewrite (metrics_of_pairs _ _ Hlen) in H.
  assert (forall p, In p (filter usable (combine ref_vals sim_vals))
                    <-> In p (combine ref_vals sim_vals) /\ usable p = true) as Hk.
  { intros p. apply filter_In. }
  destruct (filter usable (combine ref_vals sim_vals)) as [|p0 kept'].
  { injection H as <-. simpl in Hpts. lia. }
  cbv beta iota in H. remember (p0 :: kept') as kept eqn:Ek. clear Ek.
  cbv zeta in H.
  destruct (np_max (map abs_of kept)) as [ma|] eqn:Ea; [|discriminate].
  destruct (np_max (map rel_of kept)) as [mr|] eqn:Er; [|discriminate].
  injection H as <-.
  simpl.
  destruct (np_max_spec (map abs_of kept) ma) as [Hina Hlea]; [|exact Ea|].
  { intros x Hx. apply in_map_iff in Hx. destruct Hx as [p [<- Hp]].
    apply finite_not_nan. apply usable_errors_finite. apply Hk. exact Hp. }
  destruct (np_max_spec (map rel_of kept) mr) as [Hinr Hler]; [|exact Er|].
  { intros x Hx. apply in_map_iff in Hx. destruct Hx as [p [<- Hp]].
    apply finite_not_nan. apply usable_errors_finite. apply Hk. exact Hp. }
  split; [|split].
  - intros p Hp Hu. assert (In p kept) as Hpk by (apply Hk; auto).
    split; [apply Hlea; apply in_map; exact Hpk|].
    apply in_map_iff in Hinr. destruct Hinr as [q [<- Hq]].
    apply fmul_100_le.
    + apply usable_errors_finite. exact Hu.
    + apply usable_errors_finite. apply Hk. exact Hq.
    + apply Hler. apply in_map. exact Hpk.
  - apply in_map_iff in Hina. destruct Hina as [q [<- Hq]].
    exists q. split; [apply Hk; exact Hq|]. split; [apply Hk; exact Hq|reflexivity].
  - apply in_map_iff in Hinr. destruct Hinr as [q [<- Hq]].
    exists q. split; [apply Hk; exact Hq|]. split; [apply Hk; exact Hq|reflexivity].
Qed.

End Metrics.

Lemma maxima_bound_sample_witness :
  exists m,
    calculate_metrics (fun x => x) ref_sample sim_sample = Some m
    /\ forall p, In p (combine ref_sample sim_sample) -> usable p = true ->
         fleb (abs_of p) (max_abs_error m) = true
         /\ fleb (fmul (rel_of p) (Fin 100)) (max_rel_error m) = true.
Proof.
  eexists. split; [vm_compute; reflexivity|].
  apply (maxima_bound_every_compared_sample (fun x => x) ref_sample sim_sample).
  - reflexivity.
  - simpl. lia.
  - vm_compute. reflexivity.
Defined.

End SampleFacts.

(** ** Agreement of a series with itself, and the power rule *)

Module SelfCheckFacts.

Import MetricsTerms SampleTerms.
Import FloatModel FloatFacts.
Import ValidateSim.
Local Open Scope Q_scope.

Lemma is_zero_inv (a : fval) : is_zero a -> exists q, a = Fin q /\ q == 0.
Proof.
  destruct a as [q| | |]; simpl; try contradiction.
  intros H. exists q. split; [reflexivity|exact H].
Qed.

Lemma combine_diagonal (A : Type) (v : list A) (p : A * A) :
  In p (combine v v) -> fst p = snd p.
Proof.
  induction v as [|a v IH]; simpl; [contradiction|].
  intros [<-|H]; [reflexivity|apply IH; exact H].
Qed.

Lemma in_combine_diagonal (A : Type) (v : list A) (x : A) :
  In x v -> In (x, x) (combine v v).
Proof.
  induction v as [|a v IH]; simpl; [contradiction|].
  intros [->|H]; [left; reflexivity|right; apply IH; exact H].
Qed.

Lemma abs_of_same (p : fval * fval) :
  usable p = true -> fst p = snd p -> is_zero (abs_of p) /\ is_zero (rel_of p).
Proof.
  intros Hu Hd. destruct (SampleFacts.usable_finite p Hu) as [r [s [-> Hr]]].
  simpl in Hd. injection Hd as <-.
  rewrite (SampleFacts.rel_of_finite r r Hr), SampleFacts.abs_of_finite.
  assert (Qabs (r + - r) == 0) as Hz.
  { assert (r + - r == 0) as -> by ring. reflexivity. }
  assert (0 < Qabs r) as Hp by (apply NearestFacts.Qabs_nonzero; exact Hr).
  split; simpl; [exact Hz|]. rewrite Hz. field. lra.
Qed.

Lemma fsum_zero (l : list fval) :
  Forall is_zero l -> forall a, is_zero a -> is_zero (fold_left fadd l a).
Proof.
  induction 1 as [|x l Hx Hl IH]; intros a Ha; simpl; [exact Ha|].
  apply IH. destruct (is_zero_inv a Ha) as [q [-> Hq]].
  destruct (is_zero_inv x Hx) as [y [-> Hy]]. simpl. lra.
Qed.

Lemma fmean_zero (l : list fval) : l <> [] -> Forall is_zero l -> is_zero (fmean l).
Proof.
  intros Hne Hl. destruct l as [|x l]; [congruence|].
  unfold fmean, fsum.
  destruct (is_zero_inv _ (fsum_zero (x :: l) Hl (Fin 0) (Qeq_refl 0))) as [s [-> Hs]].
  unfold of_nat, fdiv.
  assert (0 < inject_Z (Z.of_nat (List.length (x :: l)))) as Hn.
  { apply (GridFacts.Qnat_pos (List.length (x :: l))). simpl. lia. }
  remember (inject_Z (Z.of_nat (List.length (x :: l)))) as n eqn:En. clear En.
  destruct (Qeq_bool n 0) eqn:E.
  - apply Qeq_bool_iff in E. lra.
  - unfold is_zero, feq. rewrite Hs. field. lra.
Qed.

Lemma fmul_100_zero (a : fval) : is_zero a -> is_zero (fmul a (Fin 100)).
Proof.
  intros H. destruct (is_zero_inv a H) as [q [-> Hq]]. simpl. lra.
Qed.

Lemma np_max_zero (l : list fval) (m : fval) :
  Forall is_zero l -> np_max l = Some m -> is_zero m.
Proof.
  intros Hl H. rewrite Forall_forall in Hl.
  destruct (SampleFacts.np_max_spec l m) as [Hin _]; [|exact H|apply Hl; exact Hin].
  intros x Hx. destruct (is_zero_inv x (Hl x Hx)) as [q [-> _]]. reflexivity.
Qed.

(** X19: [calculate_metrics] of a series against itself reports no
    error: as soon as one value of the series is finite and not zero, the
    largest absolute error, the largest relative error and the mean
    relative error are all zero, and the RMS error is the square root of
    zero. *)
Theorem a_series_agrees_with_itself
        (np_sqrt : fval -> fval) (v : list fval) (x : fval)
        (Hin : In x v) (Hx : isfinite x = true) (Hnz : fneb x (Fin 0) = true) :
  exists m z,
    calculate_metrics np_sqrt v v = Some m
    /\ is_zero (max_abs_error m) /\ is_zero (max_rel_error m)
    /\ is_zero (mean_rel_error m)
    /\ is_zero z /\ rms_error m = np_sqrt z
    /\ (0 < points_compared m)%nat.
Proof.
  rewrite (SampleFacts.metrics_of_pairs np_sqrt v v eq_refl).
  assert (In (x, x) (filter usable (combine v v))) as Hxk.
  { apply filter_In. split; [apply in_combine_diagonal; exact Hin|].
    simpl. rewrite Hx, Hnz. reflexivity. }
  assert (forall p, In p (filter usable (combine v v)) ->
                    is_zero (abs_of p) /\ is_zero (rel_of p)) as Hk.
  { intros p Hp. apply filter_In in Hp. destruct Hp as [Hp Hu].
    apply abs_of_same; [exact Hu|]. eapply combine_diagonal. exact Hp. }
  destruct (filter usable (combine v v)) as [|p0 kept']; [contradiction|].
  cbv beta iota. remember (p0 :: kept') as kept eqn:Ek. cbv zeta.
  assert (Forall is_zero (map abs_of kept)) as Ha.
  { apply Forall_forall. intros a Ha. apply in_map_iff in Ha.
    destruct Ha as [p [<- Hp]]. apply Hk. exact Hp. }
  assert (Forall is_zero (map rel_of kept)) as Hr.
  { apply Forall_forall. intros a Hr. apply in_map_iff in Hr.
    destruct Hr as [p [<- Hp]]. apply Hk. exact Hp. }
  destruct (np_max (map abs_of kept)) as [ma|] eqn:Ea; [|subst kept; discriminate].
  destruct (np_max (map rel_of kept)) as [mr|] eqn:Er; [|subst kept; discriminate].
  eexists. exists (fmean (map square (map abs_of kept))).
  split; [reflexivity|]. simpl.
  split; [exact (np_max_zero _ _ Ha Ea)|].
  split; [apply fmul_100_zero; exact (np_max_zero _ _ Hr Er)|].
  split; [apply fmul_100_zero; apply fmean_zero; [subst kept; discriminate|exact Hr]|].
  split; [|split; [reflexivity|subst kept; simpl; lia]].
  apply fmean_zero; [subst kept; discriminate|].
  apply Forall_forall. intros a Hin'. apply in_map_iff in Hin'.
  destruct Hin' as [b [<- Hb]]. rewrite Forall_forall in Ha.
  destruct (is_zero_inv b (Ha b Hb)) as [q [-> Hq]]. unfold square. simpl.
  rewrite Hq. ring.
Qed.

Lemma a_series_agrees_witness :
  exists m z,
    calculate_metrics (fun x => x) ref_sample ref_sample = Some m
    /\ is_zero (max_abs_error m) /\ is_zero (max_rel_error m)
    /\ is_zero (mean_rel_error m)
    /\ is_zero z /\ rms_error m = z
    /\ (0 < points_compared m)%nat.
Proof.
  apply (a_series_agrees_with_itself (fun x => x) ref_sample (Fin 10)).
  - left. reflexivity.
  - reflexivity.
  - reflexivity.
Defined.

Lemma match_row_power (sim_data : list te_row) (ref_row : te_row) (r : result_row) :
  fgtb (power_relative ref_row) (Fin 0) = false ->
  match_row sim_data ref_row = Some r -> power_error r = Fin 0.
Proof.
  intros Hp. unfold match_row.
  destruct (argsort_first _) as [i|]; [|discriminate].
  destruct (nth_error sim_data i) as [sim_match|]; [|discriminate].
  destruct (fgtb _ time_window); [discriminate|].
  intros H. injection H as <-. cbn [power_error].
  unfold fgtb in Hp. simpl in Hp. rewrite Hp. reflexivity.
Qed.

Lemma match_rows_power (sim_data ref_data : list te_row) :
  (forall r, In r ref_data -> fgtb (power_relative r) (Fin 0) = false) ->
  Forall (fun r => power_error r = Fin 0) (match_rows sim_data ref_data).
Proof.
  induction ref_data as [|ref_row rest IH]; intros H; simpl; [constructor|].
  assert (Forall (fun r => power_error r = Fin 0) (match_rows sim_data rest)) as Hrest.
  { apply IH. intros r Hr. apply H. right. exact Hr. }
  destruct (match_row sim_data ref_row) as [r|] eqn:E; [|exact Hrest].
  constructor; [|exact Hrest].
  eapply match_row_power; [|exact E]. apply H. left. reflexivity.
Qed.

Lemma fold_fmax_zeros (l : list fval) :
  Forall (fun x => x = Fin 0) l -> fold_left fmax l (Fin 0) = Fin 0.
Proof.
  induction 1 as [|x l Hx Hl IH]; [reflexivity|]. simpl. rewrite Hx. exact IH.
Qed.

Lemma series_max_zeros (l : list fval) :
  l <> [] -> Forall (fun x => x = Fin 0) l -> series_max l = Fin 0.
Proof.
  intros Hne Hl. unfold series_max, dropna.
  rewrite MetricsFacts.filter_all.
  - destruct l as [|a l]; [congruence|].
    inversion Hl as [|? ? Ha Hl']; subst. apply fold_fmax_zeros. exact Hl'.
  - eapply Forall_impl; [|exact Hl]. intros a ->. reflexivity.
Qed.

(** X20: a reference power that is not positive is never counted as an
    error by [validate_time_evolution]: when no reference row has a
    positive power, every matched point has a power error of 0, and the
    Power line of the summary shows a largest error of 0 and the
    assessment EXCELLENT, whatever the simulated power is. *)
Theorem non_positive_reference_power_is_never_an_error
        (ref_data sim_data : list te_row)
        (lines : list summary_line) (df : list result_row) (all_pass : bool)
        (Href : forall r, In r ref_data -> fgtb (power_relative r) (Fin 0) = false)
        (H : validate_time_evolution ref_data sim_data = Some (lines, df, all_pass)) :
  Forall (fun r => power_error r = Fin 0) df
  /\ exists l,
      nth_error lines 1 = Some l
      /\ name l = "Power"%string /\ max_err l = Fin 0 /\ assessment l = EXCELLENT.
Proof.
  unfold validate_time_evolution, validate_time_evolution_with in H.
  pose proof (match_rows_power sim_data ref_data Href) as Hp.
  destruct (match_rows sim_data ref_data) as [|r0 rs] eqn:Em; [discriminate|].
  rewrite VerdictFacts.summarize_spec in H. injection H as <- <- _.
  split; [exact Hp|].
  eexists. split; [reflexivity|].
  cbn [VerdictTerms.line_for name max_err assessment].
  assert (series_max (map power_error (r0 :: rs)) = Fin 0) as Hz.
  { apply series_max_zeros; [discriminate|].
    apply Forall_forall. intros x Hx. apply in_map_iff in Hx.
    destruct Hx as [r [<- Hr]]. rewrite Forall_forall in Hp. apply Hp. exact Hr. }
  cbn [map] in Hz. split; [reflexivity|]. split; [exact Hz|]. rewrite Hz. reflexivity.
Qed.

Lemma non_positive_reference_power_witness :
  exists lines df all_pass,
    validate_time_evolution ref_no_power sim_high_power = Some (lines, df, all_pass)
    /\ Forall (fun r => power_error r = Fin 0) df
    /\ exists l,
        nth_error lines 1 = Some l
        /\ name l = "Power"%string /\ max_err l = Fin 0 /\ assessment l = EXCELLENT.
Proof.
  eexists. eexists. eexists. split; [vm_compute; reflexivity|].
  eapply (non_positive_reference_power_is_never_an_error ref_no_power sim_high_power).
  - intros r [<-|[]]. reflexivity.
  - vm_compute. reflexivity.
Defined.

End SelfCheckFacts.

(** ** Spatial validation and final verdict *)

Module SpatialFacts.

Import SpatialTerms.
Import FloatModel FloatFacts ValidateSim SpatialValidation.
Local Open Scope string_scope.

Lemma assess_quantities_spec (qs : list quantity) (merged : merged_frame) :
  forall all_pass,
    assess_quantities qs merged all_pass
    = (map (line_of merged) qs,
       all_pass && forallb (fun q => negb (report_fails (report_of merged q))) qs).
Proof.
  induction qs as [|q rest IH]; intros all_pass; simpl.
  - rewrite andb_true_r. reflexivity.
  - rewrite IH. unfold line_of at 1.
    destruct (report_fails (report_of merged q)); simpl.
    + rewrite andb_false_r. reflexivity.
    + reflexivity.
Qed.

Lemma mask_sum_zero (ref_vals : list fval) :
  (mask_sum (nonzero_mask ref_vals) =? 0)%nat = false
  <-> exists r, In r ref_vals /\ fneb r (Fin 0) = true.
Proof.
  unfold mask_sum, nonzero_mask. rewrite MetricsFacts.count_mask. split.
  - intros H. apply Nat.eqb_neq in H.
    destruct (filter (fun r => fneb r (Fin 0)) ref_vals) as [|r l] eqn:E; [simpl in H; lia|].
    exists r. apply (proj1 (filter_In (fun r => fneb r (Fin 0)) r ref_vals)).
    rewrite E. left. reflexivity.
  - intros [r Hr]. apply Nat.eqb_neq.
    apply (proj2 (filter_In (fun r => fneb r (Fin 0)) r ref_vals)) in Hr.
    destruct (filter (fun r => fneb r (Fin 0)) ref_vals); [contradiction|]. simpl. lia.
Qed.

Lemma threshold_nonneg (q : quantity) :
  In q quantities -> exists t, snd q = Fin t /\ (0 <= t)%Q.
Proof.
  unfold quantities. simpl.
  intros [<-|[<-|[<-|[<-|[<-|[<-|[]]]]]]]; simpl; eexists; split; try reflexivity;
    unfold Qle; simpl; lia.
Qed.

Lemma fails_assess_twice (mx : fval) (t : Q) :
  (0 <= t)%Q ->
  fails (assess mx (Fin t)) = negb (fleb mx (fmul (Fin t) (Fin 2))).
Proof.
  intros Ht. rewrite VerdictFacts.fails_assess.
  destruct (fleb mx (Fin t)) eqn:E; [|reflexivity].
  simpl. symmetry. apply negb_false_iff.
  eapply fleb_trans; [exact E|]. simpl. apply Qle_bool_iff. lra.
Qed.

Lemma report_fails_iff (merged : merged_frame) (name col : string) (threshold : fval) :
  In (name, col, threshold) quantities ->
  (report_fails (report_of merged (name, col, threshold)) = true
   <-> exists ref_vals sim_vals,
       column (col ++ "_ref") merged = Some ref_vals
       /\ column (col ++ "_sim") merged = Some sim_vals
       /\ (exists r, In r ref_vals /\ fneb r (Fin 0) = true)
       /\ fleb (series_max (rel_errors ref_vals sim_vals)) (fmul threshold (Fin 2)) = false).
Proof.
  intros Hq. destruct (threshold_nonneg _ Hq) as [t [Ht Hpos]]. simpl in Ht. subst threshold.
  unfold report_of.
  destruct (column (col ++ "_ref") merged) as [ref_vals|];
    [|split; [discriminate|intros [? [? [? _]]]; discriminate]].
  destruct (column (col ++ "_sim") merged) as [sim_vals|];
    [|split; [discriminate|intros [? [? [_ [? _]]]]; discriminate]].
  destruct (mask_sum (nonzero_mask ref_vals) =? 0)%nat eqn:E.
  - split; [discriminate|].
    intros [rv [sv [Hr [Hs [Hex _]]]]]. injection Hr as <-.
    apply mask_sum_zero in Hex. congruence.
  - cbn [report_fails]. rewrite (fails_assess_twice _ t Hpos), negb_true_iff. split.
    + intros H. exists ref_vals, sim_vals.
      split; [reflexivity|]. split; [reflexivity|].
      split; [apply mask_sum_zero; exact E|exact H].
    + intros [rv [sv [Hr [Hs [_ H]]]]]. injection Hr as <-. injection Hs as <-. exact H.
Qed.

(** X21: [validate_spatial_profile] returns the verdict False exactly
    when, for one of its six quantities, both columns are in the merged
    frame, some reference value is not zero, and the largest relative
    error over those values is not within twice the threshold.  A
    quantity with a column missing, or with a reference column of zeros,
    cannot make the validation fail. *)
Theorem spatial_verdict_is_false_iff_a_quantity_is_off
        (merged merged' : merged_frame) (lines : list (string * report))
        (all_pass : bool)
        (H : validate_spatial_profile merged = Some (Some (lines, merged', all_pass))) :
  merged' = merged
  /\ lines = map (line_of merged) quantities
  /\ (all_pass = false
      <-> exists name col threshold ref_vals sim_vals,
          In (name, col, threshold) quantities
          /\ column (col ++ "_ref") merged = Some ref_vals
          /\ column (col ++ "_sim") merged = Some sim_vals
          /\ (exists r, In r ref_vals /\ fneb r (Fin 0) = true)
          /\ fleb (series_max (rel_errors ref_vals sim_vals))
                  (fmul threshold (Fin 2)) = false).
Proof.
  unfold validate_spatial_profile in H.
  destruct (List.length (zone_index merged) =? 0)%nat; [discriminate|].
  rewrite assess_quantities_spec in H.
  destruct (boundary_check merged); [|discriminate].
  remember (forallb (fun q => negb (report_fails (report_of merged q))) quantities)
    as ok eqn:E.
  remember (map (line_of merged) quantities) as ls eqn:El.
  injection H as <- <- <-.
  split; [reflexivity|]. split; [reflexivity|].
  rewrite ?andb_true_l. symmetry in E. clear El. split.
  - intros Hf. rewrite Hf in E.
    assert (exists q, In q quantities /\ report_fails (report_of merged q) = true)
      as [q [Hq Hr]].
    { induction quantities as [|q qs IH]; [discriminate|].
      simpl in E. apply andb_false_iff in E. destruct E as [E|E].
      - exists q. split; [left; reflexivity|]. apply negb_false_iff. exact E.
      - destruct (IH E) as [q' [Hq' Hr']]. exists q'. split; [right; exact Hq'|exact Hr']. }
    destruct q as [[name col] threshold].
    apply (report_fails_iff merged name col threshold Hq) in Hr.
    destruct Hr as [rv [sv Hr]]. exists name, col, threshold, rv, sv.
    split; [exact Hq|exact Hr].
  - intros [name [col [threshold [rv [sv [Hq Hr]]]]]].
    rewrite <- E. apply (TransientFacts.forallb_false_intro _ _ _ Hq).
    apply negb_false_iff.
    apply (report_fails_iff merged name col threshold Hq). exists rv, sv. exact Hr.
Qed.

Lemma spatial_verdict_witness :
  density_off = density_off
  /\ map (fun l => fst l) (map (line_of density_off) quantities)
     = ["Density"; "Radius"; "Velocity"; "Pressure"; "Energy"; "Temperature"]
  /\ (false = false
      <-> exists name col threshold ref_vals sim_vals,
          In (name, col, threshold) quantities
          /\ column (col ++ "_ref") density_off = Some ref_vals
          /\ column (col ++ "_sim") density_off = Some sim_vals
          /\ (exists r, In r ref_vals /\ fneb r (Fin 0) = true)
          /\ fleb (series_max (rel_errors ref_vals sim_vals))
                  (fmul threshold (Fin 2)) = false).
Proof.
  destruct (spatial_verdict_is_false_iff_a_quantity_is_off
              density_off density_off (map (line_of density_off) quantities) false)
    as [H1 [H2 H3]].
  - vm_compute. reflexivity.
  - split; [exact H1|]. split; [reflexivity|exact H3].
Defined.

(** X22: [validate_spatial_profile] ends in an exception, not in a
    verdict, when zones matched but the reference density column is not
    in the merged frame (the KeyError of the boundary check, after the
    table has shown the density as MISSING), and when the first zone with
    a reference density above 10 has a non-zero index and the merged
    frame holds no zone just before it (the IndexError of [.iloc[0]]). *)
Theorem spatial_boundary_check_raises
        (merged : merged_frame)
        (Hzones : zone_index merged <> [])
        (H : column "density_g_cm3_ref" merged = None
             \/ exists density_ref boundary_zone rest,
                 column "density_g_cm3_ref" merged = Some density_ref
                 /\ select (map (fun d => fgtb d (Fin 10)) density_ref) (zone_index merged)
                    = boundary_zone :: rest
                 /\ boundary_zone <> 0%Z
                 /\ ~ In (boundary_zone - 1)%Z (zone_index merged)) :
  validate_spatial_profile merged = None.
Proof.
  unfold validate_spatial_profile.
  destruct (zone_index merged) as [|z zs] eqn:Ez; [congruence|].
  cbn [List.length Nat.eqb]. rewrite assess_quantities_spec.
  assert (boundary_check merged = None) as ->; [|reflexivity].
  unfold boundary_check. destruct H as [H|[density_ref [bz [rest [Hd [Hs [Hnz Hno]]]]]]].
  - rewrite H. reflexivity.
  - rewrite Hd, Ez, Hs.
    destruct (bz =? 0)%Z eqn:E0; [apply Z.eqb_eq in E0; congruence|].
    rewrite MetricsFacts.select_map_filter.
    destruct (filter (fun z0 => (z0 =? bz - 1)%Z) (z :: zs)) as [|c cs] eqn:Ef; [reflexivity|].
    exfalso. apply Hno.
    assert (In c (filter (fun z0 => (z0 =? bz - 1)%Z) (z :: zs))) as Hc
        by (rewrite Ef; left; reflexivity).
    apply filter_In in Hc. destruct Hc as [Hc Heq]. apply Z.eqb_eq in Heq.
    rewrite <- Heq. exact Hc.
Qed.

Lemma spatial_boundary_check_witness : validate_spatial_profile blanket_first = None.
Proof.
  apply (spatial_boundary_check_raises blanket_first).
  - discriminate.
  - right. exists [Fin 15.83; Fin 15.83], 26%Z, [27%Z].
    split; [reflexivity|]. split; [reflexivity|]. split; [discriminate|].
    simpl. intros [H|[H|[]]]; discriminate.
Defined.

Lemma match_rows_no_simulation (ref_data : list te_row) : match_rows [] ref_data = [].
Proof. induction ref_data as [|r rest IH]; [reflexivity|]. simpl. exact IH. Qed.

(** X23: [main] never prints VALIDATION FAILED.  When a validation
    returns None (no time point matched, as with a simulation that has
    no row; or no zone matched), [main] ends in the TypeError of the
    unpacking; otherwise its verdict is PASSED when both validations
    passed, PARTIAL when one did and INCOMPLETE when none did. *)
Theorem main_never_reports_failed
        (ref_data sim_data : list te_row) (merged : merged_frame) :
  main ref_data sim_data merged <> Some FAILED
  /\ (validate_time_evolution ref_data sim_data = None ->
      main ref_data sim_data merged = None)
  /\ main ref_data [] merged = None
  /\ (validate_spatial_profile merged = Some None ->
      main ref_data sim_data merged = None)
  /\ (forall lines df time_pass reports spatial_pass,
        validate_time_evolution ref_data sim_data = Some (lines, df, time_pass) ->
        validate_spatial_profile merged = Some (Some (reports, merged, spatial_pass)) ->
        generate_validation_plots (Some df) (Some merged) = Some tt ->
        main ref_data sim_data merged
        = Some (if time_pass && spatial_pass then PASSED
                else if time_pass || spatial_pass then PARTIAL else INCOMPLETE)).
Proof.
  split; [|split; [|split; [|split]]].
  - unfold main, main_with.
    destruct (validate_time_evolution ref_data sim_data) as [[[lines df] tp]|];
      [|discriminate].
    destruct (validate_spatial_profile merged) as [[[[reports m] sp]|]|];
      try discriminate.
    cbn [unpack is_not_None orb andb].
    destruct (generate_validation_plots (Some df) (Some m)); [|discriminate].
    destruct tp, sp; discriminate.
  - intros H. unfold main. rewrite H. reflexivity.
  - unfold main, validate_time_evolution, validate_time_evolution_with.
    rewrite match_rows_no_simulation. reflexivity.
  - intros H. unfold main, main_with. rewrite H.
    destruct (validate_time_evolution ref_data sim_data) as [[[lines df] tp]|]; reflexivity.
  - intros lines df tp reports sp Ht Hs Hp. unfold main, main_with.
    rewrite Ht, Hs. cbn [unpack is_not_None orb andb]. rewrite Hp.
    destruct tp, sp; reflexivity.
Qed.

End SpatialFacts.

(** ** The interpolant *)

Module InterpolationFacts.

Import GridTerms.
Import FloatModel FloatFacts.
Import ValidationAnalysis GridFacts.
Local Open Scope Q_scope.

Lemma interp1d_sorted (x y : list Q) :
  StronglySorted Qlt x -> List.length y = List.length x -> (2 <= List.length x)%nat ->
  interp1d x y = Some (call_linear (combine x y))
  /\ (2 <= List.length (combine x y))%nat
  /\ StronglySorted Qlt (map fst (combine x y))
  /\ forall i, nth i (combine x y) (0, 0) = (nth i x 0, nth i y 0).
Proof.
  intros Hs Hlen Hn.
  assert (map fst (combine x y) = x) as Hm by (apply map_fst_combine; congruence).
  split; [|split; [|split]].
  - rewrite interp1d_some; [|destruct x; [simpl in Hn; lia|discriminate]|exact Hlen].
    rewrite sort_samples_fixed; [reflexivity|]. rewrite Hm. exact Hs.
  - rewrite length_combine, Hlen, Nat.min_id. exact Hn.
  - rewrite Hm. exact Hs.
  - intros i. apply combine_nth. congruence.
Qed.

(** The segment [call_linear] uses at a point of a sorted sample list. *)
Lemma segment_of (x y : list Q) (x_new : Q) :
  StronglySorted Qlt x -> List.length y = List.length x -> (2 <= List.length x)%nat ->
  exists j,
    (S j < List.length x)%nat
    /\ call_linear (combine x y) x_new
       = Fin ((nth (S j) y 0 - nth j y 0) / (nth (S j) x 0 - nth j x 0)
              * (x_new - nth j x 0) + nth j y 0)
    /\ nth j x 0 < nth (S j) x 0
    /\ (j = 0%nat \/ nth j x 0 < x_new)
    /\ (S j = (List.length x - 1)%nat \/ x_new <= nth (S j) x 0).
Proof.
  intros Hs Hlen Hn.
  destruct (interp1d_sorted x y Hs Hlen Hn) as [_ [Hn' [Hs' Hnth]]].
  destruct (call_linear_spec (combine x y) x_new Hn' Hs') as [j [Hj [Hv [Hlo Hhi]]]].
  rewrite length_combine, Hlen, Nat.min_id in Hj, Hhi.
  unfold line_through in Hv. rewrite (Hnth j), (Hnth (S j)) in Hv.
  rewrite (Hnth j) in Hlo. rewrite (Hnth (S j)) in Hhi.
  cbn [fst snd] in Hv, Hlo, Hhi.
  exists j. split; [exact Hj|]. split; [exact Hv|].
  split; [apply (sorted_nth Qlt x Hs j (S j)); lia|]. split; assumption.
Qed.

(** X24: the interpolant [interp1d] builds from keys in strictly
    ascending order passes through the samples: at a key of the data it
    returns the value the data has there. *)
Theorem interpolant_passes_through_the_samples
        (x y : list Q) (i : nat)
        (Hsorted : StronglySorted Qlt x)
        (Hlen : List.length y = List.length x)
        (Hn : (2 <= List.length x)%nat)
        (Hi : (i < List.length x)%nat) :
  exists f, interp1d x y = Some f /\ feq (f (nth i x 0)) (Fin (nth i y 0)).
Proof.
  exists (call_linear (combine x y)).
  split; [apply (interp1d_sorted x y Hsorted Hlen Hn)|].
  destruct (segment_of x y (nth i x 0) Hsorted Hlen Hn) as [j [Hj [Hv [Hd [Hlo Hhi]]]]].
  rewrite Hv. simpl.
  pose proof (sorted_nth Qlt x Hsorted) as Hs.
  assert (i = j \/ i = S j) as [->| ->].
  { destruct (lt_eq_lt_dec i j) as [[Hlt|Heq]|Hgt].
    - exfalso. pose proof (Hs i j Hlt ltac:(lia)) as H1.
      destruct Hlo as [->|H2]; [lia|]. lra.
    - left. exact Heq.
    - destruct (Nat.eq_dec i (S j)) as [Heq|Hne]; [right; exact Heq|].
      exfalso. pose proof (Hs (S j) i ltac:(lia) Hi) as H1.
      destruct Hhi as [H2|H2]; [lia|]. lra. }
  - field. lra.
  - field. lra.
Qed.

Lemma interpolant_samples_witness :
  exists f, interp1d [0; 1; 3] [10; 20; 40] = Some f /\ feq (f 1) (Fin 20).
Proof.
  apply (interpolant_passes_through_the_samples [0; 1; 3] [10; 20; 40] 1).
  - repeat constructor.
  - reflexivity.
  - simpl. lia.
  - simpl. lia.
Defined.

(** X25: linear interpolation is exact on linear data, outside the range
    of the keys as well as inside: when every sample lies on the line
    y = a x + b, the interpolant returns a x + b at every point. *)
Theorem linear_data_is_interpolated_exactly
        (x y : list Q) (a b : Q)
        (Hsorted : StronglySorted Qlt x)
        (Hlen : List.length y = List.length x)
        (Hn : (2 <= List.length x)%nat)
        (Hline : forall i, (i < List.length x)%nat -> nth i y 0 == a * nth i x 0 + b) :
  exists f, interp1d x y = Some f /\ forall x_new, feq (f x_new) (Fin (a * x_new + b)).
Proof.
  exists (call_linear (combine x y)).
  split; [apply (interp1d_sorted x y Hsorted Hlen Hn)|].
  intros x_new.
  destruct (segment_of x y x_new Hsorted Hlen Hn) as [j [Hj [Hv [Hd _]]]].
  rewrite Hv. simpl.
  rewrite (Hline j ltac:(lia)), (Hline (S j) Hj). field. lra.
Qed.

Lemma linear_data_witness :
  exists f,
    interp1d [0; 1; 3] [10; 20; 40] = Some f
    /\ forall x_new, feq (f x_new) (Fin (10 * x_new + 10)).
Proof.
  apply (linear_data_is_interpolated_exactly [0; 1; 3] [10; 20; 40] 10 10).
  - repeat constructor.
  - reflexivity.
  - simpl. lia.
  - intros [|[|[|i]]] Hi; simpl in *; try reflexivity; lia.
Defined.

(** X26: inside the range of the keys the interpolant does not overshoot:
    at a point between the first and the last key, its value lies between
    the values of the two samples around the point. *)
Theorem interpolant_stays_between_neighbouring_samples
        (x y : list Q) (g : Q)
        (Hsorted : StronglySorted Qlt x)
        (Hlen : List.length y = List.length x)
        (Hn : (2 <= List.length x)%nat)
        (Hlo : nth 0 x 0 <= g)
        (Hhi : g <= nth (List.length x - 1) x 0) :
  exists f j v,
    interp1d x y = Some f /\ f g = Fin v
    /\ (S j < List.length x)%nat
    /\ nth j x 0 <= g <= nth (S j) x 0
    /\ Qmin (nth j y 0) (nth (S j) y 0) <= v <= Qmax (nth j y 0) (nth (S j) y 0).
Proof.
  destruct (segment_of x y g Hsorted Hlen Hn) as [j [Hj [Hv [Hd [Hl Hh]]]]].
  exists (call_linear (combine x y)), j. eexists.
  split; [apply (interp1d_sorted x y Hsorted Hlen Hn)|].
  split; [exact Hv|]. split; [exact Hj|].
  assert (nth j x 0 <= g) as H1.
  { destruct Hl as [->|Hl]; [exact Hlo|apply Qlt_le_weak; exact Hl]. }
  assert (g <= nth (S j) x 0) as H2.
  { destruct Hh as [->|Hh]; [exact Hhi|exact Hh]. }
  split; [split; assumption|].
  remember (nth j x 0) as xl. remember (nth (S j) x 0) as xh.
  remember (nth j y 0) as yl. remember (nth (S j) y 0) as yh.
  set (t := (g - xl) / (xh - xl)).
  assert (0 <= t) as Ht0.
  { unfold t. apply Qle_shift_div_l; lra. }
  assert (t <= 1) as Ht1.
  { unfold t. apply Qle_shift_div_r; lra. }
  assert ((yh - yl) / (xh - xl) * (g - xl) + yl == yl + (yh - yl) * t) as ->.
  { unfold t. field. lra. }
  unfold Qmin, Qmax. destruct (Qle_bool yl yh) eqn:E.
  - apply Qle_bool_iff in E. split; nra.
  - assert (yh <= yl) as E'.
    { destruct (Qlt_le_dec yh yl) as [H|H]; [lra|].
      apply Qle_bool_iff in H. congruence. }
    split; nra.
Qed.

Lemma interpolant_between_witness :
  exists f j v,
    interp1d [0; 1; 3] [10; 20; 40] = Some f /\ f 2 = Fin v
    /\ (S j < 3)%nat
    /\ nth j [0; 1; 3] 0 <= 2 <= nth (S j) [0; 1; 3] 0
    /\ Qmin (nth j [10; 20; 40] 0) (nth (S j) [10; 20; 40] 0) <= v
       <= Qmax (nth j [10; 20; 40] 0) (nth (S j) [10; 20; 40] 0).
Proof.
  apply (interpolant_stays_between_neighbouring_samples [0; 1; 3] [10; 20; 40] 2).
  - repeat constructor.
  - reflexivity.
  - simpl. lia.
  - discriminate.
  - discriminate.
Defined.

Lemma linspace_within (start stop : Q) (num : nat) :
  start <= stop -> Forall (fun g => start <= g <= stop) (linspace start stop num).
Proof.
  intros Hle. apply Forall_forall. intros g Hg.
  destruct num as [|[|n]]; [contradiction| |].
  - destruct Hg as [<-|[]]. split; lra.
  - apply (In_nth _ _ 0) in Hg. destruct Hg as [i [Hi <-]].
    rewrite linspace_length in Hi.
    rewrite (linspace_nth start stop (S (S n)) i ltac:(lia) Hi).
    rewrite (grid_point_affine start stop (S (S n)) i ltac:(lia) Hi).
    pose proof (step_nonneg start stop (S (S n) - 1) ltac:(lia) Hle) as Hstep.
    pose proof (Qnat_le 0 i ltac:(lia)) as Hi0.
    pose proof (Qnat_le i (S (S n) - 1) ltac:(lia)) as Hi1.
    pose proof (Qnat_pos (S (S n) - 1) ltac:(lia)) as Hpos.
    change (Qnat 0) with 0 in Hi0.
    remember (Qnat i) as qi. remember (Qnat (S (S n) - 1)) as qn.
    assert (qn * ((stop - start) / qn) == stop - start) as Hfull by (field; lra).
    remember ((stop - start) / qn) as step.
    split; nra.
Qed.

(** X27: on a proper overlap the common grid asks for no extrapolation:
    when the larger of the two least keys is not above the smaller of the
    two greatest keys, every point of the grid lies within the key range
    of the reference frame and within that of the simulation frame. *)
Theorem common_grid_stays_within_both_ranges
        (ref_data sim_data : frame) (r s : Q) (rs ss : list Q)
        (Hr : index ref_data = r :: rs) (Hs : index sim_data = s :: ss)
        (Hoverlap : Qmax (col_min r rs) (col_min s ss)
                    <= Qmin (col_max r rs) (col_max s ss)) :
  Forall (fun g => col_min r rs <= g <= col_max r rs
                   /\ col_min s ss <= g <= col_max s ss)
         (common_grid ref_data sim_data).
Proof.
  unfold common_grid. rewrite Hr, Hs.
  eapply Forall_impl; [|apply linspace_within; exact Hoverlap].
  intros g [H1 H2].
  destruct (Qmax_spec (col_min r rs) (col_min s ss)) as [Ha [Hb _]].
  destruct (Qmin_spec (col_max r rs) (col_max s ss)) as [Hc [Hd _]].
  repeat split; lra.
Qed.

Lemma common_grid_ranges_witness :
  Forall (fun g => col_min 0 [1; 3] <= g <= col_max 0 [1; 3]
                   /\ col_min 1 [2; 4] <= g <= col_max 1 [2; 4])
         (common_grid ref_overlap sim_overlap).
Proof.
  apply (common_grid_stays_within_both_ranges ref_overlap sim_overlap 0 1 [1; 3] [2; 4]).
  - reflexivity.
  - reflexivity.
  - discriminate.
Defined.

End InterpolationFacts.

(** ** Comparison steps of validate_results.py *)

Module ResultsFacts.

Import GridTerms MetricsTerms ResultsTerms.
Import FloatModel FloatFacts.
Import ValidationAnalysis ValidateResults ResultsMain GridFacts.
Local Open Scope string_scope.

Lemma lookup_In (A : Type) (nm : string) (cols : list (string * A)) (v : A) :
  lookup nm cols = Some v -> In (nm, v) cols.
Proof.
  unfold lookup. destruct (find (fun c => String.eqb (fst c) nm) cols) as [c|] eqn:E;
    [|discriminate].
  intros H. injection H as <-. apply find_some in E. destruct E as [Hin Heq].
  apply String.eqb_eq in Heq. rewrite <- Heq. destruct c. exact Hin.
Qed.

Lemma lookup_has (A : Type) (nm : string) (cols : list (string * A)) :
  existsb (fun c => String.eqb (fst c) nm) cols = true <-> exists v, lookup nm cols = Some v.
Proof.
  unfold lookup. induction cols as [|c cols IH]; simpl.
  - split; [discriminate|intros [v H]; discriminate].
  - destruct (String.eqb (fst c) nm); simpl; [|exact IH].
    split; [intros _; eexists; reflexivity|reflexivity].
Qed.

Lemma filter_twice (A : Type) (p : A -> bool) (l : list A) :
  filter p (filter p l) = filter p l.
Proof.
  induction l as [|a l IH]; [reflexivity|]. simpl.
  destruct (p a) eqn:E; [simpl; rewrite E, IH; reflexivity|exact IH].
Qed.

Section Compare.

Variable np_sqrt : fval -> fval.

Lemma calculate_errors_total (ref_data sim_data : data_frame) (n : nat) :
  (forall nm v, lookup nm ref_data = Some v -> List.length v = n) ->
  (forall nm v, lookup nm sim_data = Some v -> List.length v = n) ->
  forall cols,
    exists errs,
      calculate_errors np_sqrt ref_data sim_data cols = Some errs
      /\ map fst errs = available cols ref_data sim_data
      /\ forall c rv sv, In c cols ->
           lookup c ref_data = Some rv -> lookup c sim_data = Some sv ->
           exists m, column_errors np_sqrt rv sv = Some m /\ In (c, m) errs.
Proof.
  intros Hr Hs. induction cols as [|col rest IH].
  - exists []. split; [reflexivity|]. split; [reflexivity|]. intros c rv sv [].
  - destruct IH as [more [Hmore [Hkeys Hent]]]. simpl. unfold available. simpl.
    fold (available rest ref_data sim_data).
    destruct (lookup col ref_data) as [rv|] eqn:Er.
    + destruct (lookup col sim_data) as [sv|] eqn:Es.
      * destruct (MetricsFacts.column_errors_total np_sqrt rv sv) as [m Hm].
        { rewrite (Hr _ _ Er), (Hs _ _ Es). reflexivity. }
        rewrite Hm, Hmore. eexists. split; [reflexivity|].
        assert (has col ref_data = true) as -> by (apply lookup_has; eauto).
        assert (has col sim_data = true) as -> by (apply lookup_has; eauto).
        split; [simpl; rewrite Hkeys; reflexivity|].
        intros c rv' sv' [<-|Hc] Hr' Hs'.
        -- rewrite Er in Hr'. rewrite Es in Hs'. injection Hr' as <-. injection Hs' as <-.
           exists m. split; [exact Hm|left; reflexivity].
        -- destruct (Hent c rv' sv' Hc Hr' Hs') as [m' [Hm' Hin]].
           exists m'. split; [exact Hm'|right; exact Hin].
      * assert (has col sim_data = false) as ->.
        { destruct (has col sim_data) eqn:E; [|reflexivity].
          apply lookup_has in E. destruct E as [v E]. congruence. }
        rewrite andb_false_r. exists more. split; [exact Hmore|]. split; [exact Hkeys|].
        intros c rv' sv' [<-|Hc] Hr' Hs'; [congruence|]. apply (Hent c rv' sv' Hc Hr' Hs').
    + assert (has col ref_data = false) as ->.
      { destruct (has col ref_data) eqn:E; [|reflexivity].
        apply lookup_has in E. destruct E as [v E]. congruence. }
      simpl. exists more. split; [exact Hmore|]. split; [exact Hkeys|].
      intros c rv' sv' [<-|Hc] Hr' Hs'; [congruence|]. apply (Hent c rv' sv' Hc Hr' Hs').
Qed.

Lemma interpolate_some (ref_data sim_data : frame) :
  index ref_data <> [] -> index sim_data <> [] ->
  well_formed ref_data -> well_formed sim_data ->
  interpolate_to_common_grid ref_data sim_data
  = Some ({| x_common := common_grid ref_data sim_data;
             interpolated := map (on_grid (index ref_data) (common_grid ref_data sim_data))
                                 (columns ref_data) |},
          {| x_common := common_grid ref_data sim_data;
             interpolated := map (on_grid (index sim_data) (common_grid ref_data sim_data))
                                 (filter (fun c => has_column (fst c) ref_data)
                                         (columns sim_data)) |}).
Proof.
  intros Hr Hs Hwr Hws. unfold interpolate_to_common_grid.
  rewrite (interp_columns_spec (fun _ => true) _ _ _ Hr Hwr).
  rewrite (interp_columns_spec (fun nm => has_column nm ref_data) _ _ _ Hs Hws).
  rewrite MetricsFacts.filter_all; [reflexivity|].
  apply Forall_forall. reflexivity.
Qed.

Lemma frame_columns_length (x_col : string) (grid : list Q) (x : list Q)
      (cols : list (string * list Q)) (nm : string) (v : list fval) :
  lookup nm (frame_columns x_col {| x_common := grid;
                                    interpolated := map (on_grid x grid) cols |}) = Some v ->
  List.length v = List.length grid.
Proof.
  intros H. apply lookup_In in H. unfold frame_columns in H. simpl in H.
  destruct H as [H|H].
  - injection H as _ <-. apply length_map.
  - apply in_map_iff in H. destruct H as [c [Hc _]]. unfold on_grid in Hc.
    injection Hc as _ <-. apply length_map.
Qed.

Lemma compare_entries
      (x_col : string) (cols : list string) (ref_data sim_data : frame) :
  index ref_data <> [] -> index sim_data <> [] ->
  well_formed ref_data -> well_formed sim_data ->
  exists ref_interp sim_interp errs,
    interpolate_to_common_grid ref_data sim_data = Some (ref_interp, sim_interp)
    /\ ref_interp = {| x_common := common_grid ref_data sim_data;
                       interpolated := map (on_grid (index ref_data)
                                                    (common_grid ref_data sim_data))
                                           (columns ref_data) |}
    /\ sim_interp = {| x_common := common_grid ref_data sim_data;
                       interpolated := map (on_grid (index sim_data)
                                                    (common_grid ref_data sim_data))
                                           (filter (fun c => has_column (fst c) ref_data)
                                                   (columns sim_data)) |}
    /\ compare np_sqrt x_col cols ref_data sim_data = Some errs
    /\ map fst errs
       = available cols (frame_columns x_col ref_interp) (frame_columns x_col sim_interp)
    /\ forall c rv sv, In c cols ->
         lookup c (frame_columns x_col ref_interp) = Some rv ->
         lookup c (frame_columns x_col sim_interp) = Some sv ->
         exists m, column_errors np_sqrt rv sv = Some m /\ In (c, m) errs.
Proof.
  intros Hr Hs Hwr Hws.
  unfold compare. rewrite (interpolate_some ref_data sim_data Hr Hs Hwr Hws).
  eexists. eexists.
  destruct (calculate_errors_total
              (frame_columns x_col
                 {| x_common := common_grid ref_data sim_data;
                    interpolated := map (on_grid (index ref_data)
                                                 (common_grid ref_data sim_data))
                                        (columns ref_data) |})
              (frame_columns x_col
                 {| x_common := common_grid ref_data sim_data;
                    interpolated := map (on_grid (index sim_data)
                                                 (common_grid ref_data sim_data))
                                        (filter (fun c => has_column (fst c) ref_data)
                                                (columns sim_data)) |})
              (List.length (common_grid ref_data sim_data)))
    with (cols := available cols
                    (frame_columns x_col
                       {| x_common := common_grid ref_data sim_data;
                          interpolated := map (on_grid (index ref_data)
                                                       (common_grid ref_data sim_data))
                                              (columns ref_data) |})
                    (frame_columns x_col
                       {| x_common := common_grid ref_data sim_data;
                          interpolated := map (on_grid (index sim_data)
                                                       (common_grid ref_data sim_data))
                                              (filter (fun c => has_column (fst c) ref_data)
                                                      (columns sim_data)) |}))
    as [errs [He [Hk Hent]]].
  - intros nm v. apply frame_columns_length.
  - intros nm v. apply frame_columns_length.
  - exists errs. split; [reflexivity|]. split; [reflexivity|]. split; [reflexivity|].
    split; [exact He|]. split.
    + rewrite Hk. unfold available. apply filter_twice.
    + intros c rv sv Hc Hrv Hsv. apply (Hent c rv sv); [|exact Hrv|exact Hsv].
      apply filter_In. split; [exact Hc|]. unfold has.
      rewrite (proj2 (lookup_has _ c _) (ex_intro _ rv Hrv)).
      rewrite (proj2 (lookup_has _ c _) (ex_intro _ sv Hsv)). reflexivity.
Qed.

(** X28: the comparison step of [main] in validate_results.py never
    raises on frames that have a row and whose columns are as long as
    their key column: the two frames are put on the common grid, and the
    errors come back with one entry for each requested column that both
    interpolated frames have, in the order requested, each computed by
    [calculate_errors] from the two interpolated columns. *)
Theorem comparison_step_never_raises
        (x_col : string) (cols : list string) (ref_data sim_data : frame)
        (Hr : index ref_data <> []) (Hs : index sim_data <> [])
        (Hwr : well_formed ref_data) (Hws : well_formed sim_data) :
  exists ref_interp sim_interp errs,
    interpolate_to_common_grid ref_data sim_data = Some (ref_interp, sim_interp)
    /\ compare np_sqrt x_col cols ref_data sim_data = Some errs
    /\ map fst errs
       = available cols (frame_columns x_col ref_interp) (frame_columns x_col sim_interp)
    /\ forall c rv sv, In c cols ->
         lookup c (frame_columns x_col ref_interp) = Some rv ->
         lookup c (frame_columns x_col sim_interp) = Some sv ->
         exists m, column_errors np_sqrt rv sv = Some m /\ In (c, m) errs.
Proof.
  destruct (compare_entries x_col cols ref_data sim_data Hr Hs Hwr Hws)
    as [ri [si [errs [Hi [_ [_ [He [Hk Hent]]]]]]]].
  exists ri, si, errs. split; [exact Hi|]. split; [exact He|]. split; [exact Hk|exact Hent].
Qed.

End Compare.

Lemma comparison_step_witness :
  exists ref_interp sim_interp errs,
    interpolate_to_common_grid ref_overlap sim_overlap = Some (ref_interp, sim_interp)
    /\ compare (fun x => x) "time_microsec" time_columns ref_overlap sim_overlap = Some errs
    /\ map fst errs
       = available time_columns (frame_columns "time_microsec" ref_interp)
                   (frame_columns "time_microsec" sim_interp)
    /\ forall c rv sv, In c time_columns ->
         lookup c (frame_columns "time_microsec" ref_interp) = Some rv ->
         lookup c (frame_columns "time_microsec" sim_interp) = Some sv ->
         exists m, column_errors (fun x => x) rv sv = Some m /\ In (c, m) errs.
Proof.
  apply (comparison_step_never_raises (fun x => x) "time_microsec" time_columns
           ref_overlap sim_overlap).
  - discriminate.
  - discriminate.
  - repeat constructor.
  - repeat constructor.
Defined.


Lemma lookup_on_grid (x grid : list Q) (cols : list (string * list Q))
      (nm : string) (y : list Q) :
  lookup nm cols = Some y ->
  lookup nm (map (on_grid x grid) cols)
  = Some (map (call_linear (sort_samples (combine x y))) grid).
Proof.
  unfold lookup. induction cols as [|c cols IH]; simpl; [discriminate|].
  destruct (String.eqb (fst c) nm); simpl.
  - intros H. injection H as <-. reflexivity.
  - exact IH.
Qed.

Lemma lookup_filter (A : Type) (p : string -> bool) (nm : string)
      (cols : list (string * A)) :
  p nm = true -> lookup nm (filter (fun c => p (fst c)) cols) = lookup nm cols.
Proof.
  intros Hp. unfold lookup. induction cols as [|c cols IH]; simpl; [reflexivity|].
  destruct (String.eqb (fst c) nm) eqn:E.
  - apply String.eqb_eq in E. rewrite E, Hp. simpl.
    rewrite <- E, String.eqb_refl. reflexivity.
  - destruct (p (fst c)); simpl; [rewrite E|]; exact IH.
Qed.

Lemma lookup_skip (A : Type) (nm other : string) (v : A) (cols : list (string * A)) :
  nm <> other -> lookup nm ((other, v) :: cols) = lookup nm cols.
Proof.
  intros H. unfold lookup. simpl.
  destruct (String.eqb other nm) eqn:E; [|reflexivity].
  apply String.eqb_eq in E. congruence.
Qed.

Lemma zero_data_below_floor (x y grid : list Q) :
  StronglySorted Qlt x -> List.length y = List.length x -> (2 <= List.length x)%nat ->
  Forall (fun v => (v == 0)%Q) y ->
  forall r, In r (map (call_linear (sort_samples (combine x y))) grid) ->
            above_floor r = false.
Proof.
  intros Hs Hlen Hn Hz r Hr.
  rewrite sort_samples_fixed in Hr
    by (rewrite map_fst_combine; [exact Hs|congruence]).
  apply in_map_iff in Hr. destruct Hr as [g [<- _]].
  destruct (InterpolationFacts.segment_of x y g Hs Hlen Hn) as [j [Hj [Hv [Hd _]]]].
  rewrite Hv.
  assert (forall i, (i < List.length y)%nat -> (nth i y 0 == 0)%Q) as Hy.
  { intros i Hi. rewrite Forall_forall in Hz. apply Hz. apply nth_In. exact Hi. }
  pose proof (Hy j ltac:(lia)) as H0. pose proof (Hy (S j) ltac:(lia)) as H1.
  unfold above_floor, fgtb, floor, fabs, fltb.
  apply Qlt_bool_false_iff.
  assert (((nth (S j) y 0 - nth j y 0) / (nth (S j) x 0 - nth j x 0)
           * (g - nth j x 0) + nth j y 0 == 0)%Q) as ->.
  { rewrite H0, H1. field. lra. }
  discriminate.
Qed.

Lemma merge_keeps (A : Type) (a b : list (string * A)) (nm : string) (v : A) :
  In (nm, v) a -> lookup nm b = None -> In (nm, v) (merge a b).
Proof.
  intros Hin Hb. unfold merge. apply in_or_app. left.
  apply in_map_iff. exists (nm, v). simpl. rewrite Hb. split; [reflexivity|exact Hin].
Qed.

(** X29: a compared quantity whose reference values are all zero makes
    validate_results.py fail, whatever the simulation gives for it: on the
    common grid the reference column is zero again, no sample is above
    the floor of 1e-10, the errors of the quantity are reported as NaN,
    and NaN is not below 0.01, so the exit status is 1. *)
Theorem zero_reference_column_fails_the_validation
        (np_sqrt : fval -> fval) (x_col col : string) (cols : list string)
        (ref_data sim_data : frame) (y ys : list Q)
        (Hsorted : StronglySorted Qlt (index ref_data))
        (Hn : (2 <= List.length (index ref_data))%nat)
        (Hs : index sim_data <> [])
        (Hwr : well_formed ref_data) (Hws : well_formed sim_data)
        (Hcol : In col cols) (Hx : col <> x_col)
        (Href : lookup col (columns ref_data) = Some y)
        (Hzero : Forall (fun v => (v == 0)%Q) y)
        (Hsim : lookup col (columns sim_data) = Some ys) :
  exists errs,
    compare np_sqrt x_col cols ref_data sim_data = Some errs
    /\ In (col, nothing_to_compare) errs
    /\ forall spatial_errors,
         lookup col spatial_errors = None -> exit_status errs spatial_errors = 1%nat.
Proof.
  assert (index ref_data <> []) as Hr.
  { destruct (index ref_data); [simpl in Hn; lia|discriminate]. }
  destruct (compare_entries np_sqrt x_col cols ref_data sim_data Hr Hs Hwr Hws)
    as [ri [si [errs [_ [Eri [Esi [He [_ Hent]]]]]]]].
  assert (List.length y = List.length (index ref_data)) as Hlen.
  { apply lookup_In in Href. unfold well_formed in Hwr. rewrite Forall_forall in Hwr.
    apply (Hwr _ Href). }
  set (grid := common_grid ref_data sim_data) in *.
  assert (lookup col (frame_columns x_col ri)
          = Some (map (call_linear (sort_samples (combine (index ref_data) y))) grid)) as Hrv.
  { unfold frame_columns. rewrite (lookup_skip _ _ _ _ _ Hx). rewrite Eri. simpl.
    apply lookup_on_grid. exact Href. }
  assert (lookup col (frame_columns x_col si)
          = Some (map (call_linear (sort_samples (combine (index sim_data) ys))) grid)) as Hsv.
  { unfold frame_columns. rewrite (lookup_skip _ _ _ _ _ Hx). rewrite Esi. simpl.
    apply lookup_on_grid.
    rewrite (lookup_filter _ (fun nm => has_column nm ref_data)); [exact Hsim|].
    unfold has_column. apply orb_true_iff. left. apply lookup_has. eauto. }
  destruct (Hent col _ _ Hcol Hrv Hsv) as [m [Hm Hin]].
  rewrite MetricsFacts.column_errors_none_above in Hm
    by (apply zero_data_below_floor; assumption).
  injection Hm as <-.
  exists errs. split; [exact He|]. split; [exact Hin|].
  intros spatial_errors Hsp. unfold exit_status.
  assert (validation_passed (merge errs spatial_errors) = false) as ->; [|reflexivity].
  apply VerdictFacts.validation_passed_false_iff.
  exists col, nothing_to_compare. split; [|reflexivity].
  apply merge_keeps; assumption.
Qed.

Lemma zero_reference_column_witness :
  exists errs,
    compare (fun x => x) "time_microsec" time_columns ref_at_rest sim_running = Some errs
    /\ In ("power_relative", nothing_to_compare) errs
    /\ forall spatial_errors,
         lookup "power_relative" spatial_errors = None ->
         exit_status errs spatial_errors = 1%nat.
Proof.
  apply (zero_reference_column_fails_the_validation
           (fun x => x) "time_microsec" "power_relative" time_columns
           ref_at_rest sim_running [0%Q; 0%Q; 0%Q] [1%Q; 2%Q; 3%Q]).
  - repeat constructor.
  - simpl. lia.
  - discriminate.
  - repeat constructor.
  - repeat constructor.
  - right. left. reflexivity.
  - discriminate.
  - reflexivity.
  - repeat constructor; reflexivity.
  - reflexivity.
Defined.

Lemma convert_units_names (conversions : list (string * fval)) :
  forall df : data_frame,
    map fst (convert_units df conversions) = map fst df
    /\ map (fun c => List.length (snd c)) (convert_units df conversions)
       = map (fun c => List.length (snd c)) df.
Proof.
  induction conversions as [|[col factor] rest IH]; intros df; simpl; [split; reflexivity|].
  destruct (IH (if has col df then scale_column col factor df else df)) as [H1 H2].
  rewrite H1, H2. destruct (has col df); [|split; reflexivity].
  unfold scale_column. rewrite !map_map. split; apply map_ext; intros c;
    destruct (String.eqb (fst c) col); simpl; rewrite ?length_map; reflexivity.
Qed.

Lemma convert_units_untouched (conversions : list (string * fval)) :
  forall (df : data_frame) (c : string * list fval),
    In c df -> (forall factor, ~ In (fst c, factor) conversions) ->
    In c (convert_units df conversions).
Proof.
  induction conversions as [|[col factor] rest IH]; intros df c Hc Hno; simpl; [exact Hc|].
  apply IH; [|intros f Hf; apply (Hno f); right; exact Hf].
  destruct (has col df); [|exact Hc].
  unfold scale_column. apply in_map_iff. exists c. split; [|exact Hc].
  destruct (String.eqb (fst c) col) eqn:E; [|reflexivity].
  apply String.eqb_eq in E. exfalso. apply (Hno factor). left. rewrite E. reflexivity.
Qed.

Lemma Forall2_chain (A : Type) (R : A -> A -> Prop)
      (Htrans : forall a b c, R a b -> R b c -> R a c) :
  forall l1 l2 l3 : list A, Forall2 R l1 l2 -> Forall2 R l2 l3 -> Forall2 R l1 l3.
Proof.
  induction l1 as [|a l1 IH]; intros l2 l3 H12 H23.
  - inversion H12; subst. inversion H23; subst. constructor.
  - inversion H12; subst. inversion H23; subst.
    constructor; [eapply Htrans; eassumption|eapply IH; eassumption].
Qed.

(** What [convert_units] does to a frame, entry by entry: when every
    multiplication by a factor of the dictionary keeps the relation [R]
    with the entry it started from, every entry of the result is in that
    relation with the entry of the frame at its place. *)
Lemma convert_units_entries (R : fval -> fval -> Prop)
      (Hrefl : forall v, R v v)
      (Htrans : forall a b c, R a b -> R b c -> R a c)
      (conversions : list (string * fval)) :
  (forall col factor v, In (col, factor) conversions -> R (fmul v factor) v) ->
  forall df : data_frame,
    Forall2 (fun c d => fst c = fst d /\ Forall2 R (snd c) (snd d))
            (convert_units df conversions) df.
Proof.
  assert (forall l : list fval, Forall2 R l l) as Hl.
  { induction l; constructor; auto. }
  assert (forall df : data_frame,
             Forall2 (fun c d => fst c = fst d /\ Forall2 R (snd c) (snd d)) df df) as Hdf.
  { induction df; constructor; auto. }
  induction conversions as [|[col factor] rest IH]; intros Hstep df; simpl; [apply Hdf|].
  apply (Forall2_chain (string * list fval)
           (fun c d => fst c = fst d /\ Forall2 R (snd c) (snd d)))
    with (l2 := if has col df then scale_column col factor df else df).
  - intros a b c [Hab Rab] [Hbc Rbc]. split; [congruence|].
    exact (Forall2_chain fval R Htrans _ _ _ Rab Rbc).
  - apply IH. intros c f v Hin. apply (Hstep c f v). right. exact Hin.
  - destruct (has col df); [|apply Hdf].
    unfold scale_column. clear IH. induction df as [|c df IHd]; simpl; constructor; [|exact IHd].
    destruct (String.eqb (fst c) col); simpl; [|split; [reflexivity|apply Hl]].
    split; [reflexivity|].
    induction (snd c) as [|v l IHl]; simpl; constructor; [|exact IHl].
    apply (Hstep col factor). left. reflexivity.
Qed.

Lemma convert_units_absent (conversions : list (string * fval)) :
  forall df : data_frame,
    (forall col factor, In (col, factor) conversions -> has col df = false) ->
    convert_units df conversions = df.
Proof.
  induction conversions as [|[col factor] rest IH]; intros df H; simpl; [reflexivity|].
  rewrite (H col factor (or_introl eq_refl)).
  apply IH. intros c f Hin. apply (H c f). right. exact Hin.
Qed.

Lemma feq_refl (v : fval) : feq v v.
Proof. destruct v; simpl; auto. apply Qeq_refl. Qed.

Lemma feq_trans (a b c : fval) : feq a b -> feq b c -> feq a c.
Proof.
  destruct a, b, c; simpl; intros H1 H2; try contradiction; auto.
  rewrite H1. exact H2.
Qed.

Lemma fmul_one (v : fval) : feq (fmul v (Fin 1)) v.
Proof.
  destruct v as [x| | |]; simpl; auto. ring.
Qed.

Lemma fmul_nan (v factor : fval) : isnan v = true -> isnan (fmul v factor) = true.
Proof. destruct v; try discriminate. intros _. destruct factor; reflexivity. Qed.

(** X30: [convert_units] keeps the shape of the frame (the names of the
    columns, their order and their lengths) and leaves alone every column
    the dictionary does not name; a dictionary that names no column of the
    frame gives the frame back; so does, entry by entry, a dictionary
    whose factors are all 1; and under any dictionary an entry that is NaN
    stays NaN. *)
Theorem convert_units_changes_only_named_columns (df : data_frame) :
  (forall conversions,
      map fst (convert_units df conversions) = map fst df
      /\ map (fun c => List.length (snd c)) (convert_units df conversions)
         = map (fun c => List.length (snd c)) df)
  /\ (forall conversions c,
        In c df -> (forall factor, ~ In (fst c, factor) conversions) ->
        In c (convert_units df conversions))
  /\ (forall conversions,
        (forall col factor, In (col, factor) conversions -> has col df = false) ->
        convert_units df conversions = df)
  /\ (forall conversions,
        (forall col factor, In (col, factor) conversions -> factor = Fin 1) ->
        Forall2 (fun c d => fst c = fst d /\ Forall2 feq (snd c) (snd d))
                (convert_units df conversions) df)
  /\ (forall conversions,
        Forall2 (fun c d =>
                   fst c = fst d
                   /\ Forall2 (fun v w => isnan w = true -> isnan v = true)
                              (snd c) (snd d))
                (convert_units df conversions) df).
Proof.
  split; [intros conversions; apply convert_units_names|].
  split; [intros conversions c; apply convert_units_untouched|].
  split; [intros conversions; apply convert_units_absent|].
  split.
  - intros conversions H1.
    apply (convert_units_entries feq feq_refl feq_trans).
    intros col factor v Hin. rewrite (H1 col factor Hin). apply fmul_one.
  - intros conversions.
    apply (convert_units_entries (fun v w => isnan w = true -> isnan v = true)).
    + auto.
    + auto.
    + intros col factor v _. apply fmul_nan.
Qed.

End ResultsFacts.
